(** * osgrep: store identifiers, session hooks, initial sync and the watcher

    A shallow embedding of the parts of the repository that decide how a
    store is named, how the session hooks stop the background process, how
    an initial sync pass reconciles a directory with a remote store, and how
    the [watch] command reacts to file-system notifications.

    JavaScript strings are sequences of UTF-16 code units; they are modelled
    as lists of [N], one number per code unit, so that the regular
    expressions of the source (which work per code unit, none of them has
    the [u] flag) are read exactly as the engine reads them. *)

From Stdlib Require Import NArith ZArith List Ascii String Lia Bool.
From stdpp Require Import gmap list.

Set Default Proof Using "Type".

(** ** JavaScript strings *)

Abbreviation jsstring := (list N).

(** A string literal of the source, as code units. *)
Definition js (s : string) : jsstring :=
  List.map N_of_ascii (list_ascii_of_string s).
Arguments js s%_string.

(** JavaScript truthiness of a string: every string but the empty one. *)
Definition truthy (s : jsstring) : bool :=
  match s with [] => false | _ :: _ => true end.

Definition is_lower (c : N) : bool := ((97 <=? c) && (c <=? 122))%N.
Definition is_upper (c : N) : bool := ((65 <=? c) && (c <=? 90))%N.
Definition is_digit (c : N) : bool := ((48 <=? c) && (c <=? 57))%N.
Definition is_hyphen (c : N) : bool := (c =? 45)%N.
Definition is_ascii (c : N) : bool := (c <? 128)%N.

(** Lower-casing of one ASCII code unit. *)
Definition ascii_lower (c : N) : N := if is_upper c then (c + 32)%N else c.

(** [String.prototype.endsWith] and the removal of a suffix. *)
Definition ends_with (suffix s : jsstring) : bool :=
  bool_decide (drop (length s - length suffix) s = suffix)
  && bool_decide (length suffix ≤ length s).

(** [String.prototype.split] with a regular expression that is a class of
    single characters: the pieces between the separators, empty pieces
    included; the empty string gives one empty piece. *)
Fixpoint split_on (sep : N → bool) (s : jsstring) : list jsstring :=
  match s with
  | [] => [[]]
  | c :: s' =>
      if sep c then [] :: split_on sep s'
      else match split_on sep s' with
           | [] => [[c]]
           | p :: ps => (c :: p) :: ps
           end
  end.

Definition is_slash (c : N) : bool := (c =? 47)%N.

(** The part of a string after its longest prefix in a class, and that
    prefix. *)
Fixpoint drop_while (f : N → bool) (s : jsstring) : jsstring :=
  match s with
  | [] => []
  | c :: s' => if f c then drop_while f s' else s
  end.

Fixpoint take_while (f : N → bool) (s : jsstring) : jsstring :=
  match s with
  | [] => []
  | c :: s' => if f c then c :: take_while f s' else []
  end.

(** Lower-case hexadecimal, as [digest("hex")] prints it. *)
Definition hex_digit (n : N) : N :=
  if (n <? 10)%N then (48 + n)%N else (87 + n)%N.

Fixpoint hex_of_bytes (bs : list Byte.byte) : jsstring :=
  match bs with
  | [] => []
  | b :: bs' =>
      hex_digit (Byte.to_N b / 16) :: hex_digit (Byte.to_N b mod 16)
        :: hex_of_bytes bs'
  end.

(** ** Store identifiers (store-id derivation) *)

Section StoreId.

(** [String.prototype.toLowerCase] on a string with a code unit outside
    ASCII follows the Unicode tables (and works on code points, with a
    context rule for sigma): it is a parameter.  On a string of ASCII code
    units it maps [A-Z] to [a-z], which is written out. *)
Variable unicode_lower : jsstring → jsstring.

Definition toLowerCase (s : jsstring) : jsstring :=
  if forallb is_ascii s then List.map ascii_lower s else unicode_lower s.

(** [url.replace(/\.git$/, ...)] with the empty string: a final [.git] is
    removed. *)
Definition strip_git_suffix (url : jsstring) : jsstring :=
  if ends_with (js ".git") url then take (length url - 4) url else url.

(** The class [[\/:]] of [split]. *)
Definition is_url_sep (c : N) : bool := ((c =? 47) || (c =? 58))%N.

Definition extractRepoInfoFromUrl (url : jsstring) : jsstring :=
  let cleanUrl := strip_git_suffix url in
  let parts := split_on is_url_sep cleanUrl in
  let nonEmptyParts := List.filter truthy parts in
  let n := length nonEmptyParts in
  let owner_repo :=
    if 2 <=? n then
      match nonEmptyParts !! (n - 1), nonEmptyParts !! (n - 2) with
      | Some repo, Some owner =>
          if truthy repo && truthy owner
          then Some (toLowerCase (owner ++ js "-" ++ repo))
          else None
      | _, _ => None
      end
    else None in
  match owner_repo with
  | Some r => r
  | None =>
      (* nonEmptyParts[n - 1]?.toLowerCase() || "unknown-repo" *)
      match (if n =? 0 then None else nonEmptyParts !! (n - 1)) with
      | Some p =>
          let l := toLowerCase p in
          if truthy l then l else js "unknown-repo"
      | None => js "unknown-repo"
      end
  end.

(** The class [[^a-z0-9-]] with the [i] flag and without the [u] flag: a
    code unit outside ASCII is never folded onto an ASCII letter, so the
    class keeps exactly [a-z], [A-Z], [0-9] and the hyphen. *)
Definition store_char_kept (c : N) : bool :=
  is_lower c || is_upper c || is_digit c || is_hyphen c.

Definition sanitizeStoreName (name : jsstring) : jsstring :=
  toLowerCase
    (List.map (λ c, if store_char_kept c then c else 45%N) name).

(** [path.basename] of node (posix, no suffix argument): trailing slashes
    are dropped and the last segment is returned. *)
Definition basename (p : jsstring) : jsstring :=
  rev (take_while (λ c, negb (is_slash c)) (drop_while is_slash (rev p))).

(** What a call of the git accessor gives: it throws, or returns a string
    or [null]. *)
Inductive GitAnswer : Type :=
| GitThrows
| GitNull
| GitString (s : jsstring).

(** The accessor returned by [createGit()] (module [./context]). *)
Record Git : Type := {
  getRepositoryRoot : jsstring → GitAnswer;
  getRemoteUrl : jsstring → GitAnswer
}.

(** [path.resolve] depends on the working directory of the process, and
    SHA-256 is node's: both are parameters.  [sha256] gives the raw
    digest of the UTF-8 encoding of its argument. *)
Variable resolve : jsstring → jsstring.
Variable sha256 : jsstring → list Byte.byte.

Definition getAutoStoreId (git : Git) (targetDir : jsstring) : jsstring :=
  let absolutePath := resolve targetDir in
  let from_remote :=
    (* the body of the try block; [None] when it falls through or throws *)
    match getRepositoryRoot git absolutePath with
    | GitString root =>
        if truthy root then
          match getRemoteUrl git root with
          | GitString remote =>
              if truthy remote
              then Some (sanitizeStoreName (extractRepoInfoFromUrl remote))
              else None
          | GitNull => None
          | GitThrows => None
          end
        else None
    | GitNull => None
    | GitThrows => None
    end in
  match from_remote with
  | Some id => id
  | None =>
      let folderName := basename absolutePath in
      let pathHash := take 8 (hex_of_bytes (sha256 absolutePath)) in
      sanitizeStoreName (folderName ++ js "-" ++ pathHash)
  end.

End StoreId.

(** The alphabet of a sanitized store name: [a-z], [0-9] and the hyphen. *)
Definition store_alphabet (c : N) : bool :=
  is_lower c || is_digit c || is_hyphen c.

(** What [sanitizeStoreName] does to one code unit. *)
Definition sanitize_char (c : N) : N :=
  ascii_lower (if store_char_kept c then c else 45%N).

Ltac unfold_classes :=
  unfold sanitize_char, store_alphabet, store_char_kept, ascii_lower,
    is_lower, is_upper, is_digit, is_hyphen, is_ascii in *.


(** The directory lies in a git repository that has a remote URL: the
    accessor finds a repository root for it and a remote URL for that root,
    neither throwing, and neither [null] nor empty. *)
Definition in_repo_with_remote (git : Git) (absolutePath remote : jsstring)
  : Prop :=
  ∃ root, getRepositoryRoot git absolutePath = GitString root ∧ root ≠ []
          ∧ getRemoteUrl git root = GitString remote ∧ remote ≠ [].

(** A git accessor for a checkout with a remote, one for a directory that
    is in no repository, and a stand-in for the digest. *)
Definition git_with_remote : Git :=
  {| getRepositoryRoot _ := GitString (js "/home/u/proj");
     getRemoteUrl _ := GitString (js "git@github.com:Owner/Repo.git") |}.

Definition git_without_repo : Git :=
  {| getRepositoryRoot _ := GitThrows; getRemoteUrl _ := GitNull |}.

Definition sample_digest (_ : jsstring) : list Byte.byte :=
  [Byte.x12; Byte.x34; Byte.xab; Byte.xcd; Byte.xef; Byte.x01].

(** ** Paths (node's posix [path] module) *)

Definition dot : jsstring := js ".".
Definition dotdot : jsstring := js "..".

(** Segments joined by one slash. *)
Fixpoint intercalate_slash (segs : list jsstring) : jsstring :=
  match segs with
  | [] => []
  | [s] => s
  | s :: rest => s ++ 47%N :: intercalate_slash rest
  end.

(** [normalizeString] of node, on the segments between slashes: empty
    segments and [.] are skipped, [..] removes the segment before it (when
    there is one that is not itself [..]) and is otherwise kept only when
    the path may climb above its start.  [acc] is the result so far, last
    segment first. *)
Fixpoint normalize_segments (allowAboveRoot : bool)
    (acc segs : list jsstring) : list jsstring :=
  match segs with
  | [] => rev acc
  | s :: rest =>
      if bool_decide (s = []) || bool_decide (s = dot) then
        normalize_segments allowAboveRoot acc rest
      else if bool_decide (s = dotdot) then
        match acc with
        | top :: acc' =>
            if bool_decide (top = dotdot) then
              normalize_segments allowAboveRoot
                (if allowAboveRoot then dotdot :: acc else acc) rest
            else normalize_segments allowAboveRoot acc' rest
        | [] =>
            normalize_segments allowAboveRoot
              (if allowAboveRoot then [dotdot] else []) rest
        end
      else normalize_segments allowAboveRoot (s :: acc) rest
  end.

(** [path.normalize] *)
Definition path_normalize (p : jsstring) : jsstring :=
  match p with
  | [] => dot
  | c0 :: _ =>
      let isAbsolute := is_slash c0 in
      let trailingSeparator := is_slash (List.last p 0%N) in
      let res :=
        intercalate_slash
          (normalize_segments (negb isAbsolute) [] (split_on is_slash p)) in
      match res with
      | [] =>
          if isAbsolute then js "/"
          else if trailingSeparator then js "./" else dot
      | _ :: _ =>
          (if isAbsolute then js "/" else [])
            ++ res ++ (if trailingSeparator then js "/" else [])
      end
  end.

(** [path.join]: the non-empty arguments joined by a slash, normalized. *)
Definition path_join (args : list jsstring) : jsstring :=
  match List.filter truthy args with
  | [] => dot
  | parts => path_normalize (intercalate_slash parts)
  end.

Definition no_slash (s : jsstring) : bool :=
  forallb (λ c, negb (is_slash c)) s.



(** ** JavaScript values of the hook scripts *)

(** A number as far as the scripts look at it: an integral value, or
    anything else ([NaN], an infinity, a value with a fraction). *)
Inductive JsNumber : Type :=
| NumInt (z : Z)
| NumOther.

(** Values that [JSON.parse] and property access produce. *)
#[local] Unset Elimination Schemes.
Inductive JsValue : Type :=
| VUndefined
| VNull
| VBool (b : bool)
| VNumber (n : JsNumber)
| VString (s : jsstring)
| VArray (items : list JsValue)
| VObject (fields : list (jsstring * JsValue)).
#[local] Set Elimination Schemes.

Definition value_truthy (v : JsValue) : bool :=
  match v with
  | VUndefined | VNull => false
  | VBool b => b
  | VNumber (NumInt z) => negb (z =? 0)%Z
  | VNumber NumOther => true
  | VString s => truthy s
  | VArray _ | VObject _ => true
  end.

Fixpoint assoc (k : jsstring) (fields : list (jsstring * JsValue))
  : option JsValue :=
  match fields with
  | [] => None
  | (k', v) :: rest => if bool_decide (k = k') then Some v else assoc k rest
  end.

(** [v.key] for one of the keys the scripts read ([cwd], [pid],
    [session_id]): [None] is the [TypeError] of a property read on [null] or
    [undefined]; primitives and arrays have no such property. *)
Definition get_prop (v : JsValue) (key : jsstring) : option JsValue :=
  match v with
  | VUndefined | VNull => None
  | VObject fields =>
      Some (match assoc key fields with Some x => x | None => VUndefined end)
  | _ => Some VUndefined
  end.

(** [v?.key] *)
Definition get_prop_opt (v : JsValue) (key : jsstring) : JsValue :=
  match get_prop v key with Some x => x | None => VUndefined end.

(** The white space that [parseInt] skips. *)
Definition is_js_whitespace (c : N) : bool :=
  ((9 <=? c) && (c <=? 13) || (c =? 32) || (c =? 160) || (c =? 5760)
   || (8192 <=? c) && (c <=? 8202) || (c =? 8232) || (c =? 8233)
   || (c =? 8239) || (c =? 8287) || (c =? 12288) || (c =? 65279))%N.

Definition digits_value (ds : jsstring) : Z :=
  fold_left (λ acc d, 10 * acc + (Z.of_N d - 48))%Z ds 0%Z.

(** [parseInt(s, 10)]: leading white space, an optional sign, then the
    longest run of decimal digits; [NaN] when there is no digit.  The value
    is kept exact: the scripts only test it against the 32-bit range, which
    no rounding to a double can bring a larger value back into. *)
Definition parseInt10 (s : jsstring) : JsNumber :=
  let s1 := drop_while is_js_whitespace s in
  let '(negative, s2) :=
    match s1 with
    | 45%N :: r => (true, r)
    | 43%N :: r => (false, r)
    | _ => (false, s1)
    end in
  match take_while is_digit s2 with
  | [] => NumOther
  | ds => NumInt (if negative then - digits_value ds else digits_value ds)
  end.

(** ** The process table and the file system seen by the hooks *)

Record Proc : Type := {
  proc_pid : Z;
  proc_pgid : Z;
  proc_cmdline : jsstring
}.

Inductive FsNode : Type :=
| RegularFile (content : jsstring)
| Directory.

Record HookWorld : Type := {
  hw_stdin : option jsstring;       (* [None]: reading stdin throws *)
  hw_cwd : jsstring;                (* process.cwd() *)
  hw_tmpdir : jsstring;             (* os.tmpdir() *)
  hw_files : gmap jsstring FsNode;
  hw_procs : list Proc;             (* the running processes, the hook
                                       itself and its children left out *)
  hw_pid : Z;                       (* process id of the hook itself *)
  hw_pgid : Z;                      (* process group of the hook itself *)
  hw_pkill : bool                   (* is there a pkill on the PATH *)
}.

(** What a hook prints: [stop_osgrep.js] prints its SessionEnd response,
    [stop.js] prints nothing. *)
Inductive HookOutput : Type :=
| SessionEndResponse.

(** What a run of a hook script leaves behind. *)
Record HookResult : Type := {
  hr_failed : bool;                 (* ended on an uncaught exception *)
  hr_terminated : bool;             (* ended by a SIGTERM it sent itself *)
  hr_signals : list Z;              (* pids of [hw_procs] sent SIGTERM *)
  hr_files : gmap jsstring FsNode;
  hr_stdout : list HookOutput
}.

(** [fs.existsSync], [fs.readFileSync(p, "utf-8")] and [fs.unlinkSync];
    [None] stands for the exception. *)
Definition existsSync (files : gmap jsstring FsNode) (p : jsstring) : bool :=
  match files !! p with Some _ => true | None => false end.

Definition readFileSync (files : gmap jsstring FsNode) (p : jsstring)
  : option jsstring :=
  match files !! p with
  | Some (RegularFile content) => Some content
  | Some Directory | None => None
  end.

Definition unlinkSync (files : gmap jsstring FsNode) (p : jsstring)
  : option (gmap jsstring FsNode) :=
  match files !! p with
  | Some (RegularFile _) => Some (delete p files)
  | Some Directory | None => None
  end.

(** kill(2) with SIGTERM: the pids of [hw_procs] that receive the signal,
    [None] when the call fails because nothing matches.  A positive [pid]
    names a process, 0 the group of the caller, a value below -1 the group
    [-pid], and -1 every process but the first and the caller.  The caller
    is a process too: its own pid and its own group name it, and then the
    call succeeds even when no process of [hw_procs] matches (process ids
    are unique: a pid found in [hw_procs] is not the caller's).
    Permissions are left out. *)
Definition os_kill (w : HookWorld) (pid : Z) : option (list Z) :=
  let in_group g :=
    List.map proc_pid
      (List.filter (λ p, (proc_pgid p =? g)%Z) (hw_procs w)) in
  if (0 <? pid)%Z then
    if existsb (λ p, (proc_pid p =? pid)%Z) (hw_procs w)
    then Some [pid]
    else if (pid =? hw_pid w)%Z then Some [] else None
  else if (pid =? 0)%Z then Some (in_group (hw_pgid w))
  else if (pid =? -1)%Z then
    Some (List.filter (λ q, negb (q =? 1)%Z) (List.map proc_pid (hw_procs w)))
  else
    match in_group (- pid)%Z with
    | [] => if (- pid =? hw_pgid w)%Z then Some [] else None
    | l => Some l
    end.

(** Does kill(2) with SIGTERM, called by the hook, signal the hook itself.
    Node installs no handler for SIGTERM, so the hook ends there, before
    the call returns. *)
Definition signals_self (w : HookWorld) (pid : Z) : bool :=
  if (0 <? pid)%Z then
    (pid =? hw_pid w)%Z
    && negb (existsb (λ p, (proc_pid p =? pid)%Z) (hw_procs w))
  else if (pid =? 0)%Z then true
  else if (pid =? -1)%Z then false
  else (- pid =? hw_pgid w)%Z.

(** [process.kill(pid, "SIGTERM")]: a [pid] that is not a 32-bit integer is
    refused with a [TypeError] before any system call. *)
Definition process_kill (w : HookWorld) (pid : JsNumber)
  : option (list Z) :=
  match pid with
  | NumInt z =>
      if ((-2147483648 <=? z) && (z <=? 2147483647))%Z
      then os_kill w z else None
  | NumOther => None
  end.

(** Does [process.kill(pid, "SIGTERM")] end the hook that calls it. *)
Definition process_kill_self (w : HookWorld) (pid : JsNumber) : bool :=
  match pid with
  | NumInt z =>
      ((-2147483648 <=? z) && (z <=? 2147483647))%Z && signals_self w z
  | NumOther => false
  end.

(** [String.prototype.startsWith], and whether [needle] occurs in [hay]. *)
Fixpoint is_prefix (a b : jsstring) : bool :=
  match a, b with
  | [], _ => true
  | x :: a', y :: b' => (x =? y)%N && is_prefix a' b'
  | _ :: _, [] => false
  end.

Fixpoint contains (needle hay : jsstring) : bool :=
  is_prefix needle hay
  || match hay with
     | [] => false
     | _ :: hay' => contains needle hay'
     end.

(** [pkill -f "osgrep serve"]: SIGTERM to every process whose command line
    matches. *)
Definition pkill_targets (w : HookWorld) : list Z :=
  if hw_pkill w then
    List.map proc_pid
      (List.filter (λ p, contains (js "osgrep serve") (proc_cmdline p))
         (hw_procs w))
  else [].

(** ** The stop hooks *)

Section StopHooks.

(** [JSON.parse] is node's; [None] is its [SyntaxError]. *)
Variable JSON_parse : jsstring → option JsValue.

(** The string a template literal makes of a value that is not already a
    string. *)
Variable to_string_other : JsValue → jsstring.

Definition to_string (v : JsValue) : jsstring :=
  match v with
  | VString s => s
  | _ => to_string_other v
  end.

(** *** plugins/osgrep/hooks/stop.js *)

Definition readPayload (w : HookWorld) : JsValue :=
  match hw_stdin w with
  | Some raw =>
      if truthy raw then
        match JSON_parse raw with
        | Some v => v
        | None => VObject []
        end
      else VObject []
  | None => VObject []
  end.

Definition killPid (w : HookWorld) (pid : JsNumber) : bool * list Z :=
  match process_kill w pid with
  | Some signalled => (true, signalled)
  | None => (false, [])
  end.

(** The first three statements of [main]: the path of the lock file, or
    [None] when one of them throws (a property read on [null], or
    [path.join] given something that is not a string). *)
Definition stop_lock_path (w : HookWorld) : option jsstring :=
  let payload := readPayload w in
  match get_prop payload (js "cwd") with
  | None => None
  | Some c =>
      let cwd := if value_truthy c then c else VString (hw_cwd w) in
      match cwd with
      | VString dir => Some (path_join [dir; js ".osgrep"; js "server.json"])
      | _ => None
      end
  end.

(** [main].  When [killPid] signals the hook itself, the hook ends inside
    [process.kill]: the lock file is not removed and pkill is not run. *)
Definition stop_main (w : HookWorld) : HookResult :=
  match stop_lock_path w with
  | None =>
      {| hr_failed := true; hr_terminated := false; hr_signals := [];
         hr_files := hw_files w; hr_stdout := [] |}
  | Some lockPath =>
      let '(killed, signalled, self) :=
        if existsSync (hw_files w) lockPath then
          match readFileSync (hw_files w) lockPath with
          | Some text =>
              match JSON_parse text with
              | Some data =>
                  match get_prop_opt data (js "pid") with
                  | VNumber pid => (killPid w pid, process_kill_self w pid)
                  | _ => (false, [], false)
                  end
              | None => (false, [], false)
              end
          | None => (false, [], false)
          end
        else (false, [], false) in
      if self then
        {| hr_failed := false; hr_terminated := true;
           hr_signals := signalled; hr_files := hw_files w;
           hr_stdout := [] |}
      else
        let files :=
          if existsSync (hw_files w) lockPath then
            match unlinkSync (hw_files w) lockPath with
            | Some files' => files'
            | None => hw_files w
            end
          else hw_files w in
        let fallback := if killed then [] else pkill_targets w in
        {| hr_failed := false; hr_terminated := false;
           hr_signals := signalled ++ fallback;
           hr_files := files; hr_stdout := [] |}
  end.

(** The process id that the lock file of [stop.js] records, when the file
    is there, parses, and has a number under [pid]. *)
Definition lock_pid (files : gmap jsstring FsNode) (lockPath : jsstring)
  : option JsNumber :=
  match readFileSync files lockPath with
  | Some text =>
      match JSON_parse text with
      | Some data =>
          match get_prop_opt data (js "pid") with
          | VNumber pid => Some pid
          | _ => None
          end
      | None => None
      end
  | None => None
  end.

(** *** stop_osgrep.js (the SessionEnd hook) *)

(** The pid file of the session named on stdin, when the script gets as
    far as naming one. *)
Definition session_pid_file (w : HookWorld) : option jsstring :=
  match hw_stdin w with
  | Some input =>
      match JSON_parse input with
      | Some hookData =>
          match get_prop hookData (js "session_id") with
          | Some sid =>
              if value_truthy sid then
                Some (path_join
                        [hw_tmpdir w;
                         js "osgrep-watch-" ++ to_string sid ++ js ".pid"])
              else None
          | None => None
          end
      | None => None
      end
  | None => None
  end.

(** The body of the outer [try]: what was signalled and what the files
    are when it ends, by completion or by an exception, and whether the
    hook signalled itself, which ends it inside [process.kill], before the
    pid file is removed. *)
Definition stop_osgrep_cleanup (w : HookWorld)
  : list Z * gmap jsstring FsNode * bool :=
  match session_pid_file w with
  | Some pidFile =>
      if existsSync (hw_files w) pidFile then
        match readFileSync (hw_files w) pidFile with
        | Some text =>
            let pid := parseInt10 text in
            let signalled :=
              match process_kill w pid with
              | Some l => l
              | None => []
              end in
            if process_kill_self w pid then (signalled, hw_files w, true)
            else
              match unlinkSync (hw_files w) pidFile with
              | Some files' => (signalled, files', false)
              | None => (signalled, hw_files w, false)
              end
        | None => ([], hw_files w, false)
        end
      else ([], hw_files w, false)
  | None => ([], hw_files w, false)
  end.

(** The script: the cleanup, then the response; a hook that signalled
    itself prints nothing. *)
Definition stop_osgrep (w : HookWorld) : HookResult :=
  let '(signalled, files, self) := stop_osgrep_cleanup w in
  {| hr_failed := false; hr_terminated := self; hr_signals := signalled;
     hr_files := files;
     hr_stdout := if self then [] else [SessionEndResponse] |}.

End StopHooks.

(** The content of the pid file that [stop_osgrep.js] would read. *)
Definition session_pid_text (JSON_parse : jsstring → option JsValue)
    (to_string_other : JsValue → jsstring) (w : HookWorld)
  : option jsstring :=
  match session_pid_file JSON_parse to_string_other w with
  | Some pidFile => readFileSync (hw_files w) pidFile
  | None => None
  end.

(** A run of [stop.js] in a directory without lock file while an
    [osgrep serve] process is running. *)
Definition parse_empty_object (_ : jsstring) : option JsValue :=
  Some (VObject []).

Definition serving_world : HookWorld :=
  {| hw_stdin := Some (js "{}"); hw_cwd := js "/w"; hw_tmpdir := js "/tmp";
     hw_files := ∅;
     hw_procs := [ {| proc_pid := 4242; proc_pgid := 4242;
                      proc_cmdline := js "node /usr/bin/osgrep serve" |} ];
     hw_pid := 7001; hw_pgid := 77; hw_pkill := true |}.

(** A session whose pid file holds text that is no number. *)
Definition parse_session (_ : jsstring) : option JsValue :=
  Some (VObject [(js "session_id", VString (js "s1"))]).


(** ** The store and the file system, as the sync engine sees them *)

(** Modelled from the spec: the types of [src/lib/store] are not among the
    sources.  An entry of the remote listing: the external identifier of a
    document and the content fingerprint kept in its metadata. *)
Record StoreFile : Type := {
  file_external_id : jsstring;
  file_hash : jsstring
}.

(** Modelled from the spec: the type is declared in [src/lib/store], which
    is not among the sources.  The options of an index call: the external
    identifier, and in the metadata the path of the file the content was
    read from and the fingerprint of that content. *)
Record IndexFileOptions : Type := {
  external_id : jsstring;
  metadata_path : jsstring;
  metadata_hash : jsstring
}.

(** Modelled from the spec: the interface [Store] is declared in
    [src/lib/store], which is not among the sources; its operations are
    those the fake store of the tests implements and the [watch] command
    calls (the specification names them getCollection, createCollection,
    listDocuments, indexDocument, deleteDocument, materializeTextIndex and
    materializeVectorIndex).  A promise that rejects is [None], or [false]
    next to the state the call leaves. *)
Class Store (St : Type) : Type := {
  retrieve : St → jsstring → bool;
  create : St → jsstring → St * bool;
  listFiles : St → jsstring → option (list StoreFile);
  indexFile : St → jsstring → jsstring → IndexFileOptions → St * bool;
  deleteFile : St → jsstring → jsstring → St * bool;
  createFTSIndex : St → jsstring → St * bool;
  createVectorIndex : St → jsstring → St * bool
}.

(** The remote calls of a run, in the order they are issued. *)
Inductive StoreCall : Type :=
| CallRetrieve (storeId : jsstring)
| CallCreate (storeId : jsstring)
| CallListFiles (storeId : jsstring)
| CallIndexFile (storeId content : jsstring) (options : IndexFileOptions)
| CallDeleteFile (storeId externalId : jsstring)
| CallCreateFTSIndex (storeId : jsstring)
| CallCreateVectorIndex (storeId : jsstring).

Definition is_index_call (c : StoreCall) : bool :=
  match c with CallIndexFile _ _ _ => true | _ => false end.

Definition is_delete_call (c : StoreCall) : bool :=
  match c with CallDeleteFile _ _ => true | _ => false end.

Definition is_materialize_call (c : StoreCall) : bool :=
  match c with
  | CallCreateFTSIndex _ | CallCreateVectorIndex _ => true
  | _ => false
  end.

(** Is [c] an index call for the file at [path]. *)
Definition indexes_path (path : jsstring) (c : StoreCall) : bool :=
  match c with
  | CallIndexFile _ _ options => bool_decide (metadata_path options = path)
  | _ => false
  end.

(** *** The test doubles of the sync tests *)

Record FakeStore : Type := {
  fake_indexed : list (jsstring * jsstring);   (* storeId, externalId *)
  fake_deleted : list jsstring;
  ftsCount : nat;
  vecCount : nat
}.

Definition new_FakeStore : FakeStore :=
  {| fake_indexed := []; fake_deleted := []; ftsCount := 0; vecCount := 0 |}.

(** [retrieve] and [create] of the fake throw "not implemented". *)
#[export] Instance FakeStore_Store : Store FakeStore := {
  retrieve _ _ := false;
  create s _ := (s, false);
  listFiles _ _ := Some [];
  indexFile s storeId _ options :=
    ({| fake_indexed := fake_indexed s ++ [(storeId, external_id options)];
        fake_deleted := fake_deleted s;
        ftsCount := ftsCount s; vecCount := vecCount s |}, true);
  deleteFile s _ externalId :=
    ({| fake_indexed := fake_indexed s;
        fake_deleted := fake_deleted s ++ [externalId];
        ftsCount := ftsCount s; vecCount := vecCount s |}, true);
  createFTSIndex s _ :=
    ({| fake_indexed := fake_indexed s; fake_deleted := fake_deleted s;
        ftsCount := ftsCount s + 1; vecCount := vecCount s |}, true);
  createVectorIndex s _ :=
    ({| fake_indexed := fake_indexed s; fake_deleted := fake_deleted s;
        ftsCount := ftsCount s; vecCount := vecCount s + 1 |}, true)
}.

(** Modelled from the spec: the interface [FileSystem] is declared in
    [src/lib/file], which is not among the sources; it is the walker and
    the ignore classifier, as the stub of the tests implements them
    ([loadOsgrepignore] has no result and is left out). *)
Record FileSystem : Type := {
  getFiles : jsstring → list jsstring;
  isIgnored : jsstring → bool
}.

Definition StubFileSystem (files ignored : list jsstring) : FileSystem :=
  {| getFiles _ := files;
     isIgnored filePath := bool_decide (filePath ∈ ignored) |}.

(** *** A remote collection *)

(** Modelled from the spec: the remote store service is not part of the
    repository.  A collection keeps one document per external identifier;
    indexing under an identifier that is present replaces the document,
    deleting an absent identifier is not an error.  A call may fail:
    [remote_rejects] tells for which identifiers an index call is refused,
    [remote_unreachable] makes the listing fail. *)
Record Remote : Type := {
  remote_docs : gmap jsstring jsstring;    (* external id to fingerprint *)
  remote_rejects : jsstring → bool;
  remote_unreachable : bool
}.

Definition remote_listing (docs : gmap jsstring jsstring) : list StoreFile :=
  List.map (λ kv, {| file_external_id := kv.1; file_hash := kv.2 |})
    (map_to_list docs).

Definition remote_with_docs (r : Remote) (docs : gmap jsstring jsstring)
  : Remote :=
  {| remote_docs := docs; remote_rejects := remote_rejects r;
     remote_unreachable := remote_unreachable r |}.

#[export] Instance Remote_Store : Store Remote := {
  retrieve r _ := negb (remote_unreachable r);
  create r _ := (r, negb (remote_unreachable r));
  listFiles r _ :=
    if remote_unreachable r then None
    else Some (remote_listing (remote_docs r));
  indexFile r _ _ options :=
    if remote_rejects r (external_id options) then (r, false)
    else (remote_with_docs r
            (<[external_id options := metadata_hash options]>
               (remote_docs r)), true);
  deleteFile r _ externalId :=
    (remote_with_docs r (delete externalId (remote_docs r)), true);
  createFTSIndex r _ := (r, true);
  createVectorIndex r _ := (r, true)
}.

(** ** The per-file upload and the initial sync pass *)

(** Modelled from the spec: the derivation of the external identifier
    lives in [./utils], which is not among the sources.  The identifier is
    the path of the file relative to the sync root, as a string: what is
    left of the path after the root and its separator.  (A path that does
    not lie under the root is left as it is.) *)
Definition root_prefix (root : jsstring) : jsstring :=
  if bool_decide (root = js "/") then root else root ++ js "/".

(** Modelled from the spec: does the path lie under the sync root. *)
Definition under_root (root p : jsstring) : bool :=
  is_prefix (root_prefix root) p.

(** Modelled from the spec: the root-relative path, which is the external
    identifier of the file. *)
Definition path_relative (root p : jsstring) : jsstring :=
  if under_root root p then drop (length (root_prefix root)) p else p.

(** Modelled from the spec: the counters a pass returns; [indexed] is the
    number of files uploaded (the tests read [indexed], the [watch] command
    reads [uploaded]). *)
Record SyncResult : Type := {
  total : nat;
  processed : nat;
  indexed : nat
}.

Section Sync.

Context {St : Type} `{Store St}.

(** The content fingerprint (a hash of the bytes of the file). *)
Variable fingerprint : jsstring → jsstring.

(** Modelled from the spec: [uploadFile] is defined in [./utils], which
    is not among the sources.  It makes the remote state match the local
    state for one file: the file is read and one index call carries its
    content under the external identifier [fileName], the root-relative
    path.  The promise rejects when the file cannot be read or the store
    refuses the call. *)
Definition uploadFile (disk : gmap jsstring FsNode) (store : St)
    (storeId filePath fileName : jsstring)
  : St * list StoreCall * bool :=
  match readFileSync disk filePath with
  | Some content =>
      let options :=
        {| external_id := fileName; metadata_path := filePath;
           metadata_hash := fingerprint content |} in
      let '(store', ok) := indexFile store storeId content options in
      (store', [CallIndexFile storeId content options], ok)
  | None => (store, [], false)
  end.

(** Modelled from the spec: the fingerprint the listing has for an
    identifier. *)
Definition remote_hash (listing : list StoreFile) (id : jsstring)
  : option jsstring :=
  match List.find (λ f, bool_decide (file_external_id f = id)) listing with
  | Some f => Some (file_hash f)
  | None => None
  end.

(** Modelled from the spec: step 3 for one candidate.  It is skipped when
    the identifier is listed with the fingerprint of the local content
    (and no full re-index is forced), uploaded otherwise; a failed upload
    is not counted and does not end the pass; a file that cannot be read
    is skipped. *)
Definition sync_file (disk : gmap jsstring FsNode)
    (storeId root : jsstring) (forceFullReindex : bool)
    (listing : list StoreFile)
    (acc : St * list StoreCall * nat) (filePath : jsstring)
  : St * list StoreCall * nat :=
  let '(store, calls, uploaded) := acc in
  let id := path_relative root filePath in
  match readFileSync disk filePath with
  | Some content =>
      if negb forceFullReindex
         && bool_decide (remote_hash listing id = Some (fingerprint content))
      then acc
      else
        let '(store', calls', ok) :=
          uploadFile disk store storeId filePath id in
        (store', calls ++ calls', if ok then S uploaded else uploaded)
  | None => acc
  end.

(** Modelled from the spec: step 4, the listed identifiers without a local
    file, each once. *)
Definition stale_ids (listing : list StoreFile) (localIds : list jsstring)
  : list jsstring :=
  remove_dups
    (List.filter (λ id, negb (bool_decide (id ∈ localIds)))
       (List.map file_external_id listing)).

(** Modelled from the spec: the delete call for one stale identifier. *)
Definition delete_stale (storeId : jsstring)
    (acc : St * list StoreCall * nat) (id : jsstring)
  : St * list StoreCall * nat :=
  let '(store, calls, deleted) := acc in
  let '(store', ok) := deleteFile store storeId id in
  (store', calls ++ [CallDeleteFile storeId id],
   if ok then S deleted else deleted).

(** Modelled from the spec: [initialSync] is defined in [./utils], which
    is not among the sources; this follows the six steps of the
    specification of the Initial Sync Engine, in the argument order of
    the tests.  Uploads and deletes are issued one after the other: the
    bound on calls in flight and their interleaving are not modelled.
    The result is [None] when the pass fails as a whole. *)
Definition initialSync (disk : gmap jsstring FsNode) (store : St)
    (fileSystem : FileSystem) (storeId repoRoot : jsstring)
    (forceFullReindex : bool)
  : St * list StoreCall * option SyncResult :=
  match listFiles store storeId with
  | None => (store, [CallListFiles storeId], None)
  | Some listing =>
      let candidates :=
        List.filter (λ p, negb (isIgnored fileSystem p))
          (getFiles fileSystem repoRoot) in
      let '(store1, calls1, uploaded) :=
        fold_left
          (sync_file disk storeId repoRoot forceFullReindex listing)
          candidates (store, [], 0) in
      let localIds := List.map (path_relative repoRoot) candidates in
      let '(store2, calls2, deleted) :=
        fold_left (delete_stale storeId) (stale_ids listing localIds)
          (store1, [], 0) in
      let result :=
        {| total := length candidates; processed := length candidates;
           indexed := uploaded |} in
      let calls := CallListFiles storeId :: calls1 ++ calls2 in
      if 0 <? uploaded + deleted then
        let '(store3, ok) := createFTSIndex store2 storeId in
        if ok then
          let '(store4, ok') := createVectorIndex store3 storeId in
          (store4,
           calls ++ [CallCreateFTSIndex storeId;
                     CallCreateVectorIndex storeId],
           if ok' then Some result else None)
        else (store3, calls ++ [CallCreateFTSIndex storeId], None)
      else (store2, calls, Some result)
  end.

End Sync.

(** ** The watcher (the [watch] command of src/index.ts) *)

(** A notification of [fs.watch], with the surroundings it is handled in:
    the file name after [rawFilename?.toString()] ([None] for [null] and
    [undefined]), the disk at that moment, and what [isIgnoredByGit] (from
    [./utils], re-evaluated at each event) answers at that moment. *)
Record WatchEvent : Type := {
  ev_type : jsstring;
  ev_filename : option jsstring;
  ev_disk : gmap jsstring FsNode;
  ev_ignored : jsstring → jsstring → bool
}.

(** What the callback does besides its remote calls. *)
Inductive WatchEffect : Type :=
| ConsoleLog (eventType filePath : jsstring)
| StatSync (filePath : jsstring)
| IsIgnoredByGit (filePath repoRoot : jsstring)
| UploadFile (storeId filePath fileName : jsstring)
| ConsoleError (filePath : jsstring).

(** [fs.statSync(p).isFile()]; [None] when [statSync] throws. *)
Definition statSync_isFile (disk : gmap jsstring FsNode) (p : jsstring)
  : option bool :=
  match disk !! p with
  | Some (RegularFile _) => Some true
  | Some Directory => Some false
  | None => None
  end.

Record CallbackResult (St : Type) : Type := {
  cb_store : St;
  cb_effects : list WatchEffect;
  cb_calls : list StoreCall;
  cb_upload : option bool;   (* how the upload settled, if one was started *)
  cb_threw : bool;           (* an exception left the callback *)
  cb_unhandled : bool        (* a rejected promise was left unhandled *)
}.
Arguments cb_store {St}.
Arguments cb_effects {St}.
Arguments cb_calls {St}.
Arguments cb_upload {St}.
Arguments cb_threw {St}.
Arguments cb_unhandled {St}.

Record WatchState (St : Type) : Type := {
  ws_store : St;
  ws_effects : list WatchEffect;
  ws_calls : list StoreCall;
  ws_watching : bool         (* the process is alive and watching *)
}.
Arguments ws_store {St}.
Arguments ws_effects {St}.
Arguments ws_calls {St}.
Arguments ws_watching {St}.

Section Watch.

Context {St : Type} `{Store St}.
Variable fingerprint : jsstring → jsstring.

Definition callback_returns (store : St) (effects : list WatchEffect)
  : CallbackResult St :=
  {| cb_store := store; cb_effects := effects; cb_calls := [];
     cb_upload := None; cb_threw := false; cb_unhandled := false |}.

(** The callback given to [fs.watch]. *)
Definition watch_callback (store : St) (storeId watchRoot : jsstring)
    (ev : WatchEvent) : CallbackResult St :=
  match ev_filename ev with
  | None => callback_returns store []
  | Some filename =>
      if negb (truthy filename) then callback_returns store []
      else
        let filePath := path_join [watchRoot; filename] in
        let log := ConsoleLog (ev_type ev) filePath in
        match statSync_isFile (ev_disk ev) filePath with
        | None => callback_returns store [log; StatSync filePath]
        | Some false => callback_returns store [log; StatSync filePath]
        | Some true =>
            if ev_ignored ev filePath watchRoot then
              callback_returns store
                [log; StatSync filePath; IsIgnoredByGit filePath watchRoot]
            else
              let '(store', calls, ok) :=
                uploadFile fingerprint (ev_disk ev) store storeId
                  filePath filename in
              (* .catch(...): a rejection is logged, none is left over *)
              {| cb_store := store';
                 cb_effects :=
                   [log; StatSync filePath;
                    IsIgnoredByGit filePath watchRoot;
                    UploadFile storeId filePath filename]
                   ++ (if ok then [] else [ConsoleError filePath]);
                 cb_calls := calls;
                 cb_upload := Some ok;
                 cb_threw := false;
                 cb_unhandled := false |}
        end
  end.

(** One notification handled by a live watcher. *)
Definition handle_event (storeId watchRoot : jsstring)
    (st : WatchState St) (ev : WatchEvent) : WatchState St :=
  let r := watch_callback (ws_store st) storeId watchRoot ev in
  {| ws_store := cb_store r;
     ws_effects := ws_effects st ++ cb_effects r;
     ws_calls := ws_calls st ++ cb_calls r;
     ws_watching := negb (cb_threw r || cb_unhandled r) |}.

(** The notifications in the order they arrive; an exception that leaves
    the callback, or a rejection nobody handles, ends the process, and
    what arrives after that is lost.  An upload settles before the next
    notification is handled: uploads in flight at the same time are not
    modelled. *)
Fixpoint watch_loop (storeId watchRoot : jsstring)
    (st : WatchState St) (events : list WatchEvent) : WatchState St :=
  match events with
  | [] => st
  | ev :: rest =>
      if ws_watching st
      then watch_loop storeId watchRoot
             (handle_event storeId watchRoot st ev) rest
      else st
  end.

(** The action of the [watch] command: the store is retrieved, or
    created when that fails; the initial sync runs (without forcing a
    full re-index); then the watcher handles the notifications.  When the
    store cannot be had or the sync fails, nothing is watched. *)
Definition watch_action (disk : gmap jsstring FsNode)
    (fileSystem : FileSystem) (store : St) (storeId watchRoot : jsstring)
    (events : list WatchEvent) : WatchState St :=
  let '(store1, calls0, ready) :=
    if retrieve store storeId then (store, [CallRetrieve storeId], true)
    else
      let '(store', ok) := create store storeId in
      (store', [CallRetrieve storeId; CallCreate storeId], ok) in
  if ready then
    match initialSync fingerprint disk store1 fileSystem storeId watchRoot
            false with
    | (store2, calls1, Some _) =>
        watch_loop storeId watchRoot
          {| ws_store := store2; ws_effects := [];
             ws_calls := calls0 ++ calls1; ws_watching := true |}
          events
    | (store2, calls1, None) =>
        {| ws_store := store2; ws_effects := [];
           ws_calls := calls0 ++ calls1; ws_watching := false |}
    end
  else
    {| ws_store := store1; ws_effects := []; ws_calls := calls0;
       ws_watching := false |}.

End Watch.

(** ** Concrete runs used as examples *)

(** The two cases of the sync tests: an empty repository, and a repository
    whose only file is ignored. *)
Definition plain_fingerprint (content : jsstring) : jsstring := content.

Definition tempRoot : jsstring := js "/tmp/osgrep-sync-x".
Definition ignoredFile : jsstring := path_join [tempRoot; js "ignored.ts"].

Definition ignored_disk : gmap jsstring FsNode :=
  {[ ignoredFile := RegularFile (js "content") ]}.

(** A watched directory with one source file and one ignored build
    product. *)
Definition watchRoot : jsstring := js "/home/u/proj".

Definition proj_disk : gmap jsstring FsNode :=
  {[ js "/home/u/proj/a.ts" := RegularFile (js "let a = 1");
     js "/home/u/proj/dist/bundle.js" := RegularFile (js "bundle");
     js "/home/u/proj/src" := Directory ]}.

Definition proj_ignored (filePath _ : jsstring) : bool :=
  is_prefix (js "/home/u/proj/dist/") filePath.

Definition proj_fs : FileSystem :=
  {| getFiles _ := [js "/home/u/proj/a.ts"; js "/home/u/proj/dist/bundle.js"];
     isIgnored p := proj_ignored p watchRoot |}.

Definition event_on (filename : option jsstring) : WatchEvent :=
  {| ev_type := js "change"; ev_filename := filename;
     ev_disk := proj_disk; ev_ignored := proj_ignored |}.

Definition empty_remote : Remote :=
  {| remote_docs := ∅; remote_rejects := λ _, false;
     remote_unreachable := false |}.


(** ** Notions used to state facts about a pass *)

(** An index call of a pass over [candidates]: it is for one of these
    files, carries the content read from it, and names it by its
    root-relative path. *)
Definition sync_index_call (fingerprint : jsstring → jsstring)
    (disk : gmap jsstring FsNode) (storeId root : jsstring)
    (candidates : list jsstring) (c : StoreCall) : Prop :=
  ∃ p content,
    In p candidates ∧ readFileSync disk p = Some content
    ∧ c = CallIndexFile storeId content
            {| external_id := path_relative root p; metadata_path := p;
               metadata_hash := fingerprint content |}.


(** What holds of a remote collection [r] while a pass that started from
    [r0] has evaluated the files [done]: each readable one is held under
    its identifier with its fingerprint, and the identifiers of no such
    file are as they were. *)
Definition walked (fingerprint : jsstring → jsstring)
    (disk : gmap jsstring FsNode) (root : jsstring)
    (done : list jsstring) (r0 r : Remote) : Prop :=
  remote_rejects r = remote_rejects r0
  ∧ remote_unreachable r = remote_unreachable r0
  ∧ (∀ q content,
       In q done → readFileSync disk q = Some content →
       remote_docs r !! path_relative root q = Some (fingerprint content))
  ∧ (∀ id, (∀ q, In q done → path_relative root q ≠ id) →
           remote_docs r !! id = remote_docs r0 !! id).

(** A collection that still holds a document for a file that is gone. *)
Definition stale_remote : Remote :=
  {| remote_docs := {[ js "old/file.ts" := js "old content" ]};
     remote_rejects := λ _, false; remote_unreachable := false |}.


(** ** Notions used to state further facts about store identifiers *)

(** A part of a URL as [extractRepoInfoFromUrl] cuts it: not empty and
    without [/] or [:]. *)
Definition url_part (s : jsstring) : Prop :=
  s ≠ [] ∧ forallb (λ c, negb (is_url_sep c)) s = true.

(** A code unit that may occur in a repository name taken from an ASCII
    URL: ASCII, not a separator of the URL, and not an upper-case letter. *)
Definition repo_name_char (c : N) : bool :=
  is_ascii c && negb (is_url_sep c) && negb (is_upper c).

(** ** Notions used to state further facts about the watcher *)

(** The three guards of the callback: the notification names a file, the
    path it resolves to is a regular file on the disk, and the path is not
    ignored. *)
Definition passes_guards (watchRoot : jsstring) (ev : WatchEvent) : bool :=
  match ev_filename ev with
  | Some filename =>
      truthy filename
      && match statSync_isFile (ev_disk ev)
                 (path_join [watchRoot; filename]) with
         | Some true =>
             negb (ev_ignored ev (path_join [watchRoot; filename]) watchRoot)
         | _ => false
         end
  | None => false
  end.

(** The upload a notification starts, if it starts one. *)
Definition upload_started (storeId watchRoot : jsstring) (ev : WatchEvent)
  : list WatchEffect :=
  match ev_filename ev with
  | Some filename =>
      if passes_guards watchRoot ev
      then [UploadFile storeId (path_join [watchRoot; filename]) filename]
      else []
  | None => []
  end.

Definition is_upload_effect (e : WatchEffect) : bool :=
  match e with UploadFile _ _ _ => true | _ => false end.

(** A store that can be neither retrieved nor created. *)
Definition missing_remote : Remote :=
  {| remote_docs := ∅; remote_rejects := λ _, false;
     remote_unreachable := true |}.

(** ** The start hooks *)

(** [Number.prototype.toString()] for an integer below 10^21 in absolute
    value (a process id is far below): its decimal digits, most significant
    first, after a minus sign when it is negative.  [fuel] bounds the number
    of digits. *)
Fixpoint decimal_digits (fuel : nat) (n : N) (acc : jsstring) : jsstring :=
  match fuel with
  | 0 => acc
  | S fuel' =>
      let acc' := (48 + n mod 10)%N :: acc in
      if (n <? 10)%N then acc' else decimal_digits fuel' (n / 10) acc'
  end.

Definition decimal (n : N) : jsstring :=
  decimal_digits (S (N.to_nat (N.log2 n))) n [].

Definition number_to_string (z : Z) : jsstring :=
  if (z <? 0)%Z then 45%N :: decimal (Z.to_N (- z)) else decimal (Z.to_N z).

(** What [child_process.spawn] does with a command: the child runs, or the
    call throws, or it returns a child without process id and the failure
    arrives later as an [error] event, which nobody listens to in the
    hooks and so ends the process. *)
Inductive SpawnOutcome : Type :=
| Spawned (pid : Z)
| SpawnThrows
| SpawnErrorLater.

(** The surroundings of a start hook besides [HookWorld]: what spawning a
    command line in a directory gives, and which paths can be written. *)
Record StartEnv : Type := {
  spawn : jsstring → jsstring → SpawnOutcome;
  can_write : jsstring → bool
}.

(** The responses of the start hooks: [start_osgrep.js] says that osgrep is
    active, or that it failed to start; [start.js] says that the server was
    started. *)
Inductive StartOutput : Type :=
| WatchActiveResponse
| StartFailedResponse
| ServeStartedResponse.

Record StartResult : Type := {
  sr_failed : bool;                        (* ended on an uncaught error *)
  sr_spawned : list (jsstring * jsstring * Z);   (* command, cwd, pid *)
  sr_files : gmap jsstring FsNode;
  sr_stdout : list StartOutput
}.

(** [fs.writeFileSync(p, text)] and [fs.openSync(p, "a")]; [None] stands
    for the exception. *)
Definition writeFileSync (env : StartEnv) (files : gmap jsstring FsNode)
    (p text : jsstring) : option (gmap jsstring FsNode) :=
  match files !! p with
  | Some Directory => None
  | _ => if can_write env p then Some (<[p := RegularFile text]> files)
         else None
  end.

Definition openSync_append (env : StartEnv) (files : gmap jsstring FsNode)
    (p : jsstring) : option (gmap jsstring FsNode) :=
  match files !! p with
  | Some Directory => None
  | Some (RegularFile _) => if can_write env p then Some files else None
  | None =>
      if can_write env p then Some (<[p := RegularFile []]> files) else None
  end.

Section StartHooks.

Variable JSON_parse : jsstring → option JsValue.
Variable to_string_other : JsValue → jsstring.
Variable env : StartEnv.

(** *** start_osgrep.js (the SessionStart hook that starts the watcher) *)

(** The body of the [try] up to the call of [spawn]: the directory the
    watcher is to run in, or [None] when a statement throws. *)
Definition start_osgrep_cwd (w : HookWorld) : option (JsValue * jsstring) :=
  match hw_stdin w with
  | Some input =>
      match JSON_parse input with
      | Some hookData =>
          match get_prop hookData (js "cwd") with
          | Some c =>
              match (if value_truthy c then c else VString (hw_cwd w)) with
              | VString dir => Some (hookData, dir)
              | _ => None          (* spawn refuses a cwd that is no string *)
              end
          | None => None
          end
      | None => None
      end
  | None => None
  end.

Definition start_osgrep (w : HookWorld) : StartResult :=
  let caught spawned :=
    {| sr_failed := false; sr_spawned := spawned; sr_files := hw_files w;
       sr_stdout := [StartFailedResponse] |} in
  match start_osgrep_cwd w with
  | None => caught []
  | Some (hookData, dir) =>
      match spawn env (js "osgrep watch") dir with
      | SpawnThrows => caught []
      | outcome =>
          let spawned :=
            match outcome with
            | Spawned pid => [(js "osgrep watch", dir, pid)]
            | _ => []
            end in
          let later_error :=
            match outcome with SpawnErrorLater => true | _ => false end in
          if value_truthy (get_prop_opt hookData (js "session_id")) then
            let pidFile :=
              path_join
                [hw_tmpdir w;
                 js "osgrep-watch-"
                   ++ to_string to_string_other
                        (get_prop_opt hookData (js "session_id"))
                   ++ js ".pid"] in
            match outcome with
            | Spawned pid =>
                match writeFileSync env (hw_files w) pidFile
                        (number_to_string pid) with
                | Some files' =>
                    {| sr_failed := false; sr_spawned := spawned;
                       sr_files := files';
                       sr_stdout := [WatchActiveResponse] |}
                | None => caught spawned
                end
            | _ =>
                (* watcher.pid is undefined: toString throws *)
                {| sr_failed := later_error; sr_spawned := spawned;
                   sr_files := hw_files w;
                   sr_stdout := [StartFailedResponse] |}
            end
          else
            {| sr_failed := later_error; sr_spawned := spawned;
               sr_files := hw_files w;
               sr_stdout := [WatchActiveResponse] |}
      end
  end.

(** *** plugins/osgrep/hooks/start.js *)

Definition log_path : jsstring := js "/tmp/osgrep.log".

Definition start_main (w : HookWorld) : StartResult :=
  let uncaught files :=
    {| sr_failed := true; sr_spawned := []; sr_files := files;
       sr_stdout := [] |} in
  let payload := readPayload JSON_parse w in
  match get_prop payload (js "cwd") with
  | None => uncaught (hw_files w)
  | Some c =>
      let cwd := if value_truthy c then c else VString (hw_cwd w) in
      match openSync_append env (hw_files w) log_path with
      | None => uncaught (hw_files w)
      | Some files =>
          match cwd with
          | VString dir =>
              match spawn env (js "osgrep serve") dir with
              | Spawned pid =>
                  {| sr_failed := false;
                     sr_spawned := [(js "osgrep serve", dir, pid)];
                     sr_files := files;
                     sr_stdout := [ServeStartedResponse] |}
              | SpawnThrows => uncaught files
              | SpawnErrorLater =>
                  {| sr_failed := true; sr_spawned := []; sr_files := files;
                     sr_stdout := [ServeStartedResponse] |}
              end
          | _ => uncaught files
          end
      end
  end.

End StartHooks.

(** A world in which the watcher of a session runs: its pid file holds the
    process id, written by the start hook. *)
Definition session_env : StartEnv :=
  {| spawn _ _ := Spawned 4242; can_write _ := true |}.

Definition session_world : HookWorld :=
  {| hw_stdin := Some (js "{}"); hw_cwd := js "/w"; hw_tmpdir := js "/tmp";
     hw_files := ∅;
     hw_procs := [ {| proc_pid := 4242; proc_pgid := 4242;
                      proc_cmdline := js "node /usr/bin/osgrep watch" |} ];
     hw_pid := 7001; hw_pgid := 77; hw_pkill := true |}.

(** The world a stop hook finds after a start hook: the files the start
    hook left. *)
Definition after_start (w : HookWorld) (r : StartResult) : HookWorld :=
  {| hw_stdin := hw_stdin w; hw_cwd := hw_cwd w; hw_tmpdir := hw_tmpdir w;
     hw_files := sr_files r; hw_procs := hw_procs w; hw_pid := hw_pid w;
     hw_pgid := hw_pgid w; hw_pkill := hw_pkill w |}.

(** A lock file of [osgrep serve] that names a running server. *)
Definition parse_lock (text : jsstring) : option JsValue :=
  if bool_decide (text = js "lock")
  then Some (VObject [(js "pid", VNumber (NumInt 4242))])
  else Some (VObject []).

Definition locked_world : HookWorld :=
  {| hw_stdin := Some (js "{}"); hw_cwd := js "/w"; hw_tmpdir := js "/tmp";
     hw_files :=
       {[ js "/w/.osgrep/server.json" := RegularFile (js "lock");
          js "/w/a.ts" := RegularFile (js "let a = 1") ]};
     hw_procs := [ {| proc_pid := 4242; proc_pgid := 4242;
                      proc_cmdline := js "node /usr/bin/osgrep serve" |};
                   {| proc_pid := 5151; proc_pgid := 5151;
                      proc_cmdline := js "node /usr/bin/osgrep serve" |} ];
     hw_pid := 7001; hw_pgid := 77; hw_pkill := true |}.

(** A lock file whose process id is 0, which names the process group of
    whoever calls kill. *)
Definition parse_own_group (_ : jsstring) : option JsValue :=
  Some (VObject [(js "pid", VNumber (NumInt 0))]).

(** The same lock when the server it names is gone. *)
Definition stale_lock_world : HookWorld :=
  {| hw_stdin := Some (js "{}"); hw_cwd := js "/w"; hw_tmpdir := js "/tmp";
     hw_files := {[ js "/w/.osgrep/server.json" := RegularFile (js "lock") ]};
     hw_procs := [ {| proc_pid := 5151; proc_pgid := 5151;
                      proc_cmdline := js "node /usr/bin/osgrep serve" |} ];
     hw_pid := 7001; hw_pgid := 77; hw_pkill := true |}.

(** The same session, with its id on standard input. *)
Definition session_stdin_world (files : gmap jsstring FsNode) : HookWorld :=
  {| hw_stdin := Some (js "{}"); hw_cwd := js "/w"; hw_tmpdir := js "/tmp";
     hw_files := files;
     hw_procs := [ {| proc_pid := 4242; proc_pgid := 4242;
                      proc_cmdline := js "node /usr/bin/osgrep watch" |} ];
     hw_pid := 7001; hw_pgid := 77; hw_pkill := true |}.

(** ** The benchmark table (benchmark/plot.ts) *)

(** [String.prototype.trim]: white space and line terminators are removed
    at both ends. *)
Definition trim (s : jsstring) : jsstring :=
  rev (drop_while is_js_whitespace (rev (drop_while is_js_whitespace s))).

Definition is_newline (c : N) : bool := (c =? 10)%N.
Definition is_comma (c : N) : bool := (c =? 44)%N.

Section Plot.

(** The numbers of a row are floating-point values: their type, their
    addition, zero, what [parseFloat] reads and which values are falsy
    (zero and [NaN]) are parameters.  Counts are natural numbers. *)
Variable Num : Type.
Variable num_add : Num → Num → Num.
Variable num_zero : Num.
Variable num_falsy : Num → bool.
Variable parseFloat : jsstring → Num.
Variable unicode_lower : jsstring → jsstring.

Record BenchmarkRow : Type := {
  row_query : jsstring;
  baselineTime : Num;
  baselineCost : Num;
  osgrepTime : Num;
  osgrepCost : Num;
  winner : jsstring
}.

Record CumulativeData : Type := {
  totalBaselineTime : Num;
  totalOsgrepTime : Num;
  totalBaselineCost : Num;
  totalOsgrepCost : Num;
  queryCount : nat;
  osgrepWins : nat;
  baselineWins : nat;
  ties : nat
}.

(** [parseFloat(x) || 0] *)
Definition float_or_zero (x : jsstring) : Num :=
  if num_falsy (parseFloat x) then num_zero else parseFloat x.

(** The body of the loop of [parseCSV] for one line after the header: the
    row, or nothing when the line is blank or has fewer than six cells. *)
Definition row_of_line (rawLine : jsstring) : list BenchmarkRow :=
  let line := trim rawLine in
  if negb (truthy line) then []
  else
    let parts := List.map trim (split_on is_comma line) in
    if length parts <? 6 then []
    else
      let cell i := default [] (parts !! i) in
      let lowered := toLowerCase unicode_lower (cell 5) in
      [{| row_query := cell 0;
          baselineTime := float_or_zero (cell 1);
          baselineCost := float_or_zero (cell 2);
          osgrepTime := float_or_zero (cell 3);
          osgrepCost := float_or_zero (cell 4);
          winner := if truthy lowered then lowered else js "tie" |}].

(** [parseCSV], from the content of the file on. *)
Definition parseCSV (content : jsstring) : list BenchmarkRow :=
  let lines := split_on is_newline (trim content) in
  List.flat_map row_of_line (drop 1 lines).

Definition count_if (b : bool) : nat := if b then 1 else 0.

Definition cumulative_zero : CumulativeData :=
  {| totalBaselineTime := num_zero; totalOsgrepTime := num_zero;
     totalBaselineCost := num_zero; totalOsgrepCost := num_zero;
     queryCount := 0; osgrepWins := 0; baselineWins := 0; ties := 0 |}.

Definition cumulative_step (acc : CumulativeData) (row : BenchmarkRow)
  : CumulativeData :=
  {| totalBaselineTime := num_add (totalBaselineTime acc) (baselineTime row);
     totalOsgrepTime := num_add (totalOsgrepTime acc) (osgrepTime row);
     totalBaselineCost := num_add (totalBaselineCost acc) (baselineCost row);
     totalOsgrepCost := num_add (totalOsgrepCost acc) (osgrepCost row);
     queryCount := queryCount acc + 1;
     osgrepWins :=
       osgrepWins acc + count_if (bool_decide (winner row = js "osgrep"));
     baselineWins :=
       baselineWins acc
       + count_if (bool_decide (winner row = js "baseline"));
     ties := ties acc + count_if (bool_decide (winner row = js "tie")) |}.

Definition calculateCumulative (rows : list BenchmarkRow) : CumulativeData :=
  fold_left cumulative_step rows cumulative_zero.

(** The winners the report knows. *)
Definition known_winner (w : jsstring) : bool :=
  bool_decide (w = js "osgrep") || bool_decide (w = js "baseline")
  || bool_decide (w = js "tie").

End Plot.

Arguments row_query {Num}.
Arguments winner {Num}.
Arguments queryCount {Num}.
Arguments osgrepWins {Num}.
Arguments baselineWins {Num}.
Arguments ties {Num}.

(** The cells of a line put together with commas, as a line of the table
    is written. *)
Fixpoint join_cells (cells : list jsstring) : jsstring :=
  match cells with
  | [] => []
  | cell :: rest =>
      match rest with
      | [] => cell
      | _ :: _ => cell ++ 44%N :: join_cells rest
      end
  end.

(** ** The agent benchmark (src/bench/benchmark-agent.ts) *)

(** What [runTest] looks at in the messages of the agent: the tool-use
    blocks of an assistant message ([None] when the message has no array
    of content) and the result messages, whose usage figures are kept as
    they come. *)
Inductive ContentBlock : Type :=
| ToolUse (name : jsstring)
| OtherBlock.

Inductive SDKMessage (Usage : Type) : Type :=
| AssistantMessage (content : option (list ContentBlock))
| ResultMessage (success : bool) (result : jsstring) (usage : Usage)
| OtherMessage.
Arguments AssistantMessage {Usage}.
Arguments ResultMessage {Usage}.
Arguments OtherMessage {Usage}.

(** What [runTest] writes while it runs: a mark per tool call, a new line
    at a result, and a warning when Bash is used though it is disallowed. *)
Inductive Progress : Type :=
| MarkRead
| MarkBash
| MarkGrep
| MarkGlob
| MarkNewline
| BashWarning.

Record BenchmarkResult (Usage : Type) : Type := {
  duration_ms : nat;
  usage_figures : option Usage;   (* [None]: cost and tokens reported as 0 *)
  tool_calls : nat;
  files_read : nat;
  grep_calls : nat;
  bash_calls : nat;
  result_text : jsstring;
  error : option jsstring
}.
Arguments duration_ms {Usage}.
Arguments usage_figures {Usage}.
Arguments tool_calls {Usage}.
Arguments files_read {Usage}.
Arguments grep_calls {Usage}.
Arguments bash_calls {Usage}.
Arguments result_text {Usage}.
Arguments error {Usage}.

(** The variables of the loop of [runTest]. *)
Record RunState (Usage : Type) : Type := {
  toolCalls : nat;
  filesRead : nat;
  grepCalls : nat;
  bashCalls : nat;
  finalResult : option Usage;
  resultText : jsstring;
  progress : list Progress
}.
Arguments toolCalls {Usage}.
Arguments filesRead {Usage}.
Arguments grepCalls {Usage}.
Arguments bashCalls {Usage}.
Arguments finalResult {Usage}.
Arguments resultText {Usage}.
Arguments progress {Usage}.

Section RunTest.

Variable Usage : Type.

Definition run_start : RunState Usage :=
  {| toolCalls := 0; filesRead := 0; grepCalls := 0; bashCalls := 0;
     finalResult := None; resultText := []; progress := [] |}.

Definition run_block (useOsgrep : bool) (st : RunState Usage)
    (block : ContentBlock) : RunState Usage :=
  match block with
  | ToolUse toolName =>
      let warned :=
        if bool_decide (toolName = js "Bash") && negb useOsgrep
        then [BashWarning] else [] in
      if bool_decide (toolName = js "Read") then
        {| toolCalls := toolCalls st + 1; filesRead := filesRead st + 1;
           grepCalls := grepCalls st; bashCalls := bashCalls st;
           finalResult := finalResult st; resultText := resultText st;
           progress := progress st ++ warned ++ [MarkRead] |}
      else if bool_decide (toolName = js "Bash") then
        {| toolCalls := toolCalls st + 1; filesRead := filesRead st;
           grepCalls := grepCalls st; bashCalls := bashCalls st + 1;
           finalResult := finalResult st; resultText := resultText st;
           progress := progress st ++ warned ++ [MarkBash] |}
      else if bool_decide (toolName = js "Grep") then
        {| toolCalls := toolCalls st + 1; filesRead := filesRead st;
           grepCalls := grepCalls st + 1; bashCalls := bashCalls st;
           finalResult := finalResult st; resultText := resultText st;
           progress := progress st ++ warned ++ [MarkGrep] |}
      else
        {| toolCalls := toolCalls st + 1; filesRead := filesRead st;
           grepCalls := grepCalls st; bashCalls := bashCalls st;
           finalResult := finalResult st; resultText := resultText st;
           progress :=
             progress st ++ warned
               ++ (if bool_decide (toolName = js "Glob")
                   then [MarkGlob] else []) |}
  | OtherBlock => st
  end.

Definition run_message (useOsgrep : bool) (st : RunState Usage)
    (msg : SDKMessage Usage) : RunState Usage :=
  match msg with
  | AssistantMessage (Some content) =>
      fold_left (run_block useOsgrep) content st
  | AssistantMessage None => st
  | ResultMessage success result usage =>
      {| toolCalls := toolCalls st; filesRead := filesRead st;
         grepCalls := grepCalls st; bashCalls := bashCalls st;
         finalResult := Some usage;
         resultText := if success then result else resultText st;
         progress := progress st ++ [MarkNewline] |}
  | OtherMessage => st
  end.

Definition failed_result (elapsed : nat) (message : jsstring)
  : BenchmarkResult Usage :=
  {| duration_ms := elapsed; usage_figures := None; tool_calls := 0;
     files_read := 0; grep_calls := 0; bash_calls := 0; result_text := [];
     error := Some message |}.

(** [runTest], from the stream of messages on: the messages the agent
    yields, the error the stream ends on if it throws, and the time that
    has passed when the function returns. *)
Definition runTest (useOsgrep : bool) (messages : list (SDKMessage Usage))
    (thrown : option jsstring) (elapsed : nat)
  : BenchmarkResult Usage * list Progress :=
  let st := fold_left (run_message useOsgrep) messages run_start in
  (match thrown with
   | Some message => failed_result elapsed message
   | None =>
       match finalResult st with
       | None => failed_result elapsed (js "No result message received")
       | Some usage =>
           {| duration_ms := elapsed; usage_figures := Some usage;
              tool_calls := toolCalls st; files_read := filesRead st;
              grep_calls := grepCalls st; bash_calls := bashCalls st;
              result_text := resultText st; error := None |}
       end
   end, progress st).

(** The names of the tools the agent called, in order. *)
Definition tool_names (messages : list (SDKMessage Usage)) : list jsstring :=
  List.flat_map
    (λ msg, match msg with
            | AssistantMessage (Some content) =>
                List.flat_map
                  (λ b, match b with ToolUse n => [n] | OtherBlock => [] end)
                  content
            | _ => []
            end) messages.

Definition is_result_message (msg : SDKMessage Usage) : bool :=
  match msg with ResultMessage _ _ _ => true | _ => false end.

End RunTest.

(** *** Saving the results *)

Record BenchmarkComparison : Type := {
  bc_question : jsstring;
  bc_repository : jsstring;
  bc_without_osgrep : JsValue;
  bc_with_osgrep : JsValue
}.

Section SaveResults.

Variable JSON_parse : jsstring → option JsValue.
(** [JSON.stringify(value, null, 2)] *)
Variable JSON_stringify : JsValue → jsstring.
Variable env : StartEnv.
(** [new Date().toISOString()] at the time of the call. *)
Variable timestamp : jsstring.

Definition resultWithTimestamp (comparison : BenchmarkComparison) : JsValue :=
  VObject
    [(js "question", VString (bc_question comparison));
     (js "repository", VString (bc_repository comparison));
     (js "without_osgrep", bc_without_osgrep comparison);
     (js "with_osgrep", bc_with_osgrep comparison);
     (js "timestamp", VString timestamp);
     (js "repository_name",
      VString (basename (bc_repository comparison)))].

(** What is in [allResults] before the new result is pushed. *)
Definition existing_results (files : gmap jsstring FsNode)
    (filepath : jsstring) : JsValue :=
  match readFileSync files filepath with
  | Some existing =>
      match JSON_parse existing with
      | Some parsed => parsed
      | None => VArray []
      end
  | None => VArray []
  end.

(** [saveResults]: the files it leaves, or [None] when its promise
    rejects. *)
Definition saveResults (files : gmap jsstring FsNode)
    (comparison : BenchmarkComparison) (filepath : jsstring)
  : option (gmap jsstring FsNode) :=
  match existing_results files filepath with
  | VArray allResults =>
      writeFileSync env files filepath
        (JSON_stringify
           (VArray (allResults ++ [resultWithTimestamp comparison])))
  | _ => None             (* [push] is no function of the parsed value *)
  end.

End SaveResults.

(** How often a tool occurs among the names of the tools called. *)
Definition count_tool (tool : jsstring) (names : list jsstring) : nat :=
  length (List.filter (λ n, bool_decide (n = tool)) names).

(** The benchmark run several times with the same output file: each run
    saves its comparison, stamped with the time of the run; a run whose
    save is rejected ends the series. *)
Definition save_all (JSON_parse : jsstring → option JsValue)
    (JSON_stringify : JsValue → jsstring) (env : StartEnv)
    (filepath : jsstring) (files : gmap jsstring FsNode)
    (runs : list (jsstring * BenchmarkComparison))
  : option (gmap jsstring FsNode) :=
  fold_left
    (λ acc run,
       match acc with
       | Some fs =>
           saveResults JSON_parse JSON_stringify env run.1 fs run.2 filepath
       | None => None
       end)
    runs (Some files).

(** Two runs of the benchmark and a stand-in for the JSON of their
    results. *)
Definition sample_comparison (question : jsstring) : BenchmarkComparison :=
  {| bc_question := question; bc_repository := js "/home/u/proj";
     bc_without_osgrep := VNull; bc_with_osgrep := VNull |}.

Definition sample_runs : list (jsstring * BenchmarkComparison) :=
  [(js "2025-01-01T00:00:00.000Z", sample_comparison (js "q1"));
   (js "2025-01-02T00:00:00.000Z", sample_comparison (js "q2"))].

Definition sample_stringify (v : JsValue) : jsstring :=
  match v with
  | VArray [_] => js "one"
  | VArray [_; _] => js "two"
  | _ => js "other"
  end.

Definition sample_parse (text : jsstring) : option JsValue :=
  let entries :=
    List.map (λ run, resultWithTimestamp run.1 run.2) sample_runs in
  if bool_decide (text = js "one") then Some (VArray (take 1 entries))
  else if bool_decide (text = js "two") then Some (VArray entries)
  else None.

Definition writable_env : StartEnv :=
  {| spawn _ _ := SpawnThrows; can_write _ := true |}.

(** A conversation of the agent: two reads, a search, a glob, and the
    result. *)
Definition sample_messages : list (SDKMessage nat) :=
  [AssistantMessage (Some [ToolUse (js "Read"); OtherBlock;
                           ToolUse (js "Grep")]);
   OtherMessage;
   AssistantMessage None;
   AssistantMessage (Some [ToolUse (js "Glob"); ToolUse (js "Read")]);
   ResultMessage true (js "done") 7].
(** * Theorems *)

(** ** Facts about the store-id derivation *)

Example extract_https :
  extractRepoInfoFromUrl (λ s, s) (js "https://github.com/owner/repo.git")
  = js "owner-repo".
Proof. vm_compute. reflexivity. Qed.

Example extract_ssh :
  extractRepoInfoFromUrl (λ s, s) (js "git@github.com:Owner/Repo.git")
  = js "owner-repo".
Proof. vm_compute. reflexivity. Qed.

Example extract_ssh_proto :
  extractRepoInfoFromUrl (λ s, s) (js "ssh://git@server/project/repo")
  = js "project-repo".
Proof. vm_compute. reflexivity. Qed.

Example extract_single :
  extractRepoInfoFromUrl (λ s, s) (js "repo") = js "repo".
Proof. vm_compute. reflexivity. Qed.

Example extract_nothing :
  extractRepoInfoFromUrl (λ s, s) (js ".git") = js "unknown-repo".
Proof. vm_compute. reflexivity. Qed.

Example sanitize_ex :
  sanitizeStoreName (λ s, s) (js "My Repo_1.x") = js "my-repo-1-x".
Proof. vm_compute. reflexivity. Qed.

Example basename_ex : basename (js "/home/u/proj//") = js "proj".
Proof. vm_compute. reflexivity. Qed.

Ltac cmp_to_lia :=
  repeat match goal with
    | |- context [N.leb ?a ?b] => destruct (N.leb_spec a b)
    | |- context [N.ltb ?a ?b] => destruct (N.ltb_spec a b)
    | |- context [N.eqb ?a ?b] => destruct (N.eqb_spec a b)
    end; cbn [andb orb negb] in *; try reflexivity; try discriminate;
  try lia.

(** Case analysis on the character class of [c], then arithmetic. *)
Ltac by_class c :=
  unfold_classes;
  destruct (N.leb_spec 97 c), (N.leb_spec c 122), (N.leb_spec 65 c),
    (N.leb_spec c 90), (N.leb_spec 48 c), (N.leb_spec c 57),
    (N.eqb_spec c 45); cbn [andb orb negb]; try lia; cmp_to_lia.

Lemma replaced_is_ascii (c : N) :
  is_ascii (if store_char_kept c then c else 45%N) = true.
Proof. by_class c. Qed.

Lemma sanitize_char_alphabet (c : N) : store_alphabet (sanitize_char c) = true.
Proof. by_class c. Qed.

Lemma sanitize_char_fixes (c : N) :
  store_alphabet c = true → sanitize_char c = c.
Proof. by_class c. Qed.

Lemma sanitize_as_map (ul : jsstring → jsstring) (name : jsstring) :
  sanitizeStoreName ul name = List.map sanitize_char name.
Proof.
  unfold sanitizeStoreName, toLowerCase.
  replace (forallb is_ascii
             (List.map (λ c, if store_char_kept c then c else 45%N) name))
    with true.
  - rewrite List.map_map. reflexivity.
  - symmetry. apply forallb_forall. intros c Hc.
    apply in_map_iff in Hc as [d [<- _]]. apply replaced_is_ascii.
Qed.

Lemma sanitize_app (ul : jsstring → jsstring) (a b : jsstring) :
  sanitizeStoreName ul (a ++ b)
  = sanitizeStoreName ul a ++ sanitizeStoreName ul b.
Proof. rewrite !sanitize_as_map. apply List.map_app. Qed.

Lemma sanitize_fixes (ul : jsstring → jsstring) (s : jsstring) :
  forallb store_alphabet s = true → sanitizeStoreName ul s = s.
Proof.
  rewrite sanitize_as_map. induction s as [|c s IH]; simpl; [reflexivity|].
  intros [Hc Hs]%andb_true_iff.
  rewrite sanitize_char_fixes by exact Hc. rewrite IH by exact Hs.
  reflexivity.
Qed.

Lemma sanitize_alphabet (ul : jsstring → jsstring) (s : jsstring) :
  forallb store_alphabet (sanitizeStoreName ul s) = true.
Proof.
  rewrite sanitize_as_map. induction s as [|c s IH]; simpl; [reflexivity|].
  rewrite sanitize_char_alphabet. exact IH.
Qed.

Lemma hex_digit_alphabet (n : N) :
  (n < 16)%N → store_alphabet (hex_digit n) = true.
Proof. unfold hex_digit. unfold_classes. intros Hn. cmp_to_lia. Qed.

Lemma hex_of_bytes_alphabet (bs : list Byte.byte) :
  forallb store_alphabet (hex_of_bytes bs) = true.
Proof.
  induction bs as [|b bs IH]; simpl; [reflexivity|].
  pose proof (Byte.to_N_bounded b) as Hb.
  rewrite !hex_digit_alphabet, IH; [reflexivity| |].
  - apply N.mod_lt. lia.
  - apply N.Div0.div_lt_upper_bound. lia.
Qed.

Lemma forallb_take (f : N → bool) (n : nat) (s : jsstring) :
  forallb f s = true → forallb f (take n s) = true.
Proof.
  revert n. induction s as [|c s IH]; intros [|n]; simpl; try reflexivity.
  intros [Hc Hs]%andb_true_iff. rewrite Hc. simpl. apply IH, Hs.
Qed.

Lemma store_alphabet_spec (c : N) :
  store_alphabet c = true
  ↔ ((97 ≤ c ∧ c ≤ 122) ∨ (48 ≤ c ∧ c ≤ 57) ∨ c = 45)%N.
Proof. split; by_class c. Qed.

Lemma truthy_ne (s : jsstring) : s ≠ [] → truthy s = true.
Proof. destruct s; [congruence | reflexivity]. Qed.

Lemma truthy_false (s : jsstring) : truthy s = false → s = [].
Proof. destruct s; [reflexivity | discriminate]. Qed.

(** When the URL has at least two non-empty parts, the last two are the
    owner and the repository. *)
Lemma extract_owner_repo (ul : jsstring → jsstring)
    (url : jsstring) (pre : list jsstring) (owner repo : jsstring) :
  List.filter truthy (split_on is_url_sep (strip_git_suffix url))
    = pre ++ [owner; repo] →
  extractRepoInfoFromUrl ul url = toLowerCase ul (owner ++ js "-" ++ repo).
Proof.
  intros Hparts. unfold extractRepoInfoFromUrl. rewrite Hparts.
  assert (Hin : Forall (λ p, truthy p = true) (pre ++ [owner; repo])).
  { rewrite <- Hparts. apply List.Forall_forall. intros p Hp.
    apply List.filter_In in Hp. tauto. }
  apply Forall_app in Hin as [_ Hin].
  apply Forall_cons in Hin as [Ho Hin]. apply Forall_cons in Hin as [Hr _].
  rewrite length_app. cbn [length].
  replace (length pre + 2 - 1) with (length pre + 1) by lia.
  replace (length pre + 2 - 2) with (length pre + 0) by lia.
  destruct (Nat.leb_spec 2 (length pre + 2)) as [_|]; [|lia].
  rewrite !lookup_app_r by lia.
  replace (length pre + 1 - length pre) with 1 by lia.
  replace (length pre + 0 - length pre) with 0 by lia.
  cbn [lookup list_lookup]. rewrite Ho, Hr. reflexivity.
Qed.

(** C10: [sanitizeStoreName] yields only lower-case ASCII letters, digits
    and hyphens, whatever the input, and sanitizing a sanitized name changes
    nothing. *)
Theorem sanitizeStoreName_alphabet_idempotent
    (ul : jsstring → jsstring) (name : jsstring) :
  Forall (λ c, (97 ≤ c ∧ c ≤ 122) ∨ (48 ≤ c ∧ c ≤ 57) ∨ c = 45)%N
         (sanitizeStoreName ul name)
  ∧ sanitizeStoreName ul (sanitizeStoreName ul name)
    = sanitizeStoreName ul name.
Proof.
  pose proof (sanitize_alphabet ul name) as Halpha. split.
  - apply List.Forall_forall. intros c Hc. apply store_alphabet_spec.
    rewrite forallb_forall in Halpha. apply Halpha, Hc.
  - apply sanitize_fixes, Halpha.
Qed.

(** C7: the store id is a function of the resolved directory and of what
    the git accessor answers for it.  With a repository root and a remote
    URL it is the sanitized owner-repo form of the URL (and
    https://github.com/owner/repo.git gives owner-repo); in every other
    case it is the sanitized base name of the absolute path, a hyphen, and
    the first 8 hexadecimal characters of the SHA-256 digest of that path. *)
Theorem getAutoStoreId_derivation
    (ul : jsstring → jsstring) (resolve : jsstring → jsstring)
    (sha256 : jsstring → list Byte.byte) (git : Git) (targetDir : jsstring) :
  let absolutePath := resolve targetDir in
  (∀ remote, in_repo_with_remote git absolutePath remote →
     getAutoStoreId ul resolve sha256 git targetDir
     = sanitizeStoreName ul (extractRepoInfoFromUrl ul remote))
  ∧ ((∀ remote, ¬ in_repo_with_remote git absolutePath remote) →
     getAutoStoreId ul resolve sha256 git targetDir
     = sanitizeStoreName ul (basename absolutePath) ++ js "-"
         ++ take 8 (hex_of_bytes (sha256 absolutePath)))
  ∧ (∀ url pre owner repo,
       List.filter truthy (split_on is_url_sep (strip_git_suffix url))
         = pre ++ [owner; repo] →
       extractRepoInfoFromUrl ul url
       = toLowerCase ul (owner ++ js "-" ++ repo))
  ∧ sanitizeStoreName ul
      (extractRepoInfoFromUrl ul (js "https://github.com/owner/repo.git"))
    = js "owner-repo"
  ∧ (∀ git' targetDir',
       resolve targetDir' = absolutePath →
       getRepositoryRoot git' absolutePath
         = getRepositoryRoot git absolutePath →
       (∀ root, getRepositoryRoot git absolutePath = GitString root →
                getRemoteUrl git' root = getRemoteUrl git root) →
       getAutoStoreId ul resolve sha256 git' targetDir'
       = getAutoStoreId ul resolve sha256 git targetDir).
Proof.
  intros absolutePath. split; [|split; [|split; [|split]]].
  - intros remote (root & Hroot & Hne & Hremote & Hne').
    unfold getAutoStoreId. fold absolutePath.
    rewrite Hroot, (truthy_ne _ Hne), Hremote, (truthy_ne _ Hne').
    reflexivity.
  - intros Hnone. unfold getAutoStoreId. fold absolutePath.
    assert (Hfallback :
      sanitizeStoreName ul
        (basename absolutePath ++ js "-"
           ++ take 8 (hex_of_bytes (sha256 absolutePath)))
      = sanitizeStoreName ul (basename absolutePath) ++ js "-"
          ++ take 8 (hex_of_bytes (sha256 absolutePath))).
    { rewrite !sanitize_app. f_equal. f_equal.
      apply sanitize_fixes, forallb_take, hex_of_bytes_alphabet. }
    destruct (getRepositoryRoot git absolutePath) as [| |root] eqn:Hroot;
      try exact Hfallback.
    destruct (truthy root) eqn:Htr; [|exact Hfallback].
    destruct (getRemoteUrl git root) as [| |remote] eqn:Hremote;
      try exact Hfallback.
    destruct (truthy remote) eqn:Htm; [|exact Hfallback].
    exfalso. apply (Hnone remote). exists root.
    repeat split; try assumption; intros ->; discriminate.
  - intros url pre owner repo. apply extract_owner_repo.
  - vm_compute. reflexivity.
  - intros git' targetDir' Hdir Hroot Hremote.
    unfold getAutoStoreId. rewrite Hdir. fold absolutePath. rewrite Hroot.
    destruct (getRepositoryRoot git absolutePath) as [| |root] eqn:Hr;
      try reflexivity.
    rewrite (Hremote root eq_refl). reflexivity.
Qed.

(** A checkout with a remote, and a directory that git knows nothing of. *)
Lemma getAutoStoreId_derivation_witness :
  getAutoStoreId (λ s, s) (λ d, d) sample_digest git_with_remote
    (js "/home/u/proj") = js "owner-repo"
  ∧ getAutoStoreId (λ s, s) (λ d, d) sample_digest git_without_repo
      (js "/home/u/My Proj") = js "my-proj-1234abcd".
Proof.
  destruct (getAutoStoreId_derivation (λ s, s) (λ d, d) sample_digest
              git_with_remote (js "/home/u/proj")) as (Hremote & _).
  destruct (getAutoStoreId_derivation (λ s, s) (λ d, d) sample_digest
              git_without_repo (js "/home/u/My Proj")) as (_ & Hnone & _).
  split.
  - rewrite (Hremote (js "git@github.com:Owner/Repo.git")).
    + vm_compute. reflexivity.
    + exists (js "/home/u/proj"). repeat split; discriminate || reflexivity.
  - rewrite Hnone.
    + vm_compute. reflexivity.
    + intros remote (root & Hroot & _). discriminate Hroot.
Defined.

(** ** Paths *)

Example join_simple :
  path_join [js "/home/u/proj"; js "src/a.ts"] = js "/home/u/proj/src/a.ts".
Proof. vm_compute. reflexivity. Qed.

Example join_dots :
  path_join [js "/home/u/proj"; js "./src/../b//c.ts"]
  = js "/home/u/proj/b/c.ts".
Proof. vm_compute. reflexivity. Qed.

Example join_root : path_join [js "/"; js "a.ts"] = js "/a.ts".
Proof. vm_compute. reflexivity. Qed.

Example join_lock :
  path_join [js "/w"; js ".osgrep"; js "server.json"]
  = js "/w/.osgrep/server.json".
Proof. vm_compute. reflexivity. Qed.

Example join_above : path_join [js "a"; js "../../b/"] = js "../b/".
Proof. vm_compute. reflexivity. Qed.

(** ** The stop hooks *)

Example parseInt_plain : parseInt10 (js "4242") = NumInt 4242.
Proof. vm_compute. reflexivity. Qed.

Example parseInt_lenient : parseInt10 (js "  -12abc") = NumInt (-12).
Proof. vm_compute. reflexivity. Qed.

Example parseInt_nan : parseInt10 (js "pid") = NumOther.
Proof. vm_compute. reflexivity. Qed.

Example serving_lock_path :
  stop_lock_path parse_empty_object serving_world
  = Some (js "/w/.osgrep/server.json").
Proof. vm_compute. reflexivity. Qed.

Lemma process_kill_other (w : HookWorld) : process_kill w NumOther = None.
Proof. reflexivity. Qed.




Lemma stop_osgrep_completes (parse : jsstring → option JsValue)
    (tostr : JsValue → jsstring) (w : HookWorld) :
  hr_failed (stop_osgrep parse tostr w) = false
  ∧ (hr_terminated (stop_osgrep parse tostr w) = false →
     hr_stdout (stop_osgrep parse tostr w) = [SessionEndResponse]).
Proof.
  unfold stop_osgrep.
  destruct (stop_osgrep_cleanup parse tostr w) as [[signalled files] self].
  split; [reflexivity|]. cbn. intros ->. reflexivity.
Qed.




(** ** The watcher *)

(** Closes a goal from a membership, in a list written out, of something
    that differs from each element by its constructor. *)
Ltac not_a_member H :=
  repeat (apply elem_of_cons in H as [H|H]; [discriminate H|]);
  apply elem_of_nil in H; exact H.

(** The same for a membership of [c] when [Hc] tells which class of calls
    [c] belongs to. *)
Ltac not_a_member_of H Hc :=
  repeat (apply elem_of_cons in H as [H|H];
          [rewrite H in Hc; discriminate Hc|]);
  apply elem_of_nil in H; exact H.

Section WatchFacts.

Context {St : Type} `{Store St}.
Variable fingerprint : jsstring → jsstring.

(** The calls of one upload: at most one, an index call for the file
    read, under the given identifier. *)
Lemma uploadFile_calls (disk : gmap jsstring FsNode) (store : St)
    (storeId filePath fileName : jsstring) (c : StoreCall) :
  c ∈ (uploadFile fingerprint disk store storeId filePath fileName).1.2 →
  ∃ content,
    readFileSync disk filePath = Some content
    ∧ c = CallIndexFile storeId content
            {| external_id := fileName; metadata_path := filePath;
               metadata_hash := fingerprint content |}.
Proof.
  unfold uploadFile.
  destruct (readFileSync disk filePath) as [content|];
    [|intros []%elem_of_nil].
  destruct (indexFile _ _ _ _) as [store' ok]. cbn.
  intros ->%list_elem_of_singleton. exists content. split; reflexivity.
Qed.

(** An upload rejects when the store refuses the index call (or when the
    file cannot be read). *)
Lemma uploadFile_rejected (disk : gmap jsstring FsNode) (store : St)
    (storeId filePath fileName : jsstring) :
  (uploadFile fingerprint disk store storeId filePath fileName).2 = false
  ↔ match readFileSync disk filePath with
    | Some content =>
        (indexFile store storeId content
           {| external_id := fileName; metadata_path := filePath;
              metadata_hash := fingerprint content |}).2 = false
    | None => True
    end.
Proof.
  unfold uploadFile. destruct (readFileSync disk filePath) as [content|].
  - destruct (indexFile _ _ _ _) as [store' ok]. reflexivity.
  - split; [intros _; exact I | reflexivity].
Qed.

(** The callback never lets an exception or a rejection escape. *)
Lemma watch_callback_contained (store : St) (storeId root : jsstring)
    (ev : WatchEvent) :
  cb_threw (watch_callback fingerprint store storeId root ev) = false
  ∧ cb_unhandled (watch_callback fingerprint store storeId root ev) = false.
Proof.
  unfold watch_callback.
  destruct (ev_filename ev) as [filename|]; [|split; reflexivity].
  destruct (truthy filename); [|split; reflexivity]. cbn [negb].
  destruct (statSync_isFile _ _) as [[|]|]; try (split; reflexivity).
  destruct (ev_ignored ev _ _); [split; reflexivity|].
  destruct (uploadFile _ _ _ _ _ _) as [[store' calls] ok].
  split; reflexivity.
Qed.

Lemma handle_event_watching (storeId root : jsstring)
    (st : WatchState St) (ev : WatchEvent) :
  ws_watching (handle_event fingerprint storeId root st ev) = true.
Proof.
  unfold handle_event. cbn [ws_watching].
  destruct (watch_callback_contained (ws_store st) storeId root ev)
    as [-> ->].
  reflexivity.
Qed.



(** The remote calls of a callback are index calls for the path of the
    event, a regular file that is not ignored when the event is handled. *)
Lemma watch_callback_calls (store : St) (storeId root : jsstring)
    (ev : WatchEvent) (c : StoreCall) :
  c ∈ cb_calls (watch_callback fingerprint store storeId root ev) →
  ∃ filename content,
    ev_filename ev = Some filename
    ∧ ev_disk ev !! path_join [root; filename] = Some (RegularFile content)
    ∧ ev_ignored ev (path_join [root; filename]) root = false
    ∧ c = CallIndexFile storeId content
            {| external_id := filename;
               metadata_path := path_join [root; filename];
               metadata_hash := fingerprint content |}.
Proof.
  unfold watch_callback.
  destruct (ev_filename ev) as [filename|]; [|intros []%elem_of_nil].
  destruct (truthy filename); [|intros []%elem_of_nil]. cbn [negb].
  destruct (statSync_isFile _ _) as [[|]|] eqn:Hstat;
    try (intros []%elem_of_nil).
  destruct (ev_ignored ev _ _) eqn:Hign; [intros []%elem_of_nil|].
  destruct (uploadFile _ _ _ _ _ _) as [[store' calls] ok] eqn:Hup.
  cbn [cb_calls]. intros Hc.
  assert (Hc' : c ∈ (uploadFile fingerprint (ev_disk ev) store storeId
                       (path_join [root; filename]) filename).1.2)
    by (rewrite Hup; exact Hc).
  apply uploadFile_calls in Hc' as (content & Hread & ->).
  exists filename, content. repeat split; try assumption.
  unfold readFileSync in Hread.
  destruct (ev_disk ev !! path_join [root; filename]) as [[text|]|];
    congruence.
Qed.

End WatchFacts.

(** C9: a notification without a file name (null, undefined, or the empty
    string) makes the callback return at once: nothing is thrown, nothing
    is logged, no stat, no ignore check, no upload, no remote call. *)
Theorem watch_callback_no_filename {St : Type} `{Store St}
    (fingerprint : jsstring → jsstring) (store : St)
    (storeId root : jsstring) (ev : WatchEvent) :
  ev_filename ev = None ∨ ev_filename ev = Some [] →
  watch_callback fingerprint store storeId root ev
  = {| cb_store := store; cb_effects := []; cb_calls := [];
       cb_upload := None; cb_threw := false; cb_unhandled := false |}.
Proof.
  unfold watch_callback. intros [-> | ->]; reflexivity.
Qed.

Lemma watch_callback_no_filename_witness :
  watch_callback plain_fingerprint empty_remote (js "store") watchRoot
    (event_on None)
  = {| cb_store := empty_remote; cb_effects := []; cb_calls := [];
       cb_upload := None; cb_threw := false; cb_unhandled := false |}.
Proof.
  apply (watch_callback_no_filename plain_fingerprint empty_remote
           (js "store") watchRoot (event_on None)).
  left. reflexivity.
Defined.

(** C4: when the path a notification resolves to is not on the disk, or is
    there but is not a regular file, the callback issues no remote call:
    no upload is started, and the store is left as it was. *)
Theorem watch_callback_not_a_file {St : Type} `{Store St}
    (fingerprint : jsstring → jsstring) (store : St)
    (storeId root : jsstring) (ev : WatchEvent) :
  (∀ filename content,
     ev_filename ev = Some filename →
     ev_disk ev !! path_join [root; filename] ≠ Some (RegularFile content)) →
  let r := watch_callback fingerprint store storeId root ev in
  cb_calls r = [] ∧ cb_upload r = None ∧ cb_store r = store
  ∧ (∀ e, e ∈ cb_effects r →
          ∀ sid p f, e ≠ UploadFile sid p f)
  ∧ cb_threw r = false.
Proof.
  intros Hnofile. unfold watch_callback.
  destruct (ev_filename ev) as [filename|] eqn:Hname.
  2: { cbn. repeat split; try reflexivity. intros e []%elem_of_nil. }
  destruct (truthy filename).
  2: { cbn. repeat split; try reflexivity. intros e []%elem_of_nil. }
  cbn [negb]. unfold statSync_isFile.
  destruct (ev_disk ev !! path_join [root; filename]) as [[content|]|]
    eqn:Hnode.
  - exfalso. exact (Hnofile filename content eq_refl Hnode).
  - cbn. repeat split; try reflexivity. intros e He sid p f ->.
    not_a_member He.
  - cbn. repeat split; try reflexivity. intros e He sid p f ->.
    not_a_member He.
Qed.

Lemma watch_callback_not_a_file_witness :
  cb_calls (watch_callback plain_fingerprint empty_remote (js "store")
              watchRoot (event_on (Some (js "src")))) = []
  ∧ cb_calls (watch_callback plain_fingerprint empty_remote (js "store")
                watchRoot (event_on (Some (js "gone.ts")))) = [].
Proof.
  split.
  - apply (watch_callback_not_a_file plain_fingerprint empty_remote
             (js "store") watchRoot (event_on (Some (js "src")))).
    intros filename content [= <-]. vm_compute. discriminate.
  - apply (watch_callback_not_a_file plain_fingerprint empty_remote
             (js "store") watchRoot (event_on (Some (js "gone.ts")))).
    intros filename content [= <-]. vm_compute. discriminate.
Defined.

Lemma watch_callback_uploads {St : Type} `{Store St}
    (fingerprint : jsstring → jsstring) (store : St)
    (storeId root : jsstring) (ev : WatchEvent) :
  List.filter is_upload_effect
    (cb_effects (watch_callback fingerprint store storeId root ev))
  = upload_started storeId root ev.
Proof.
  unfold watch_callback, upload_started, passes_guards.
  destruct (ev_filename ev) as [filename|]; [|reflexivity].
  destruct (truthy filename); [|reflexivity]. cbn [negb andb].
  destruct (statSync_isFile _ _) as [[|]|]; try reflexivity.
  destruct (ev_ignored ev _ _); [reflexivity|].
  destruct (uploadFile _ _ _ _ _ _) as [[store' calls] ok].
  destruct ok; reflexivity.
Qed.



(** ** The initial sync pass *)

Section SyncFacts.

Context {St : Type} `{Store St}.
Variable fingerprint : jsstring → jsstring.

Lemma sync_file_calls (disk : gmap jsstring FsNode)
    (storeId root : jsstring) (force : bool) (listing : list StoreFile)
    (acc : St * list StoreCall * nat) (p : jsstring) (c : StoreCall) :
  c ∈ (sync_file fingerprint disk storeId root force listing acc p).1.2 →
  c ∈ acc.1.2 ∨ sync_index_call fingerprint disk storeId root [p] c.
Proof.
  destruct acc as [[store calls] n]. unfold sync_file.
  destruct (readFileSync disk p) as [content|] eqn:Hread; [|by left].
  destruct (negb force && _); [by left|].
  destruct (uploadFile _ _ _ _ _ _) as [[store' calls'] ok] eqn:Hup.
  cbn. intros [Hc|Hc]%elem_of_app; [by left|right].
  assert (Hc' : c ∈ (uploadFile fingerprint disk store storeId p
                       (path_relative root p)).1.2)
    by (rewrite Hup; exact Hc).
  apply uploadFile_calls in Hc' as (content' & Hread' & ->).
  exists p, content'. split; [left; reflexivity | split; [exact Hread'|]].
  reflexivity.
Qed.

Lemma sync_fold_calls (disk : gmap jsstring FsNode)
    (storeId root : jsstring) (force : bool) (listing : list StoreFile)
    (candidates : list jsstring) (acc : St * list StoreCall * nat)
    (c : StoreCall) :
  c ∈ (fold_left (sync_file fingerprint disk storeId root force listing)
         candidates acc).1.2 →
  c ∈ acc.1.2 ∨ sync_index_call fingerprint disk storeId root candidates c.
Proof.
  revert acc. induction candidates as [|p rest IH]; intros acc; cbn.
  - by left.
  - intros Hc. apply IH in Hc as [Hc|Hc].
    + apply sync_file_calls in Hc as [Hc|(q & content & Hq & Hread & ->)].
      * by left.
      * right. exists q, content. destruct Hq as [<-|[]].
        split; [left; reflexivity | split; [exact Hread | reflexivity]].
    + right. destruct Hc as (q & content & Hq & Hread & ->).
      exists q, content.
      split; [right; exact Hq | split; [exact Hread | reflexivity]].
Qed.

Lemma delete_fold_calls (storeId : jsstring) (ids : list jsstring)
    (acc : St * list StoreCall * nat) (c : StoreCall) :
  c ∈ (fold_left (delete_stale storeId) ids acc).1.2 →
  c ∈ acc.1.2 ∨ ∃ id, In id ids ∧ c = CallDeleteFile storeId id.
Proof.
  revert acc. induction ids as [|id rest IH]; intros acc; cbn.
  - by left.
  - intros Hc. apply IH in Hc as [Hc|(id' & Hid & ->)].
    + destruct acc as [[store calls] n]. unfold delete_stale in Hc.
      destruct (deleteFile store storeId id) as [store' ok]. cbn in Hc.
      apply elem_of_app in Hc as [Hc|Hc]; [by left|].
      apply list_elem_of_singleton in Hc as ->. right.
      exists id. split; [left|]; reflexivity.
    + right. exists id'. split; [right; exact Hid | reflexivity].
Qed.

(** The index calls of a pass are those of its walk over the
    candidates. *)
Lemma initialSync_index_from_walk (disk : gmap jsstring FsNode)
    (store : St) (fileSystem : FileSystem) (storeId root : jsstring)
    (force : bool) (c : StoreCall) :
  c ∈ (initialSync fingerprint disk store fileSystem storeId root
         force).1.2 →
  is_index_call c = true →
  ∃ listing,
    listFiles store storeId = Some listing
    ∧ c ∈ (fold_left
             (sync_file fingerprint disk storeId root force listing)
             (List.filter (λ p, negb (isIgnored fileSystem p))
                (getFiles fileSystem root))
             (store, [], 0)).1.2.
Proof.
  unfold initialSync.
  destruct (listFiles store storeId) as [listing|].
  2: { cbn. intros ->%list_elem_of_singleton. discriminate. }
  set (candidates := List.filter _ (getFiles fileSystem root)).
  destruct (fold_left (sync_file _ _ _ _ _ _) candidates _)
    as [[store1 calls1] uploaded] eqn:Hsync.
  destruct (fold_left (delete_stale _) _ _)
    as [[store2 calls2] deleted] eqn:Hdel.
  assert (Hbase : ∀ c, c ∈ CallListFiles storeId :: calls1 ++ calls2 →
                       is_index_call c = true → c ∈ calls1).
  { intros c' Hc Hidx. apply elem_of_cons in Hc as [->|Hc];
      [discriminate|].
    apply elem_of_app in Hc as [Hc|Hc]; [exact Hc|].
    assert (Hc' : c' ∈ (fold_left (delete_stale storeId)
                          (stale_ids listing
                             (List.map (path_relative root) candidates))
                          (store1, [], 0)).1.2)
      by (rewrite Hdel; exact Hc).
    apply delete_fold_calls in Hc' as [Hc'|(id & _ & ->)].
    - cbn in Hc'. by apply elem_of_nil in Hc'.
    - discriminate. }
  intros Hc Hidx. exists listing. split; [reflexivity|].
  fold candidates. rewrite Hsync. cbn [fst snd].
  apply Hbase; [|exact Hidx].
  destruct (0 <? uploaded + deleted); [|exact Hc].
  destruct (createFTSIndex store2 storeId) as [store3 ok].
  destruct ok.
  - destruct (createVectorIndex store3 storeId) as [store4 ok'].
    cbn [fst snd] in Hc.
    apply elem_of_app in Hc as [Hc|Hc]; [exact Hc|].
    exfalso. not_a_member_of Hc Hidx.
  - cbn [fst snd] in Hc.
    apply elem_of_app in Hc as [Hc|Hc]; [exact Hc|].
    exfalso. not_a_member_of Hc Hidx.
Qed.

(** The index calls of a pass are for files the walker yielded and the
    classifier did not mark as ignored. *)
Lemma initialSync_index_calls (disk : gmap jsstring FsNode) (store : St)
    (fileSystem : FileSystem) (storeId root : jsstring) (force : bool)
    (c : StoreCall) :
  c ∈ (initialSync fingerprint disk store fileSystem storeId root
         force).1.2 →
  is_index_call c = true →
  sync_index_call fingerprint disk storeId root
    (List.filter (λ p, negb (isIgnored fileSystem p))
       (getFiles fileSystem root)) c.
Proof.
  intros Hc Hidx.
  apply initialSync_index_from_walk in Hc as (listing & _ & Hc);
    [|exact Hidx].
  apply sync_fold_calls in Hc as [Hc|Hc]; [|exact Hc].
  cbn in Hc. by apply elem_of_nil in Hc.
Qed.

End SyncFacts.

Lemma filter_none {A : Type} (f : A → bool) (l : list A) :
  (∀ x, x ∈ l → f x = false) → List.filter f l = [].
Proof.
  induction l as [|x l IH]; intros Hl; [reflexivity|].
  cbn [List.filter]. rewrite (Hl x) by left.
  apply IH. intros y Hy. apply Hl. right. exact Hy.
Defined.

Lemma watch_loop_calls {St : Type} `{Store St}
    (fingerprint : jsstring → jsstring) (storeId root : jsstring)
    (events : list WatchEvent) (st : WatchState St) (c : StoreCall) :
  c ∈ ws_calls (watch_loop fingerprint storeId root st events) →
  c ∈ ws_calls st
  ∨ ∃ ev store', ev ∈ events
      ∧ c ∈ cb_calls (watch_callback fingerprint store' storeId root ev).
Proof.
  revert st. induction events as [|ev rest IH]; intros st; cbn.
  - by left.
  - destruct (ws_watching st); [|by left].
    intros Hc. apply IH in Hc as [Hc|(ev' & store' & Hev & Hc)].
    + unfold handle_event in Hc. cbn [ws_calls] in Hc.
      apply elem_of_app in Hc as [Hc|Hc]; [by left|].
      right. exists ev, (ws_store st). split; [left|exact Hc].
    + right. exists ev', store'. split; [right; exact Hev | exact Hc].
Qed.

(** No index call of a pass is for a file the classifier marks as
    ignored. *)
Lemma initialSync_skips_ignored {St : Type} `{Store St}
    (fingerprint : jsstring → jsstring) (disk : gmap jsstring FsNode)
    (store : St) (fileSystem : FileSystem) (storeId root : jsstring)
    (force : bool) (p : jsstring) (c : StoreCall) :
  isIgnored fileSystem p = true →
  c ∈ (initialSync fingerprint disk store fileSystem storeId root
         force).1.2 →
  indexes_path p c = false.
Proof.
  intros Hign Hc. destruct (indexes_path p c) eqn:Hidx; [|reflexivity].
  exfalso. assert (Hic : is_index_call c = true)
    by (destruct c; try discriminate; reflexivity).
  apply initialSync_index_calls in Hc as (q & content & Hq & _ & ->);
    [|exact Hic].
  cbn in Hidx. apply bool_decide_eq_true in Hidx as ->.
  apply filter_In in Hq as [_ Hq]. rewrite Hign in Hq. discriminate.
Qed.

(** C1: when the walk yields no candidate file once the ignored ones are
    left out, and the collection lists no document, the pass returns
    total = 0 and indexed = 0, and its only remote call is the listing: no
    index call, no delete, and neither index is materialized. *)
Theorem initialSync_nothing_to_do {St : Type} `{Store St}
    (fingerprint : jsstring → jsstring) (disk : gmap jsstring FsNode)
    (store : St) (fileSystem : FileSystem) (storeId root : jsstring)
    (forceFullReindex : bool) :
  listFiles store storeId = Some [] →
  List.filter (λ p, negb (isIgnored fileSystem p))
    (getFiles fileSystem root) = [] →
  let r := initialSync fingerprint disk store fileSystem storeId root
             forceFullReindex in
  r.2 = Some {| total := 0; processed := 0; indexed := 0 |}
  ∧ List.filter is_index_call r.1.2 = []
  ∧ List.filter is_materialize_call r.1.2 = []
  ∧ r.1.2 = [CallListFiles storeId]
  ∧ r.1.1 = store.
Proof.
  intros Hlist Hnone. unfold initialSync. rewrite Hlist, Hnone.
  cbn. repeat split; reflexivity.
Qed.

(** The two cases of the tests: an empty repository, and a repository
    whose only file is ignored, against the fake store. *)
Lemma initialSync_nothing_to_do_witness :
  let r1 := initialSync plain_fingerprint ∅ new_FakeStore
              (StubFileSystem [] []) (js "store") tempRoot false in
  let r2 := initialSync plain_fingerprint ignored_disk new_FakeStore
              (StubFileSystem [ignoredFile] [ignoredFile]) (js "store")
              tempRoot false in
  (r1.2 = Some {| total := 0; processed := 0; indexed := 0 |}
   ∧ fake_indexed r1.1.1 = [] ∧ ftsCount r1.1.1 = 0 ∧ vecCount r1.1.1 = 0)
  ∧ (r2.2 = Some {| total := 0; processed := 0; indexed := 0 |}
     ∧ fake_indexed r2.1.1 = [] ∧ ftsCount r2.1.1 = 0
     ∧ vecCount r2.1.1 = 0).
Proof.
  intros r1 r2. split.
  - destruct (initialSync_nothing_to_do plain_fingerprint ∅ new_FakeStore
                (StubFileSystem [] []) (js "store") tempRoot false)
      as (Hres & _ & _ & _ & Hstore).
    + reflexivity.
    + reflexivity.
    + subst r1. rewrite Hres, Hstore. repeat split; reflexivity.
  - destruct (initialSync_nothing_to_do plain_fingerprint ignored_disk
                new_FakeStore (StubFileSystem [ignoredFile] [ignoredFile])
                (js "store") tempRoot false) as (Hres & _ & _ & _ & Hstore).
    + reflexivity.
    + vm_compute. reflexivity.
    + subst r2. rewrite Hres, Hstore. repeat split; reflexivity.
Defined.

(** C2: a file whose path the ignore classifier marks as ignored is never
    the subject of an index call: not in an initial sync pass (forced or
    not), and not in a run of the [watch] command, whatever notifications
    arrive and whatever the disk holds when they are handled, as long as
    the classifier marks the path whenever it is asked. *)
Theorem ignored_file_never_indexed {St : Type} `{Store St}
    (fingerprint : jsstring → jsstring) (disk : gmap jsstring FsNode)
    (store : St) (fileSystem : FileSystem) (storeId root : jsstring)
    (events : list WatchEvent) (p : jsstring) :
  isIgnored fileSystem p = true →
  (∀ ev, ev ∈ events → ev_ignored ev p root = true) →
  (∀ force c,
     c ∈ (initialSync fingerprint disk store fileSystem storeId root
            force).1.2 →
     indexes_path p c = false)
  ∧ (∀ c,
       c ∈ ws_calls (watch_action fingerprint disk fileSystem store storeId
                       root events) →
       indexes_path p c = false).
Proof.
  intros Hign Hevents. split.
  - intros force c. apply initialSync_skips_ignored, Hign.
  - intros c. unfold watch_action.
    set (prep := if retrieve store storeId then _ else _).
    assert (Hprep : ∀ c, c ∈ prep.1.2 → indexes_path p c = false).
    { subst prep. intros c'. destruct (retrieve store storeId).
      - intros ->%list_elem_of_singleton. reflexivity.
      - destruct (create store storeId) as [store' ok]. cbn.
        intros Hc. destruct (indexes_path p c') eqn:Hidx; [|reflexivity].
        exfalso. not_a_member_of Hc Hidx. }
    destruct prep as [[store1 calls0] ready]. cbn in Hprep.
    destruct ready; [|cbn; apply Hprep].
    destruct (initialSync _ _ _ _ _ _ _) as [[store2 calls1] result] eqn:Hsync.
    assert (Hcalls1 : ∀ c, c ∈ calls1 → indexes_path p c = false).
    { intros c' Hc. apply (initialSync_skips_ignored fingerprint disk store1
                             fileSystem storeId root false p c' Hign).
      rewrite Hsync. exact Hc. }
    assert (Hstart : ∀ c, c ∈ calls0 ++ calls1 → indexes_path p c = false).
    { intros c' [Hc|Hc]%elem_of_app; [apply Hprep | apply Hcalls1]; exact Hc. }
    destruct result as [result|]; [|cbn; apply Hstart].
    intros Hc. apply watch_loop_calls in Hc as [Hc|(ev & store' & Hev & Hc)].
    + apply Hstart, Hc.
    + apply watch_callback_calls in Hc
        as (filename & content & _ & _ & Hnot & ->).
      cbn. apply bool_decide_eq_false. intros Heq.
      rewrite Heq, (Hevents ev Hev) in Hnot. discriminate.
Qed.

(** The scenario of the specification: [dist/bundle.js] is ignored; the
    pass and two notifications for it leave it alone, while [a.ts] is
    indexed. *)
Lemma ignored_file_never_indexed_witness :
  let run :=
    watch_action plain_fingerprint proj_disk proj_fs empty_remote
      (js "store") watchRoot
      [event_on (Some (js "dist/bundle.js")); event_on (Some (js "a.ts"))] in
  List.filter (indexes_path (js "/home/u/proj/dist/bundle.js"))
    (ws_calls run) = []
  ∧ length (List.filter (indexes_path (js "/home/u/proj/a.ts"))
              (ws_calls run)) = 2.
Proof.
  intros run. split; [|vm_compute; reflexivity].
  destruct (ignored_file_never_indexed plain_fingerprint proj_disk
              empty_remote proj_fs (js "store") watchRoot
              [event_on (Some (js "dist/bundle.js"));
               event_on (Some (js "a.ts"))]
              (js "/home/u/proj/dist/bundle.js")) as [_ Hrun].
  - vm_compute. reflexivity.
  - intros ev Hev.
    repeat (apply elem_of_cons in Hev as [->|Hev]; [vm_compute; reflexivity|]).
    by apply elem_of_nil in Hev.
  - apply filter_none. exact Hrun.
Defined.

(** ** Identifiers under the root *)

Lemma is_prefix_spec (a b : jsstring) :
  is_prefix a b = true → b = a ++ drop (length a) b.
Proof.
  revert b. induction a as [|x a IH]; intros [|y b]; cbn;
    try reflexivity; try discriminate.
  intros [Hxy Hab]%andb_true_iff. apply N.eqb_eq in Hxy as ->.
  f_equal. apply IH, Hab.
Qed.


(** Two paths under the root with the same root-relative path are the same
    path. *)
Lemma path_relative_inj (root p q : jsstring) :
  under_root root p = true → under_root root q = true →
  path_relative root p = path_relative root q → p = q.
Proof.
  unfold path_relative. intros Hp Hq. rewrite Hp, Hq. intros Hrel.
  rewrite (is_prefix_spec _ _ Hp), (is_prefix_spec _ _ Hq). f_equal.
  exact Hrel.
Qed.

(** ** Two passes in a row against a remote collection *)

(** The listing of a collection gives each identifier the fingerprint the
    collection holds for it. *)
Lemma find_in_listing (l : list (jsstring * jsstring)) (id : jsstring) :
  match
    List.find (λ f, bool_decide (file_external_id f = id))
      (List.map (λ kv, {| file_external_id := kv.1; file_hash := kv.2 |}) l)
  with
  | Some f => (id, file_hash f) ∈ l
  | None => ∀ v, (id, v) ∉ l
  end.
Proof.
  induction l as [|[k v] l IH]; cbn.
  - intros v. apply not_elem_of_nil.
  - destruct (bool_decide (k = id)) eqn:Hk.
    + apply bool_decide_eq_true in Hk as ->. cbn. left.
    + apply bool_decide_eq_false in Hk.
      destruct (List.find _ _) as [f|].
      * right. exact IH.
      * intros v' [Heq|Hin]%elem_of_cons; [congruence|].
        exact (IH v' Hin).
Qed.

Lemma remote_hash_listing (docs : gmap jsstring jsstring) (id : jsstring) :
  remote_hash (remote_listing docs) id = docs !! id.
Proof.
  unfold remote_hash, remote_listing.
  pose proof (find_in_listing (map_to_list docs) id) as Hfind.
  destruct (List.find _ _) as [f|].
  - apply elem_of_map_to_list in Hfind. symmetry. exact Hfind.
  - destruct (docs !! id) as [v|] eqn:Hv; [|reflexivity].
    exfalso. apply (Hfind v), elem_of_map_to_list, Hv.
Qed.

Lemma stale_ids_not_local (listing : list StoreFile)
    (localIds : list jsstring) (id : jsstring) :
  In id (stale_ids listing localIds) → id ∉ localIds.
Proof.
  unfold stale_ids. intros Hin.
  apply (proj2 (list_elem_of_In _ _)) in Hin.
  apply (proj1 (elem_of_remove_dups _ _)) in Hin.
  apply (proj1 (list_elem_of_In _ _)) in Hin.
  apply filter_In in Hin as [_ Hin].
  apply negb_true_iff, bool_decide_eq_false in Hin. exact Hin.
Qed.

Section TwoPasses.

Variable fingerprint : jsstring → jsstring.
Variable disk : gmap jsstring FsNode.
Variables storeId root : jsstring.

Lemma walked_start (r0 : Remote) : walked fingerprint disk root [] r0 r0.
Proof.
  repeat split; try reflexivity. intros q content [].
Qed.

(** One more file evaluated. *)
Lemma sync_file_walked (force : bool) (listing : list StoreFile)
    (done : list jsstring) (r0 r : Remote) (calls : list StoreCall)
    (n : nat) (p : jsstring) :
  (∀ id, remote_hash listing id = remote_docs r0 !! id) →
  (∀ q, In q (done ++ [p]) → under_root root q = true) →
  remote_rejects r0 (path_relative root p) = false →
  walked fingerprint disk root done r0 r →
  walked fingerprint disk root (done ++ [p]) r0
    (sync_file fingerprint disk storeId root force listing
       (r, calls, n) p).1.1.
Proof.
  intros Hlisting Hunder Hok (Hrej & Hunr & Hdone & Hrest).
  assert (Hinj : ∀ q, In q done →
                      path_relative root q = path_relative root p → q = p).
  { intros q Hq. apply path_relative_inj; apply Hunder, in_or_app.
    - left. exact Hq.
    - right. left. reflexivity. }
  assert (Hother : ∀ id, (∀ q, In q (done ++ [p]) →
                               path_relative root q ≠ id) →
                         (∀ q, In q done → path_relative root q ≠ id)
                         ∧ path_relative root p ≠ id).
  { intros id Hid. split.
    - intros q Hq. apply Hid, in_or_app. left. exact Hq.
    - apply Hid, in_or_app. right. left. reflexivity. }
  unfold sync_file.
  destruct (readFileSync disk p) as [content|] eqn:Hread.
  2: { cbn [fst]. repeat split; try assumption.
       - intros q c [Hq|[<-|[]]]%in_app_or Hc; [|congruence].
         exact (Hdone q c Hq Hc).
       - intros id Hid. apply Hrest, Hother, Hid. }
  destruct (negb force && _) eqn:Hskip.
  - (* listed with this fingerprint: skipped *)
    apply andb_true_iff in Hskip as [_ Hsame].
    apply bool_decide_eq_true in Hsame. rewrite Hlisting in Hsame.
    cbn [fst]. repeat split; try assumption.
    + intros q c [Hq|[<-|[]]]%in_app_or Hc; [exact (Hdone q c Hq Hc)|].
      assert (c = content) as -> by congruence.
      destruct (decide (path_relative root p
                          ∈ List.map (path_relative root) done))
        as [Hin|Hnotin].
      * apply list_elem_of_In, in_map_iff in Hin as (q' & Heq & Hq').
        rewrite (Hinj q' Hq' Heq) in Hq'. exact (Hdone p content Hq' Hc).
      * rewrite Hrest; [exact Hsame|].
        intros q' Hq' Heq. apply Hnotin, list_elem_of_In, in_map_iff.
        exists q'. split; assumption.
    + intros id Hid. apply Hrest, Hother, Hid.
  - (* uploaded: the store takes the call *)
    unfold uploadFile. rewrite Hread. cbn [indexFile Remote_Store].
    cbn [external_id metadata_hash]. rewrite Hrej, Hok. cbn [fst].
    repeat split; try assumption.
    + intros q c Hq Hc. cbn [remote_docs remote_with_docs].
      destruct (decide (path_relative root q = path_relative root p))
        as [Heq|Hne].
      * rewrite Heq, lookup_insert_eq. f_equal. f_equal.
        apply in_app_or in Hq as [Hq|[<-|[]]]; [|congruence].
        rewrite (Hinj q Hq Heq) in Hc. congruence.
      * rewrite lookup_insert_ne by congruence.
        apply in_app_or in Hq as [Hq|[<-|[]]]; [|congruence].
        exact (Hdone q c Hq Hc).
    + intros id Hid. apply Hother in Hid as [Hid Hp].
      cbn [remote_docs remote_with_docs].
      rewrite lookup_insert_ne by exact Hp. apply Hrest, Hid.
Qed.

Lemma sync_fold_walked (force : bool) (listing : list StoreFile)
    (r0 : Remote) (rest done : list jsstring) (r : Remote)
    (calls : list StoreCall) (n : nat) :
  (∀ id, remote_hash listing id = remote_docs r0 !! id) →
  (∀ q, In q (done ++ rest) → under_root root q = true) →
  (∀ q, In q rest → remote_rejects r0 (path_relative root q) = false) →
  walked fingerprint disk root done r0 r →
  walked fingerprint disk root (done ++ rest) r0
    (fold_left (sync_file fingerprint disk storeId root force listing)
       rest (r, calls, n)).1.1.
Proof.
  intros Hlisting. revert done r calls n.
  induction rest as [|p rest IH]; intros done r calls n Hunder Hok Hw.
  - rewrite app_nil_r. exact Hw.
  - cbn [fold_left].
    destruct (sync_file fingerprint disk storeId root force listing
                (r, calls, n) p) as [[r' calls'] n'] eqn:Hstep.
    replace (done ++ p :: rest) with ((done ++ [p]) ++ rest)
      by (rewrite <- app_assoc; reflexivity).
    apply IH.
    + intros q Hq. apply Hunder.
      rewrite <- app_assoc in Hq. exact Hq.
    + intros q Hq. apply Hok. right. exact Hq.
    + replace r' with
        (sync_file fingerprint disk storeId root force listing
           (r, calls, n) p).1.1 by (rewrite Hstep; reflexivity).
      apply sync_file_walked; try assumption.
      * intros q Hq. apply Hunder. apply in_app_or in Hq as [Hq|[<-|[]]];
          apply in_or_app; [left; exact Hq | right; left; reflexivity].
      * apply Hok. left. reflexivity.
Qed.

(** Deleting the stale identifiers leaves the local ones alone. *)
Lemma delete_fold_local (localIds ids : list jsstring) (r : Remote)
    (calls : list StoreCall) (n : nat) :
  (∀ id, In id ids → id ∉ localIds) →
  remote_rejects (fold_left (delete_stale storeId) ids (r, calls, n)).1.1
  = remote_rejects r
  ∧ remote_unreachable
      (fold_left (delete_stale storeId) ids (r, calls, n)).1.1
    = remote_unreachable r
  ∧ ∀ id, id ∈ localIds →
      remote_docs (fold_left (delete_stale storeId) ids (r, calls, n)).1.1
        !! id
      = remote_docs r !! id.
Proof.
  revert r calls n. induction ids as [|i ids IH]; intros r calls n Hids.
  - cbn. repeat split; reflexivity.
  - assert (Hstep : delete_stale storeId (r, calls, n) i
                    = (remote_with_docs r (delete i (remote_docs r)),
                       calls ++ [CallDeleteFile storeId i], S n))
      by reflexivity.
    cbn [fold_left]. rewrite Hstep.
    destruct (IH (remote_with_docs r (delete i (remote_docs r)))
                (calls ++ [CallDeleteFile storeId i]) (S n))
      as (Hrej & Hunr & Hdocs).
    { intros id Hid. apply Hids. right. exact Hid. }
    rewrite Hrej, Hunr. repeat split; try reflexivity.
    intros id Hid. rewrite (Hdocs id Hid).
    cbn [remote_docs remote_with_docs]. apply lookup_delete_ne.
    intros ->. exact (Hids id (or_introl eq_refl) Hid).
Qed.


End TwoPasses.

(** After a pass whose uploads the collection accepts, every readable
    candidate is held under its identifier with its fingerprint. *)
Lemma first_pass_settles (fingerprint : jsstring → jsstring)
    (disk : gmap jsstring FsNode) (r : Remote) (fileSystem : FileSystem)
    (storeId root : jsstring) (force : bool) :
  let candidates :=
    List.filter (λ p, negb (isIgnored fileSystem p))
      (getFiles fileSystem root) in
  (∀ p, In p candidates → under_root root p = true) →
  (∀ p, In p candidates →
        remote_rejects r (path_relative root p) = false) →
  let r1 := (initialSync fingerprint disk r fileSystem storeId root
               force).1.1 in
  remote_unreachable r1 = remote_unreachable r
  ∧ (remote_unreachable r = false →
     ∀ p content,
       In p candidates → readFileSync disk p = Some content →
       remote_docs r1 !! path_relative root p = Some (fingerprint content)).
Proof.
  intros candidates Hunder Hok. unfold initialSync.
  cbn [listFiles Remote_Store].
  destruct (remote_unreachable r) eqn:Hreach.
  { cbn. split; [exact Hreach | discriminate]. }
  fold candidates.
  pose proof (sync_fold_walked fingerprint disk storeId root force
                (remote_listing (remote_docs r)) r candidates [] r [] 0
                (remote_hash_listing (remote_docs r)) Hunder Hok
                (walked_start fingerprint disk root r)) as Hwalk.
  destruct (fold_left (sync_file _ _ _ _ _ _) candidates _)
    as [[r' calls1] uploaded] eqn:Hsync.
  cbn [fst app] in Hwalk. destruct Hwalk as (Hrej & Hunr & Hdone & _).
  pose proof (delete_fold_local storeId
                (List.map (path_relative root) candidates)
                (stale_ids (remote_listing (remote_docs r))
                   (List.map (path_relative root) candidates))
                r' [] 0
                (stale_ids_not_local _ _)) as (_ & Hunr' & Hdocs).
  destruct (fold_left (delete_stale _) _ _)
    as [[r'' calls2] deleted] eqn:Hdel.
  cbn [fst] in Hunr', Hdocs.
  assert (Hfinal :
    remote_unreachable r'' = false
    ∧ ∀ p content,
        In p candidates → readFileSync disk p = Some content →
        remote_docs r'' !! path_relative root p
        = Some (fingerprint content)).
  { split; [congruence|]. intros p content Hp Hread.
    rewrite Hdocs; [exact (Hdone p content Hp Hread)|].
    apply list_elem_of_In, in_map. exact Hp. }
  destruct Hfinal as [Hu Hd].
  destruct (0 <? uploaded + deleted); cbn [createFTSIndex
    createVectorIndex Remote_Store fst]; split; auto.
Qed.

(** *** What a pass uploads, for any store *)

Section SecondPass.

Context {St : Type} `{Store St}.
Variable fingerprint : jsstring → jsstring.
Variable disk : gmap jsstring FsNode.
Variables storeId root : jsstring.






End SecondPass.




(** ** Joining a normalized root and a normalized relative name *)














(** ** The external identifier *)




(** ** The scenarios of the specification, run *)

(** [a.ts] is indexed, [dist/bundle.js] is skipped, and both indexes are
    materialized once. *)
Example scenario_index_one :
  (initialSync plain_fingerprint proj_disk empty_remote proj_fs
     (js "store") watchRoot false).1.2
  = [CallListFiles (js "store");
     CallIndexFile (js "store") (js "let a = 1")
       {| external_id := js "a.ts";
          metadata_path := js "/home/u/proj/a.ts";
          metadata_hash := js "let a = 1" |};
     CallCreateFTSIndex (js "store");
     CallCreateVectorIndex (js "store")]
  ∧ (initialSync plain_fingerprint proj_disk empty_remote proj_fs
       (js "store") watchRoot false).2
    = Some {| total := 1; processed := 1; indexed := 1 |}.
Proof. vm_compute. split; reflexivity. Qed.

(** A document whose file is gone is deleted, once, and not indexed. *)
Example scenario_delete_stale :
  List.filter (λ c, negb (is_index_call c))
    (initialSync plain_fingerprint proj_disk stale_remote proj_fs
       (js "store") watchRoot false).1.2
  = [CallListFiles (js "store");
     CallDeleteFile (js "store") (js "old/file.ts");
     CallCreateFTSIndex (js "store");
     CallCreateVectorIndex (js "store")].
Proof. vm_compute. reflexivity. Qed.

(** A notification for an ignored path: no remote call. *)
Example scenario_watch_ignored :
  cb_calls (watch_callback plain_fingerprint empty_remote (js "store")
              watchRoot (event_on (Some (js "dist/bundle.js")))) = [].
Proof. vm_compute. reflexivity. Qed.

(** * Further facts *)

(** ** Store names *)

Lemma sanitize_char_lower (c : N) :
  sanitize_char (ascii_lower c) = sanitize_char c.
Proof. by_class c. Qed.

(** X1: [sanitizeStoreName] works code unit by code unit: the name keeps
    its length, the name of a concatenation is the concatenation of the
    names, and the case of ASCII letters makes no difference. *)
Theorem sanitizeStoreName_per_code_unit
    (ul : jsstring → jsstring) (a b : jsstring) :
  length (sanitizeStoreName ul a) = length a
  ∧ sanitizeStoreName ul (a ++ b)
    = sanitizeStoreName ul a ++ sanitizeStoreName ul b
  ∧ sanitizeStoreName ul (List.map ascii_lower a) = sanitizeStoreName ul a.
Proof.
  split; [|split].
  - rewrite sanitize_as_map. apply length_map.
  - apply sanitize_app.
  - rewrite !sanitize_as_map, List.map_map. apply List.map_ext.
    apply sanitize_char_lower.
Qed.

(** X2: the names [sanitizeStoreName] leaves as they are are exactly those
    made of lower-case ASCII letters, digits and hyphens. *)
Theorem sanitizeStoreName_fixed_points
    (ul : jsstring → jsstring) (name : jsstring) :
  sanitizeStoreName ul name = name
  ↔ Forall (λ c, (97 ≤ c ∧ c ≤ 122) ∨ (48 ≤ c ∧ c ≤ 57) ∨ c = 45)%N name.
Proof.
  split.
  - intros Hfix. rewrite <- Hfix. apply List.Forall_forall. intros c Hc.
    apply store_alphabet_spec.
    pose proof (sanitize_alphabet ul name) as Halpha.
    rewrite forallb_forall in Halpha. apply Halpha, Hc.
  - intros Hall. apply sanitize_fixes, forallb_forall. intros c Hc.
    apply store_alphabet_spec.
    rewrite List.Forall_forall in Hall. apply Hall, Hc.
Qed.

(** ** Repository names from remote URLs *)

Lemma ends_with_app (suffix s : jsstring) :
  ends_with suffix (s ++ suffix) = true.
Proof.
  unfold ends_with. rewrite length_app.
  replace (length s + length suffix - length suffix) with (length s) by lia.
  rewrite drop_app_length.
  rewrite !bool_decide_eq_true_2 by (reflexivity || lia). reflexivity.
Qed.

Lemma strip_git_suffix_app (url : jsstring) :
  strip_git_suffix (url ++ js ".git") = url.
Proof.
  unfold strip_git_suffix. rewrite ends_with_app, length_app.
  change (length (js ".git")) with 4.
  replace (length url + 4 - 4) with (length url) by lia.
  apply take_app_length.
Qed.

Lemma split_on_not_nil (sep : N → bool) (s : jsstring) :
  split_on sep s ≠ [].
Proof.
  destruct s as [|c s]; cbn; [discriminate|].
  destruct (sep c); [discriminate|].
  destruct (split_on sep s); discriminate.
Qed.

(** The pieces of a concatenation around a separator are the pieces of
    both sides. *)
Lemma split_on_app_sep (sep : N → bool) (a b : jsstring) (c : N) :
  sep c = true →
  split_on sep (a ++ c :: b) = split_on sep a ++ split_on sep b.
Proof.
  intros Hc. induction a as [|x a IH]; cbn.
  - rewrite Hc. reflexivity.
  - rewrite IH. destruct (sep x); [reflexivity|].
    pose proof (split_on_not_nil sep a) as Hne.
    destruct (split_on sep a) as [|p ps]; [congruence | reflexivity].
Qed.

Lemma split_on_plain (sep : N → bool) (s : jsstring) :
  forallb (λ c, negb (sep c)) s = true → split_on sep s = [s].
Proof.
  induction s as [|c s IH]; cbn; [reflexivity|].
  intros [Hc Hs]%andb_true_iff. apply negb_true_iff in Hc. rewrite Hc.
  rewrite (IH Hs). reflexivity.
Qed.

Lemma url_parts_last_two (pre owner repo : jsstring) (c1 c2 : N) :
  is_url_sep c1 = true → is_url_sep c2 = true →
  url_part owner → url_part repo →
  List.filter truthy
    (split_on is_url_sep (pre ++ c1 :: owner ++ c2 :: repo))
  = List.filter truthy (split_on is_url_sep pre) ++ [owner; repo].
Proof.
  intros H1 H2 [Hno Ho] [Hnr Hr].
  rewrite (split_on_app_sep _ pre _ c1 H1).
  rewrite (split_on_app_sep _ owner _ c2 H2).
  rewrite (split_on_plain _ owner Ho), (split_on_plain _ repo Hr).
  rewrite List.filter_app. cbn [app List.filter].
  rewrite (truthy_ne owner Hno), (truthy_ne repo Hnr). reflexivity.
Qed.

Lemma extract_by_clean_url (ul : jsstring → jsstring) (u v : jsstring) :
  strip_git_suffix u = strip_git_suffix v →
  extractRepoInfoFromUrl ul u = extractRepoInfoFromUrl ul v.
Proof.
  intros Heq. unfold extractRepoInfoFromUrl. rewrite Heq. reflexivity.
Qed.

(** X3: a remote URL with and without a final [.git] names the same
    repository. *)
Theorem extractRepoInfoFromUrl_git_suffix
    (ul : jsstring → jsstring) (url : jsstring) :
  ends_with (js ".git") url = false →
  extractRepoInfoFromUrl ul (url ++ js ".git")
  = extractRepoInfoFromUrl ul url.
Proof.
  intros Hplain. apply extract_by_clean_url.
  rewrite strip_git_suffix_app. unfold strip_git_suffix.
  rewrite Hplain. reflexivity.
Qed.

Lemma extractRepoInfoFromUrl_git_suffix_witness :
  extractRepoInfoFromUrl (λ s, s) (js "https://github.com/owner/repo" ++ js ".git")
  = extractRepoInfoFromUrl (λ s, s) (js "https://github.com/owner/repo").
Proof.
  apply (extractRepoInfoFromUrl_git_suffix (λ s, s)
           (js "https://github.com/owner/repo")).
  vm_compute. reflexivity.
Defined.

(** X4: only the last two parts of the URL count.  For a URL made of any
    prefix (scheme, user, host, port), a separator ([/] or [:]), an owner,
    a separator and a repository, followed by [.git], the name is the
    lower-cased owner, a hyphen, and the lower-cased repository, whatever
    the prefix and whichever separators; so the HTTPS and the SSH URL of a
    repository agree.  The same holds of the URL without the final [.git]
    when it does not itself end in [.git]: a repository part [x.git] is
    read as [x]. *)
Theorem extractRepoInfoFromUrl_last_two
    (ul : jsstring → jsstring) (pre owner repo : jsstring) (c1 c2 : N) :
  is_url_sep c1 = true → is_url_sep c2 = true →
  url_part owner → url_part repo →
  extractRepoInfoFromUrl ul
    ((pre ++ c1 :: owner ++ c2 :: repo) ++ js ".git")
  = toLowerCase ul (owner ++ js "-" ++ repo)
  ∧ (ends_with (js ".git") (pre ++ c1 :: owner ++ c2 :: repo) = false →
     extractRepoInfoFromUrl ul (pre ++ c1 :: owner ++ c2 :: repo)
     = toLowerCase ul (owner ++ js "-" ++ repo)).
Proof.
  intros H1 H2 Ho Hr. split.
  - apply (extract_owner_repo ul _
             (List.filter truthy (split_on is_url_sep pre))).
    rewrite strip_git_suffix_app. apply url_parts_last_two; assumption.
  - intros Hplain.
    apply (extract_owner_repo ul _
             (List.filter truthy (split_on is_url_sep pre))).
    unfold strip_git_suffix. rewrite Hplain.
    apply url_parts_last_two; assumption.
Qed.

Lemma extractRepoInfoFromUrl_last_two_witness :
  extractRepoInfoFromUrl (λ s, s)
    (js "https://github.com" ++ 47%N :: js "Owner" ++ 47%N :: js "Repo")
  = js "owner-repo"
  ∧ extractRepoInfoFromUrl (λ s, s)
      ((js "git@github.com" ++ 58%N :: js "Owner" ++ 47%N :: js "Repo")
         ++ js ".git")
    = js "owner-repo"
  ∧ extractRepoInfoFromUrl (λ s, s)
      ((js "git@github.com" ++ 58%N :: js "Owner" ++ 47%N :: js "x")
         ++ js ".git")
    = js "owner-x".
Proof.
  split; [|split].
  - destruct (extractRepoInfoFromUrl_last_two (λ s, s)
                (js "https://github.com") (js "Owner") (js "Repo") 47 47)
      as [_ ->]; try reflexivity; try (split; [discriminate|reflexivity]).
  - destruct (extractRepoInfoFromUrl_last_two (λ s, s)
                (js "git@github.com") (js "Owner") (js "Repo") 58 47)
      as [-> _]; try reflexivity; try (split; [discriminate|reflexivity]).
  - destruct (extractRepoInfoFromUrl_last_two (λ s, s)
                (js "git@github.com") (js "Owner") (js "x") 58 47)
      as [-> _]; try reflexivity; try (split; [discriminate|reflexivity]).
Defined.

Lemma split_on_parts (P : N → bool) (sep : N → bool) (s : jsstring) :
  forallb P s = true →
  Forall (λ p, forallb P p = true ∧ forallb (λ c, negb (sep c)) p = true)
    (split_on sep s).
Proof.
  induction s as [|c s IH]; cbn.
  - intros _. repeat constructor.
  - intros [Hc Hs]%andb_true_iff. specialize (IH Hs).
    destruct (sep c) eqn:Hsep.
    + constructor; [split; reflexivity | exact IH].
    + destruct (split_on sep s) as [|p ps]; [repeat constructor|].
      * cbn. rewrite Hc. reflexivity.
      * cbn. rewrite Hsep. reflexivity.
      * apply Forall_cons in IH as [[Hp Hp'] Hps]. constructor; [|exact Hps].
        cbn. rewrite Hc, Hp, Hsep, Hp'. split; reflexivity.
Qed.

Lemma lower_repo_name_char (c : N) :
  is_ascii c = true → is_url_sep c = false →
  repo_name_char (ascii_lower c) = true.
Proof.
  unfold repo_name_char, is_url_sep. by_class c.
Qed.

Lemma lower_repo_name (s : jsstring) :
  forallb is_ascii s = true →
  forallb (λ c, negb (is_url_sep c)) s = true →
  forallb repo_name_char (List.map ascii_lower s) = true.
Proof.
  induction s as [|c s IH]; cbn; [reflexivity|].
  intros [Hc Hs]%andb_true_iff [Hc' Hs']%andb_true_iff.
  apply negb_true_iff in Hc'.
  rewrite (lower_repo_name_char c Hc Hc'), (IH Hs Hs'). reflexivity.
Qed.

(** X5: for a URL of ASCII code units, the repository name is not empty
    and is made of ASCII code units other than [/], [:] and the upper-case
    letters. *)
Theorem extractRepoInfoFromUrl_ascii
    (ul : jsstring → jsstring) (url : jsstring) :
  forallb is_ascii url = true →
  extractRepoInfoFromUrl ul url ≠ []
  ∧ forallb repo_name_char (extractRepoInfoFromUrl ul url) = true.
Proof.
  intros Hascii. unfold extractRepoInfoFromUrl.
  set (parts := List.filter truthy _).
  assert (Hparts : ∀ p, In p parts →
            p ≠ [] ∧ forallb is_ascii p = true
            ∧ forallb (λ c, negb (is_url_sep c)) p = true).
  { intros p Hp. apply filter_In in Hp as [Hp Ht].
    assert (Hclean : forallb is_ascii (strip_git_suffix url) = true).
    { unfold strip_git_suffix. destruct (ends_with _ _); [|exact Hascii].
      apply forallb_take, Hascii. }
    pose proof (split_on_parts is_ascii is_url_sep _ Hclean) as Hall.
    rewrite List.Forall_forall in Hall. destruct (Hall p Hp) as [Ha Hs].
    split; [|split; assumption]. intros ->. discriminate. }
  assert (Hlookup : ∀ i p, parts !! i = Some p → In p parts).
  { intros i p Hi. apply list_elem_of_In, list_elem_of_lookup. eauto. }
  assert (Hlower : ∀ s, s ≠ [] → forallb is_ascii s = true →
            forallb (λ c, negb (is_url_sep c)) s = true →
            toLowerCase ul s ≠ []
            ∧ forallb repo_name_char (toLowerCase ul s) = true).
  { intros s Hne Ha Hs. unfold toLowerCase. rewrite Ha. split.
    - destruct s; [congruence | discriminate].
    - apply lower_repo_name; assumption. }
  assert (Hunknown : js "unknown-repo" ≠ []
                     ∧ forallb repo_name_char (js "unknown-repo") = true)
    by (split; [discriminate | reflexivity]).
  destruct (2 <=? length parts).
  - destruct (parts !! (length parts - 1)) as [repo|] eqn:Hrepo.
    + destruct (parts !! (length parts - 2)) as [owner|] eqn:Howner.
      * destruct (Hparts repo (Hlookup _ _ Hrepo)) as (Hnr & Har & Hsr).
        destruct (Hparts owner (Hlookup _ _ Howner)) as (Hno & Hao & Hso).
        rewrite (truthy_ne repo Hnr), (truthy_ne owner Hno). cbn [andb].
        apply Hlower.
        -- destruct owner; [congruence | discriminate].
        -- rewrite !forallb_app, Hao, Har. reflexivity.
        -- rewrite !forallb_app, Hso, Hsr. reflexivity.
      * destruct (length parts =? 0); [exact Hunknown|].
        destruct (Hparts repo (Hlookup _ _ Hrepo)) as (Hnr & Har & Hsr).
        destruct (Hlower repo Hnr Har Hsr) as [Hne Hok].
        cbn zeta. rewrite (truthy_ne _ Hne). split; assumption.
    + destruct (length parts =? 0); exact Hunknown.
  - destruct (length parts =? 0); [exact Hunknown|].
    destruct (parts !! (length parts - 1)) as [p|] eqn:Hp;
      [|exact Hunknown].
    destruct (Hparts p (Hlookup _ _ Hp)) as (Hnp & Hap & Hsp).
    destruct (Hlower p Hnp Hap Hsp) as [Hne Hok].
    cbn zeta. rewrite (truthy_ne _ Hne). split; assumption.
Qed.

Lemma extractRepoInfoFromUrl_ascii_witness :
  extractRepoInfoFromUrl (λ s, s) (js "ssh://git@Server:2222/Project/Repo")
  ≠ []
  ∧ forallb repo_name_char
      (extractRepoInfoFromUrl (λ s, s)
         (js "ssh://git@Server:2222/Project/Repo")) = true.
Proof.
  apply (extractRepoInfoFromUrl_ascii (λ s, s)
           (js "ssh://git@Server:2222/Project/Repo")).
  vm_compute. reflexivity.
Defined.

(** ** The automatic store id *)

Lemma getAutoStoreId_sanitized (ul resolve : jsstring → jsstring)
    (sha256 : jsstring → list Byte.byte) (git : Git) (targetDir : jsstring) :
  ∃ raw, getAutoStoreId ul resolve sha256 git targetDir
         = sanitizeStoreName ul raw.
Proof.
  unfold getAutoStoreId.
  destruct (getRepositoryRoot git (resolve targetDir)) as [| |root];
    try (eexists; reflexivity).
  destruct (truthy root); [|eexists; reflexivity].
  destruct (getRemoteUrl git root) as [| |remote]; try (eexists; reflexivity).
  destruct (truthy remote); eexists; reflexivity.
Qed.

Lemma getAutoStoreId_fallback (ul resolve : jsstring → jsstring)
    (sha256 : jsstring → list Byte.byte) (git : Git) (targetDir : jsstring) :
  (∀ remote, ¬ in_repo_with_remote git (resolve targetDir) remote) →
  getAutoStoreId ul resolve sha256 git targetDir
  = sanitizeStoreName ul (basename (resolve targetDir)) ++ js "-"
      ++ take 8 (hex_of_bytes (sha256 (resolve targetDir))).
Proof.
  intros Hnone. unfold getAutoStoreId.
  assert (Hfallback :
    sanitizeStoreName ul
      (basename (resolve targetDir) ++ js "-"
         ++ take 8 (hex_of_bytes (sha256 (resolve targetDir))))
    = sanitizeStoreName ul (basename (resolve targetDir)) ++ js "-"
        ++ take 8 (hex_of_bytes (sha256 (resolve targetDir)))).
  { rewrite !sanitize_app. f_equal. f_equal.
    apply sanitize_fixes, forallb_take, hex_of_bytes_alphabet. }
  destruct (getRepositoryRoot git (resolve targetDir)) as [| |root] eqn:Hroot;
    try exact Hfallback.
  destruct (truthy root) eqn:Htr; [|exact Hfallback].
  destruct (getRemoteUrl git root) as [| |remote] eqn:Hremote;
    try exact Hfallback.
  destruct (truthy remote) eqn:Htm; [|exact Hfallback].
  exfalso. apply (Hnone remote). exists root.
  repeat split; try assumption; intros ->; discriminate.
Qed.

(** X6: whatever git answers, the automatic store id is a sanitized name:
    it is made of lower-case ASCII letters, digits and hyphens, and
    sanitizing it again changes nothing. *)
Theorem getAutoStoreId_is_store_name (ul resolve : jsstring → jsstring)
    (sha256 : jsstring → list Byte.byte) (git : Git) (targetDir : jsstring) :
  Forall (λ c, (97 ≤ c ∧ c ≤ 122) ∨ (48 ≤ c ∧ c ≤ 57) ∨ c = 45)%N
    (getAutoStoreId ul resolve sha256 git targetDir)
  ∧ sanitizeStoreName ul (getAutoStoreId ul resolve sha256 git targetDir)
    = getAutoStoreId ul resolve sha256 git targetDir.
Proof.
  destruct (getAutoStoreId_sanitized ul resolve sha256 git targetDir)
    as [raw ->].
  pose proof (sanitize_alphabet ul raw) as Halpha. split.
  - apply List.Forall_forall. intros c Hc. apply store_alphabet_spec.
    rewrite forallb_forall in Halpha. apply Halpha, Hc.
  - apply sanitize_fixes, Halpha.
Qed.

Lemma length_hex_of_bytes (bs : list Byte.byte) :
  length (hex_of_bytes bs) = 2 * length bs.
Proof.
  induction bs as [|b bs IH]; cbn [hex_of_bytes length]; [reflexivity|].
  rewrite IH. lia.
Qed.

(** X7: without a remote, two directories get the same store id exactly
    when their base names sanitize to the same name and the digests of
    their paths start with the same 8 hexadecimal characters (the digest
    having at least 4 bytes, as SHA-256 has). *)
Theorem getAutoStoreId_fallback_collision (ul resolve : jsstring → jsstring)
    (sha256 : jsstring → list Byte.byte) (git : Git) (d1 d2 : jsstring) :
  (∀ remote, ¬ in_repo_with_remote git (resolve d1) remote) →
  (∀ remote, ¬ in_repo_with_remote git (resolve d2) remote) →
  4 ≤ length (sha256 (resolve d1)) → 4 ≤ length (sha256 (resolve d2)) →
  getAutoStoreId ul resolve sha256 git d1
  = getAutoStoreId ul resolve sha256 git d2
  ↔ sanitizeStoreName ul (basename (resolve d1))
    = sanitizeStoreName ul (basename (resolve d2))
    ∧ take 8 (hex_of_bytes (sha256 (resolve d1)))
      = take 8 (hex_of_bytes (sha256 (resolve d2))).
Proof.
  intros H1 H2 Hlen1 Hlen2.
  rewrite (getAutoStoreId_fallback ul resolve sha256 git d1 H1).
  rewrite (getAutoStoreId_fallback ul resolve sha256 git d2 H2).
  split.
  - intros Heq. apply app_inj_2 in Heq as [Hname Hhash].
    + split; [exact Hname|]. injection Hhash as Hhash. exact Hhash.
    + rewrite !length_app, !length_take, !length_hex_of_bytes. lia.
  - intros [-> ->]. reflexivity.
Qed.

Lemma getAutoStoreId_fallback_collision_witness :
  getAutoStoreId (λ s, s) (λ d, d) sample_digest git_without_repo
    (js "/home/u/My Proj")
  = getAutoStoreId (λ s, s) (λ d, d) sample_digest git_without_repo
      (js "/srv/my_proj").
Proof.
  apply (getAutoStoreId_fallback_collision (λ s, s) (λ d, d) sample_digest
           git_without_repo (js "/home/u/My Proj") (js "/srv/my_proj")).
  - intros remote (root & Hroot & _). discriminate Hroot.
  - intros remote (root & Hroot & _). discriminate Hroot.
  - cbn. lia.
  - cbn. lia.
  - split; vm_compute; reflexivity.
Defined.

Lemma take_while_app_stop (f : N → bool) (a b : jsstring) (c : N) :
  forallb f a = true → f c = false → take_while f (a ++ c :: b) = a.
Proof.
  intros Ha Hc. induction a as [|x a IH]; cbn.
  - rewrite Hc. reflexivity.
  - cbn in Ha. apply andb_true_iff in Ha as [Hx Ha]. rewrite Hx.
    rewrite (IH Ha). reflexivity.
Qed.

Lemma forallb_rev (f : N → bool) (s : jsstring) :
  forallb f (rev s) = forallb f s.
Proof.
  induction s as [|c s IH]; [reflexivity|].
  cbn [rev]. rewrite forallb_app, IH. cbn. rewrite andb_true_r.
  apply andb_comm.
Qed.

(** [path.basename] of a directory and a name under it is the name. *)
Lemma basename_join (dir name : jsstring) :
  name ≠ [] → no_slash name = true →
  basename (dir ++ 47%N :: name) = name.
Proof.
  intros Hne Hplain. unfold basename.
  rewrite rev_app_distr. cbn [rev]. rewrite <- app_assoc. cbn [app].
  assert (Hrev : forallb (λ c, negb (is_slash c)) (rev name) = true)
    by (rewrite forallb_rev; exact Hplain).
  destruct (rev name) as [|c r] eqn:Hr.
  { exfalso. apply Hne. rewrite <- (rev_involutive name), Hr. reflexivity. }
  cbn in Hrev. apply andb_true_iff in Hrev as [Hc Hrest].
  cbn [app drop_while]. apply negb_true_iff in Hc. rewrite Hc.
  change (c :: r ++ 47%N :: rev dir) with ((c :: r) ++ 47%N :: rev dir).
  rewrite take_while_app_stop.
  - rewrite <- Hr. apply rev_involutive.
  - cbn. rewrite Hc, Hrest. reflexivity.
  - reflexivity.
Qed.

(** X8: without a remote (git throws, finds no repository, or finds no
    remote URL), a directory is named after its last path segment: the id
    is the sanitized segment, a hyphen, and the first 8 hexadecimal
    characters of the digest of the whole path. *)
Theorem getAutoStoreId_names_last_segment (ul resolve : jsstring → jsstring)
    (sha256 : jsstring → list Byte.byte) (git : Git)
    (targetDir dir name : jsstring) :
  resolve targetDir = dir ++ 47%N :: name →
  name ≠ [] → no_slash name = true →
  (∀ remote, ¬ in_repo_with_remote git (resolve targetDir) remote) →
  getAutoStoreId ul resolve sha256 git targetDir
  = sanitizeStoreName ul name ++ js "-"
      ++ take 8 (hex_of_bytes (sha256 (dir ++ 47%N :: name))).
Proof.
  intros Hpath Hne Hplain Hnone.
  rewrite (getAutoStoreId_fallback ul resolve sha256 git targetDir Hnone).
  rewrite Hpath, basename_join by assumption. reflexivity.
Qed.

Lemma getAutoStoreId_names_last_segment_witness :
  getAutoStoreId (λ s, s) (λ d, d) sample_digest git_without_repo
    (js "/home/u" ++ 47%N :: js "My Proj")
  = js "my-proj-1234abcd".
Proof.
  rewrite (getAutoStoreId_names_last_segment (λ s, s) (λ d, d) sample_digest
             git_without_repo (js "/home/u" ++ 47%N :: js "My Proj")
             (js "/home/u") (js "My Proj")).
  - vm_compute. reflexivity.
  - reflexivity.
  - discriminate.
  - reflexivity.
  - intros remote (root & Hroot & _). discriminate Hroot.
Defined.

(** ** More on the watcher *)

(** X9: the callback starts an upload exactly when the notification passes
    its three guards (a file name, a regular file at the resolved path, a
    path that is not ignored), and then exactly one, for that path and
    under that file name; when a guard fails it makes no remote call and
    leaves the store as it was. *)
Theorem watch_callback_guards {St : Type} `{Store St}
    (fingerprint : jsstring → jsstring) (store : St)
    (storeId root : jsstring) (ev : WatchEvent) :
  let r := watch_callback fingerprint store storeId root ev in
  List.filter is_upload_effect (cb_effects r) = upload_started storeId root ev
  ∧ (cb_upload r ≠ None ↔ passes_guards root ev = true)
  ∧ (passes_guards root ev = false →
     cb_calls r = [] ∧ cb_store r = store).
Proof.
  unfold watch_callback, upload_started, passes_guards.
  destruct (ev_filename ev) as [filename|].
  2: { cbn. repeat split; try reflexivity; try congruence; discriminate. }
  destruct (truthy filename).
  2: { cbn. repeat split; try reflexivity; try congruence; discriminate. }
  cbn [negb andb].
  destruct (statSync_isFile _ _) as [[|]|];
    try (cbn; repeat split; try reflexivity; try congruence; discriminate).
  destruct (ev_ignored ev _ _);
    try (cbn; repeat split; try reflexivity; try congruence; discriminate).
  destruct (uploadFile _ _ _ _ _ _) as [[store' calls] ok].
  cbn [negb cb_effects cb_upload cb_calls cb_store].
  split; [|split].
  - destruct ok; reflexivity.
  - split; [reflexivity | discriminate].
  - discriminate.
Qed.

(** X11: the watcher does not coalesce notifications: while it is
    watching, every notification that passes the guards starts its own
    upload, whatever the store holds and however earlier uploads ended;
    the uploads of a run are those of its notifications, in order. *)
Theorem watch_loop_uploads {St : Type} `{Store St}
    (fingerprint : jsstring → jsstring) (storeId root : jsstring)
    (events : list WatchEvent) (st : WatchState St) :
  ws_watching st = true →
  List.filter is_upload_effect
    (ws_effects (watch_loop fingerprint storeId root st events))
  = List.filter is_upload_effect (ws_effects st)
    ++ List.flat_map (upload_started storeId root) events.
Proof.
  revert st. induction events as [|ev rest IH]; intros st Hst; cbn.
  - rewrite app_nil_r. reflexivity.
  - rewrite Hst. rewrite IH by apply handle_event_watching.
    unfold handle_event at 1. cbn [ws_effects].
    rewrite List.filter_app, <- app_assoc. f_equal. f_equal.
    apply watch_callback_uploads.
Qed.

Lemma watch_loop_uploads_witness :
  List.filter is_upload_effect
    (ws_effects
       (watch_loop plain_fingerprint (js "store") watchRoot
          {| ws_store := empty_remote; ws_effects := []; ws_calls := [];
             ws_watching := true |}
          [event_on (Some (js "a.ts")); event_on (Some (js "src"));
           event_on (Some (js "a.ts"))]))
  = [UploadFile (js "store") (js "/home/u/proj/a.ts") (js "a.ts");
     UploadFile (js "store") (js "/home/u/proj/a.ts") (js "a.ts")].
Proof.
  rewrite (watch_loop_uploads plain_fingerprint (js "store") watchRoot).
  - vm_compute. reflexivity.
  - reflexivity.
Defined.

(** X12: when the store can be neither retrieved nor created, the [watch]
    command stops there: its only remote calls are the retrieve and the
    create, no pass runs, and no notification is ever handled. *)
Theorem watch_action_without_store {St : Type} `{Store St}
    (fingerprint : jsstring → jsstring) (disk : gmap jsstring FsNode)
    (fileSystem : FileSystem) (store : St) (storeId root : jsstring)
    (events : list WatchEvent) :
  retrieve store storeId = false →
  (create store storeId).2 = false →
  let run := watch_action fingerprint disk fileSystem store storeId root
               events in
  ws_calls run = [CallRetrieve storeId; CallCreate storeId]
  ∧ ws_effects run = []
  ∧ ws_watching run = false
  ∧ ws_store run = (create store storeId).1.
Proof.
  intros Hretrieve Hcreate. unfold watch_action. rewrite Hretrieve.
  destruct (create store storeId) as [store' ok]. cbn in Hcreate.
  subst ok. cbn. repeat split; reflexivity.
Qed.

Lemma watch_action_without_store_witness :
  ws_calls (watch_action plain_fingerprint proj_disk proj_fs missing_remote
              (js "store") watchRoot [event_on (Some (js "a.ts"))])
  = [CallRetrieve (js "store"); CallCreate (js "store")].
Proof.
  apply (watch_action_without_store plain_fingerprint proj_disk proj_fs
           missing_remote (js "store") watchRoot
           [event_on (Some (js "a.ts"))]); reflexivity.
Defined.

(** ** Printing and reading a process id *)

Lemma digits_value_snoc (ds : jsstring) (d : N) :
  digits_value (ds ++ [d]) = (10 * digits_value ds + (Z.of_N d - 48))%Z.
Proof. unfold digits_value. rewrite fold_left_app. reflexivity. Qed.

Lemma is_digit_of_mod (n : N) : is_digit (48 + n mod 10) = true.
Proof.
  pose proof (N.mod_lt n 10 ltac:(lia)) as Hlt.
  set (m := (n mod 10)%N) in *. clearbody m.
  unfold is_digit. cmp_to_lia.
Qed.

(** The digits printed for [n] are decimal digits, at least one, and their
    value is [n]. *)
Lemma decimal_digits_spec (fuel : nat) (n : N) (acc : jsstring) :
  (n < 2 ^ N.of_nat (S fuel))%N →
  ∃ ds, decimal_digits (S fuel) n acc = ds ++ acc
        ∧ ds ≠ [] ∧ forallb is_digit ds = true
        ∧ digits_value ds = Z.of_N n.
Proof.
  revert n acc. induction fuel as [|fuel IH]; intros n acc Hn.
  - assert (Hsmall : (n < 10)%N) by (change (2 ^ N.of_nat 1)%N with 2%N in Hn; lia).
    cbn [decimal_digits].
    destruct (N.ltb_spec n 10) as [_|]; [|lia].
    exists [(48 + n mod 10)%N]. repeat split; try discriminate.
    + cbn. rewrite is_digit_of_mod. reflexivity.
    + rewrite N.mod_small by lia. unfold digits_value. cbn. lia.
  - change (decimal_digits (S (S fuel)) n acc)
      with (if (n <? 10)%N then (48 + n mod 10)%N :: acc
            else decimal_digits (S fuel) (n / 10)
                   ((48 + n mod 10)%N :: acc)).
    destruct (N.ltb_spec n 10) as [Hsmall|Hbig].
    + exists [(48 + n mod 10)%N]. repeat split; try discriminate.
      * cbn. rewrite is_digit_of_mod. reflexivity.
      * rewrite N.mod_small by lia. unfold digits_value. cbn. lia.
    + destruct (IH (n / 10)%N ((48 + n mod 10)%N :: acc))
        as (ds & Heq & Hne & Hdigits & Hvalue).
      { apply N.Div0.div_lt_upper_bound.
        rewrite Nat2N.inj_succ, N.pow_succ_r' in Hn. lia. }
      exists (ds ++ [(48 + n mod 10)%N]). repeat split.
      * rewrite Heq, <- app_assoc. reflexivity.
      * destruct ds; discriminate.
      * rewrite forallb_app, Hdigits. cbn. rewrite is_digit_of_mod.
        reflexivity.
      * rewrite digits_value_snoc, Hvalue.
        pose proof (N.div_mod n 10 ltac:(lia)) as Hdm. lia.
Qed.

Lemma decimal_spec (n : N) :
  ∃ ds, decimal n = ds ∧ ds ≠ [] ∧ forallb is_digit ds = true
        ∧ digits_value ds = Z.of_N n.
Proof.
  unfold decimal.
  destruct (decimal_digits_spec (N.to_nat (N.log2 n)) n [])
    as (ds & Heq & Hne & Hdigits & Hvalue).
  - rewrite Nat2N.inj_succ, N2Nat.id.
    destruct (N.eq_dec n 0%N) as [->|Hpos]; [reflexivity|].
    apply N.log2_spec. lia.
  - exists ds. rewrite Heq, app_nil_r. repeat split; assumption.
Qed.

Lemma take_while_all (f : N → bool) (s : jsstring) :
  forallb f s = true → take_while f s = s.
Proof.
  induction s as [|c s IH]; cbn; [reflexivity|].
  intros [Hc Hs]%andb_true_iff. rewrite Hc, (IH Hs). reflexivity.
Qed.

Lemma digit_not_space_or_sign (c : N) :
  is_digit c = true →
  is_js_whitespace c = false ∧ c ≠ 45%N ∧ c ≠ 43%N.
Proof.
  unfold is_digit, is_js_whitespace. intros Hc.
  apply andb_true_iff in Hc as [Hlo Hhi].
  apply N.leb_le in Hlo. apply N.leb_le in Hhi.
  split; [|lia]. cmp_to_lia; exfalso; lia.
Qed.

(** [parseInt] reads back what [toString] printed for a number that is not
    negative. *)
Lemma parseInt10_number_to_string (z : Z) :
  (0 ≤ z)%Z → parseInt10 (number_to_string z) = NumInt z.
Proof.
  intros Hz. unfold number_to_string.
  destruct (Z.ltb_spec z 0) as [|_]; [lia|].
  destruct (decimal_spec (Z.to_N z)) as (ds & -> & Hne & Hdigits & Hvalue).
  unfold parseInt10. destruct ds as [|d ds]; [congruence|].
  pose proof Hdigits as Hall. cbn in Hdigits.
  apply andb_true_iff in Hdigits as [Hd _].
  destruct (digit_not_space_or_sign d Hd) as (Hws & Hminus & Hplus).
  cbn [drop_while]. rewrite Hws.
  assert (Hsign : match d :: ds with
                  | 45%N :: r => (true, r)
                  | 43%N :: r => (false, r)
                  | _ => (false, d :: ds)
                  end = (false, d :: ds)).
  { destruct d as [|p]; [reflexivity|].
    do 6 (destruct p as [p|p|]; try reflexivity); congruence. }
  rewrite Hsign. rewrite (take_while_all is_digit (d :: ds) Hall).
  rewrite Hvalue. f_equal. lia.
Qed.

(** ** More on the stop hooks *)

Lemma os_kill_running (w : HookWorld) (z : Z) :
  (0 < z)%Z → (∃ p, p ∈ hw_procs w ∧ proc_pid p = z) →
  os_kill w z = Some [z].
Proof.
  intros Hz (p & Hp & Hpid). unfold os_kill.
  destruct (Z.ltb_spec 0 z) as [_|]; [|lia].
  replace (existsb (λ q, (proc_pid q =? z)%Z) (hw_procs w)) with true;
    [reflexivity|].
  symmetry. apply existsb_exists. exists p.
  split; [apply list_elem_of_In, Hp | apply Z.eqb_eq, Hpid].
Qed.

Lemma process_kill_running (w : HookWorld) (z : Z) :
  (0 < z ≤ 2147483647)%Z → (∃ p, p ∈ hw_procs w ∧ proc_pid p = z) →
  process_kill w (NumInt z) = Some [z].
Proof.
  intros Hz Hp. unfold process_kill.
  destruct (Z.leb_spec (-2147483648) z); [|lia].
  destruct (Z.leb_spec z 2147483647); [|lia].
  cbn [andb]. apply os_kill_running; [lia | exact Hp].
Qed.

Lemma process_kill_self_succeeds (w : HookWorld) (pid : JsNumber) :
  process_kill_self w pid = true →
  ∃ signalled, process_kill w pid = Some signalled.
Proof.
  destruct pid as [z|]; [|discriminate]. unfold process_kill_self,
    process_kill.
  destruct ((-2147483648 <=? z)%Z && (z <=? 2147483647)%Z); [|discriminate].
  cbn [andb]. unfold signals_self, os_kill.
  destruct (0 <? z)%Z.
  - intros [Hown Habsent]%andb_true_iff.
    apply negb_true_iff in Habsent. rewrite Habsent, Hown. eauto.
  - destruct (z =? 0)%Z; [eauto|].
    destruct (z =? -1)%Z; [discriminate|]. intros ->.
    destruct (List.map _ _); eauto.
Qed.

Lemma process_kill_self_running (w : HookWorld) (z : Z) :
  (0 < z)%Z → (∃ p, p ∈ hw_procs w ∧ proc_pid p = z) →
  process_kill_self w (NumInt z) = false.
Proof.
  intros Hz (p & Hp & Hpid). unfold process_kill_self, signals_self.
  destruct (Z.ltb_spec 0 z) as [_|]; [|lia].
  replace (existsb (λ q, (proc_pid q =? z)%Z) (hw_procs w)) with true.
  - cbn [negb]. rewrite andb_false_r, andb_false_r. reflexivity.
  - symmetry. apply existsb_exists. exists p.
    split; [apply list_elem_of_In, Hp | apply Z.eqb_eq, Hpid].
Qed.

Lemma process_kill_self_zero (w : HookWorld) :
  process_kill_self w (NumInt 0) = true.
Proof. reflexivity. Qed.

Lemma lock_pid_exists (parse : jsstring → option JsValue)
    (files : gmap jsstring FsNode) (lockPath : jsstring) (pid : JsNumber) :
  lock_pid parse files lockPath = Some pid →
  ∃ text data, files !! lockPath = Some (RegularFile text)
               ∧ parse text = Some data
               ∧ get_prop_opt data (js "pid") = VNumber pid.
Proof.
  unfold lock_pid, readFileSync.
  destruct (files !! lockPath) as [[text|]|]; try discriminate.
  destruct (parse text) as [data|] eqn:Hparse; [|discriminate].
  destruct (get_prop_opt data (js "pid")) eqn:Hpid; try discriminate.
  intros [= ->]. exists text, data. repeat split; assumption.
Qed.

(** What [stop.js] signals when the lock file records a process id. *)
Lemma stop_main_with_pid (parse : jsstring → option JsValue)
    (w : HookWorld) (lockPath : jsstring) (pid : JsNumber) :
  stop_lock_path parse w = Some lockPath →
  lock_pid parse (hw_files w) lockPath = Some pid →
  hr_failed (stop_main parse w) = false
  ∧ hr_signals (stop_main parse w)
    = match process_kill w pid with
      | Some signalled => signalled
      | None => pkill_targets w
      end.
Proof.
  intros Hpath Hpid. unfold stop_main. rewrite Hpath.
  apply lock_pid_exists in Hpid as (text & data & Hfile & Hparse & Hprop).
  unfold existsSync, readFileSync. rewrite Hfile, Hparse, Hprop.
  unfold killPid.
  destruct (process_kill_self w pid) eqn:Hself.
  - destruct (process_kill_self_succeeds w pid Hself) as [signalled ->].
    split; reflexivity.
  - destruct (process_kill w pid) as [signalled|]; cbn.
    + rewrite app_nil_r. split; reflexivity.
    + split; reflexivity.
Qed.

(** X13: when the lock file of [stop.js] records the process id of a
    running process, exactly that process is signalled and the pkill
    fallback is not run: other [osgrep serve] processes are left alone. *)
Theorem stop_main_kills_recorded (parse : jsstring → option JsValue)
    (w : HookWorld) (lockPath : jsstring) (z : Z) :
  stop_lock_path parse w = Some lockPath →
  lock_pid parse (hw_files w) lockPath = Some (NumInt z) →
  (0 < z ≤ 2147483647)%Z →
  (∃ p, p ∈ hw_procs w ∧ proc_pid p = z) →
  hr_failed (stop_main parse w) = false
  ∧ hr_signals (stop_main parse w) = [z].
Proof.
  intros Hpath Hpid Hz Hrunning.
  destruct (stop_main_with_pid parse w lockPath (NumInt z) Hpath Hpid)
    as [Hok Hsig].
  rewrite Hsig, (process_kill_running w z Hz Hrunning).
  split; [exact Hok | reflexivity].
Qed.

Lemma stop_main_kills_recorded_witness :
  hr_signals (stop_main parse_lock locked_world) = [4242%Z].
Proof.
  apply (stop_main_kills_recorded parse_lock locked_world
           (js "/w/.osgrep/server.json") 4242).
  - vm_compute. reflexivity.
  - vm_compute. reflexivity.
  - lia.
  - eexists. split; [apply list_elem_of_here | reflexivity].
Defined.

(** X14: when the process the lock file records cannot be signalled (it is
    gone, or the number is no valid process id), [stop.js] falls back on
    pkill and signals every process whose command line matches. *)
Theorem stop_main_stale_pid (parse : jsstring → option JsValue)
    (w : HookWorld) (lockPath : jsstring) (pid : JsNumber) :
  stop_lock_path parse w = Some lockPath →
  lock_pid parse (hw_files w) lockPath = Some pid →
  process_kill w pid = None →
  hr_failed (stop_main parse w) = false
  ∧ hr_signals (stop_main parse w) = pkill_targets w.
Proof.
  intros Hpath Hpid Hgone.
  destruct (stop_main_with_pid parse w lockPath pid Hpath Hpid)
    as [Hok Hsig].
  rewrite Hsig, Hgone. split; [exact Hok | reflexivity].
Qed.

Lemma stop_main_stale_pid_witness :
  hr_signals (stop_main parse_lock stale_lock_world) = [5151%Z].
Proof.
  destruct (stop_main_stale_pid parse_lock stale_lock_world
              (js "/w/.osgrep/server.json") (NumInt 4242)) as [_ ->].
  - vm_compute. reflexivity.
  - vm_compute. reflexivity.
  - vm_compute. reflexivity.
  - vm_compute. reflexivity.
Defined.

(** X15: [stop.js] touches no file but its lock file.  A lock file that
    is a regular file is removed, whatever it holds, unless the process id
    it records names the hook itself (its own pid, 0, or minus its own
    process group): then the hook ends by its own signal inside
    [process.kill], the lock file stays and pkill is not run.  A lock path
    that is absent or a directory is left as it is. *)
Theorem stop_main_files (parse : jsstring → option JsValue)
    (w : HookWorld) (lockPath : jsstring) :
  stop_lock_path parse w = Some lockPath →
  (∀ p, p ≠ lockPath →
        hr_files (stop_main parse w) !! p = hw_files w !! p)
  ∧ (∀ content,
       hw_files w !! lockPath = Some (RegularFile content) →
       (∀ pid, lock_pid parse (hw_files w) lockPath = Some pid →
               process_kill_self w pid = false) →
       hr_terminated (stop_main parse w) = false
       ∧ hr_files (stop_main parse w) !! lockPath = None)
  ∧ (∀ pid,
       lock_pid parse (hw_files w) lockPath = Some pid →
       process_kill_self w pid = true →
       hr_terminated (stop_main parse w) = true
       ∧ hr_files (stop_main parse w) = hw_files w
       ∧ process_kill w pid = Some (hr_signals (stop_main parse w)))
  ∧ (hw_files w !! lockPath = None
     ∨ hw_files w !! lockPath = Some Directory →
     hr_terminated (stop_main parse w) = false
     ∧ hr_files (stop_main parse w) = hw_files w).
Proof.
  intros Hpath. unfold stop_main, lock_pid. rewrite Hpath.
  unfold existsSync, unlinkSync, readFileSync, killPid.
  destruct (hw_files w !! lockPath) as [[content|]|] eqn:Hfile.
  - assert (Hplain : ∀ killed signalled,
      let r := {| hr_failed := false; hr_terminated := false;
                  hr_signals := signalled
                                ++ (if killed : bool then []
                                    else pkill_targets w);
                  hr_files := delete lockPath (hw_files w);
                  hr_stdout := [] |} in
      (∀ p, p ≠ lockPath → hr_files r !! p = hw_files w !! p)
      ∧ hr_terminated r = false ∧ hr_files r !! lockPath = None).
    { intros killed signalled r. cbn. split; [|split].
      - intros p Hp. apply lookup_delete_ne. congruence.
      - reflexivity.
      - apply lookup_delete_eq. }
    destruct (parse content) as [data|].
    2: { destruct (Hplain false []) as (Ho & Ht & Hl).
         split; [exact Ho|]. split; [intros; split; assumption|].
         split; [intros pid [=]|]. intros [?|?]; discriminate. }
    destruct (get_prop_opt data (js "pid")) as [| | |pid| | |].
    1-3,5-7: (destruct (Hplain false []) as (Ho & Ht & Hl);
         split; [exact Ho|]; split; [intros; split; assumption|];
         split; [intros pid' [=]|]; intros [?|?]; discriminate).
    destruct (process_kill_self w pid) eqn:Hself.
    + destruct (process_kill_self_succeeds w pid Hself) as [signalled Hkill].
      rewrite Hkill. cbn. split; [reflexivity|]. split.
      * intros c _ Hnot. specialize (Hnot pid eq_refl). congruence.
      * split; [|intros [?|?]; discriminate].
        intros pid' [= <-] _.
        split; [reflexivity|]. split; [reflexivity | exact Hkill].
    + destruct (process_kill w pid) as [signalled|];
        [destruct (Hplain true signalled) as (Ho & Ht & Hl)
        |destruct (Hplain false []) as (Ho & Ht & Hl)];
        (split; [exact Ho|]; split; [intros; split; assumption|];
         split; [intros pid' [= <-] Hyes; congruence|];
         intros [?|?]; discriminate).
  - cbn. split; [reflexivity|]. split; [intros c [=]|].
    split; [intros pid [=]|]. intros _. split; reflexivity.
  - cbn. split; [reflexivity|]. split; [intros c [=]|].
    split; [intros pid [=]|]. intros _. split; reflexivity.
Qed.

Lemma stop_main_files_witness :
  (hr_files (stop_main parse_lock locked_world)
     !! js "/w/.osgrep/server.json" = None
   ∧ hr_files (stop_main parse_lock locked_world) !! js "/w/a.ts"
     = Some (RegularFile (js "let a = 1")))
  ∧ hr_files (stop_main parse_own_group locked_world)
      !! js "/w/.osgrep/server.json" = Some (RegularFile (js "lock")).
Proof.
  split.
  - destruct (stop_main_files parse_lock locked_world
                (js "/w/.osgrep/server.json")) as (Hother & Hlock & _).
    + vm_compute. reflexivity.
    + split.
      * apply (Hlock (js "lock")); [vm_compute; reflexivity|].
        intros pid Hpid. vm_compute in Hpid. injection Hpid as <-.
        vm_compute. reflexivity.
      * rewrite Hother by discriminate. vm_compute. reflexivity.
  - destruct (stop_main_files parse_own_group locked_world
                (js "/w/.osgrep/server.json")) as (_ & _ & Hself & _).
    + vm_compute. reflexivity.
    + destruct (Hself (NumInt 0)) as (_ & -> & _).
      * vm_compute. reflexivity.
      * reflexivity.
      * vm_compute. reflexivity.
Defined.

(** X16: standard input that cannot be read, is empty, or is no JSON makes
    [stop.js] act on the working directory of the process: the hook does
    not fail, and its lock file is [.osgrep/server.json] there. *)
Theorem stop_main_without_payload (parse : jsstring → option JsValue)
    (w : HookWorld) :
  hw_stdin w = None ∨ hw_stdin w = Some []
  ∨ (∃ raw, hw_stdin w = Some raw ∧ parse raw = None) →
  stop_lock_path parse w
  = Some (path_join [hw_cwd w; js ".osgrep"; js "server.json"])
  ∧ hr_failed (stop_main parse w) = false.
Proof.
  intros Hstdin.
  assert (Hpayload : readPayload parse w = VObject []).
  { unfold readPayload.
    destruct Hstdin as [-> | [-> | (raw & -> & Hraw)]]; try reflexivity.
    rewrite Hraw. destruct (truthy raw); reflexivity. }
  assert (Hpath : stop_lock_path parse w
                  = Some (path_join [hw_cwd w; js ".osgrep";
                                     js "server.json"])).
  { unfold stop_lock_path. rewrite Hpayload. reflexivity. }
  split; [exact Hpath|]. unfold stop_main. rewrite Hpath.
  destruct (if existsSync _ _ then _ else _) as [[killed signalled] self].
  destruct self; reflexivity.
Qed.

Lemma stop_main_without_payload_witness :
  stop_lock_path (λ _, None)
    {| hw_stdin := Some (js "not json"); hw_cwd := js "/w";
       hw_tmpdir := js "/tmp"; hw_files := ∅; hw_procs := [];
       hw_pid := 7001; hw_pgid := 77; hw_pkill := false |}
  = Some (js "/w/.osgrep/server.json").
Proof.
  destruct (stop_main_without_payload (λ _, None)
              {| hw_stdin := Some (js "not json"); hw_cwd := js "/w";
                 hw_tmpdir := js "/tmp"; hw_files := ∅; hw_procs := [];
                 hw_pid := 7001; hw_pgid := 77; hw_pkill := false |}) as [-> _].
  - right. right. exists (js "not json"). split; reflexivity.
  - vm_compute. reflexivity.
Defined.

(** What [stop_osgrep.js] signals when it reads its pid file. *)
Lemma stop_osgrep_with_text (parse : jsstring → option JsValue)
    (tostr : JsValue → jsstring) (w : HookWorld) (text : jsstring) :
  session_pid_text parse tostr w = Some text →
  hr_signals (stop_osgrep parse tostr w)
  = match process_kill w (parseInt10 text) with
    | Some signalled => signalled
    | None => []
    end.
Proof.
  unfold session_pid_text, stop_osgrep, stop_osgrep_cleanup.
  destruct (session_pid_file parse tostr w) as [pidFile|]; [|discriminate].
  intros Hread. unfold existsSync, unlinkSync. rewrite Hread.
  unfold readFileSync in Hread.
  destruct (hw_files w !! pidFile) as [[content|]|]; try discriminate.
  destruct (process_kill_self w (parseInt10 text)); reflexivity.
Qed.

(** X17: [stop_osgrep.js] touches no file but the pid file of its
    session.  A pid file that is a regular file is removed, whatever it
    holds, and the response is printed, unless the number it holds names
    the hook itself (its own pid, 0, or minus its own process group): then
    the hook ends by its own signal inside [process.kill], the pid file
    stays and nothing is printed.  Without a session id on standard input
    the hook changes nothing and signals nothing. *)
Theorem stop_osgrep_files (parse : jsstring → option JsValue)
    (tostr : JsValue → jsstring) (w : HookWorld) :
  (session_pid_file parse tostr w = None →
   hr_files (stop_osgrep parse tostr w) = hw_files w
   ∧ hr_signals (stop_osgrep parse tostr w) = [])
  ∧ (∀ pidFile,
       session_pid_file parse tostr w = Some pidFile →
       (∀ p, p ≠ pidFile →
             hr_files (stop_osgrep parse tostr w) !! p = hw_files w !! p)
       ∧ (∀ content,
            hw_files w !! pidFile = Some (RegularFile content) →
            process_kill_self w (parseInt10 content) = false →
            hr_terminated (stop_osgrep parse tostr w) = false
            ∧ hr_files (stop_osgrep parse tostr w) !! pidFile = None
            ∧ hr_stdout (stop_osgrep parse tostr w) = [SessionEndResponse])
       ∧ (∀ content,
            hw_files w !! pidFile = Some (RegularFile content) →
            process_kill_self w (parseInt10 content) = true →
            hr_terminated (stop_osgrep parse tostr w) = true
            ∧ hr_files (stop_osgrep parse tostr w) = hw_files w
            ∧ hr_stdout (stop_osgrep parse tostr w) = [])).
Proof.
  unfold stop_osgrep, stop_osgrep_cleanup. split.
  - intros ->. split; reflexivity.
  - intros pidFile ->. unfold existsSync, readFileSync, unlinkSync.
    destruct (hw_files w !! pidFile) as [[content|]|] eqn:Hfile.
    + destruct (process_kill_self w (parseInt10 content)) eqn:Hself;
        cbn [hr_files hr_terminated hr_stdout].
      * split; [reflexivity|]. split.
        -- intros c [= <-]. congruence.
        -- intros c _ _. repeat split; reflexivity.
      * split; [intros p Hp; apply lookup_delete_ne; congruence|]. split.
        -- intros c _ _. split; [reflexivity|].
           split; [apply lookup_delete_eq | reflexivity].
        -- intros c [= <-]. congruence.
    + cbn. split; [reflexivity|]. split; intros c [=].
    + cbn. split; [reflexivity|]. split; intros c [=].
Qed.

Lemma stop_osgrep_files_witness :
  hr_files
    (stop_osgrep parse_session (λ _, [])
       (session_stdin_world
          {[ js "/tmp/osgrep-watch-s1.pid" := RegularFile (js "4242") ]}))
    !! js "/tmp/osgrep-watch-s1.pid" = None
  ∧ hr_stdout
      (stop_osgrep parse_session (λ _, [])
         (session_stdin_world
            {[ js "/tmp/osgrep-watch-s1.pid" := RegularFile (js "0") ]}))
    = [].
Proof.
  split.
  - destruct (stop_osgrep_files parse_session (λ _, [])
                (session_stdin_world
                   {[ js "/tmp/osgrep-watch-s1.pid"
                        := RegularFile (js "4242") ]})) as [_ Hfile].
    destruct (Hfile (js "/tmp/osgrep-watch-s1.pid")) as (_ & Hgone & _).
    { vm_compute. reflexivity. }
    destruct (Hgone (js "4242")) as (_ & Hnone & _).
    + vm_compute. reflexivity.
    + vm_compute. reflexivity.
    + exact Hnone.
  - destruct (stop_osgrep_files parse_session (λ _, [])
                (session_stdin_world
                   {[ js "/tmp/osgrep-watch-s1.pid"
                        := RegularFile (js "0") ]})) as [_ Hfile].
    destruct (Hfile (js "/tmp/osgrep-watch-s1.pid")) as (_ & _ & Hself).
    { vm_compute. reflexivity. }
    destruct (Hself (js "0")) as (_ & _ & Hout).
    + vm_compute. reflexivity.
    + vm_compute. reflexivity.
    + exact Hout.
Defined.

(** X18: when the pid file of the session holds the process id of a
    running process, [stop_osgrep.js] signals exactly that process; when
    the process is already gone it signals nothing, and it does not
    fail. *)
Theorem stop_osgrep_kills_recorded (parse : jsstring → option JsValue)
    (tostr : JsValue → jsstring) (w : HookWorld) (text : jsstring) (z : Z) :
  session_pid_text parse tostr w = Some text →
  parseInt10 text = NumInt z →
  (0 < z ≤ 2147483647)%Z →
  ((∃ p, p ∈ hw_procs w ∧ proc_pid p = z) →
   hr_signals (stop_osgrep parse tostr w) = [z])
  ∧ ((∀ p, p ∈ hw_procs w → proc_pid p ≠ z) →
     hr_signals (stop_osgrep parse tostr w) = [])
  ∧ hr_failed (stop_osgrep parse tostr w) = false.
Proof.
  intros Htext Hparse Hz.
  rewrite (stop_osgrep_with_text parse tostr w text Htext), Hparse.
  split; [|split].
  - intros Hrunning. rewrite (process_kill_running w z Hz Hrunning).
    reflexivity.
  - intros Hgone. unfold process_kill, os_kill.
    destruct (Z.leb_spec (-2147483648) z); [|lia].
    destruct (Z.leb_spec z 2147483647); [|lia].
    destruct (Z.ltb_spec 0 z); [|lia]. cbn [andb].
    replace (existsb (λ q, (proc_pid q =? z)%Z) (hw_procs w)) with false;
      [destruct (z =? hw_pid w)%Z; reflexivity|].
    symmetry. apply not_true_iff_false. intros (p & Hp & Heq)%existsb_exists.
    apply Z.eqb_eq in Heq. apply (Hgone p); [apply list_elem_of_In, Hp|].
    exact Heq.
  - apply stop_osgrep_completes.
Qed.

Lemma stop_osgrep_kills_recorded_witness :
  hr_signals
    (stop_osgrep parse_session (λ _, [])
       (session_stdin_world
          {[ js "/tmp/osgrep-watch-s1.pid" := RegularFile (js "4242") ]}))
  = [4242%Z].
Proof.
  destruct (stop_osgrep_kills_recorded parse_session (λ _, [])
              (session_stdin_world
                 {[ js "/tmp/osgrep-watch-s1.pid"
                      := RegularFile (js "4242") ]})
              (js "4242") 4242) as (Hrunning & _ & _).
  - vm_compute. reflexivity.
  - vm_compute. reflexivity.
  - lia.
  - apply Hrunning. eexists. split; [apply list_elem_of_here | reflexivity].
Defined.

(** ** Starting and stopping a session *)


(** ** Starting and stopping a session *)

Lemma start_osgrep_cwd_input (parse : jsstring → option JsValue)
    (w : HookWorld) (hookData : JsValue) (dir : jsstring) :
  start_osgrep_cwd parse w = Some (hookData, dir) →
  ∃ input, hw_stdin w = Some input ∧ parse input = Some hookData
           ∧ get_prop hookData (js "session_id")
             = Some (get_prop_opt hookData (js "session_id")).
Proof.
  unfold start_osgrep_cwd.
  destruct (hw_stdin w) as [input|]; [|discriminate].
  destruct (parse input) as [data|] eqn:Hparse; [|discriminate].
  destruct (get_prop data (js "cwd")) as [c|] eqn:Hcwd; [|discriminate].
  destruct (if value_truthy c then c else VString (hw_cwd w));
    try discriminate.
  intros [= <- _]. exists input. split; [reflexivity|].
  split; [exact Hparse|].
  unfold get_prop_opt. destruct data; try discriminate; reflexivity.
Qed.

(** X19: a session started and then stopped: when [start_osgrep.js] could
    spawn the watcher and write the pid file of the session, it reports the
    watcher as active, and [stop_osgrep.js], given the same session id
    while the watcher runs, reads the process id back, signals exactly the
    watcher, and removes the pid file. *)
Theorem start_stop_round_trip (parse : jsstring → option JsValue)
    (tostr : JsValue → jsstring) (env : StartEnv) (w : HookWorld)
    (hookData : JsValue) (dir : jsstring) (pid : Z) :
  let pidFile :=
    path_join
      [hw_tmpdir w;
       js "osgrep-watch-"
         ++ to_string tostr (get_prop_opt hookData (js "session_id"))
         ++ js ".pid"] in
  start_osgrep_cwd parse w = Some (hookData, dir) →
  value_truthy (get_prop_opt hookData (js "session_id")) = true →
  spawn env (js "osgrep watch") dir = Spawned pid →
  (0 < pid ≤ 2147483647)%Z →
  hw_files w !! pidFile ≠ Some Directory →
  can_write env pidFile = true →
  let started := start_osgrep parse tostr env w in
  sr_failed started = false
  ∧ sr_stdout started = [WatchActiveResponse]
  ∧ sr_spawned started = [(js "osgrep watch", dir, pid)]
  ∧ sr_files started
    = <[pidFile := RegularFile (number_to_string pid)]> (hw_files w)
  ∧ ∀ w',
      hw_stdin w' = hw_stdin w → hw_tmpdir w' = hw_tmpdir w →
      hw_files w' = sr_files started →
      (∃ p, p ∈ hw_procs w' ∧ proc_pid p = pid) →
      hr_signals (stop_osgrep parse tostr w') = [pid]
      ∧ hr_files (stop_osgrep parse tostr w') !! pidFile = None.
Proof.
  intros pidFile Hcwd Hsid Hspawn Hpid Hnodir Hwrite started.
  assert (Hstarted : started =
    {| sr_failed := false; sr_spawned := [(js "osgrep watch", dir, pid)];
       sr_files := <[pidFile := RegularFile (number_to_string pid)]>
                     (hw_files w);
       sr_stdout := [WatchActiveResponse] |}).
  { subst started. unfold start_osgrep. rewrite Hcwd, Hspawn, Hsid.
    fold pidFile. unfold writeFileSync. rewrite Hwrite.
    destruct (hw_files w !! pidFile) as [[content|]|]; try reflexivity.
    congruence. }
  rewrite Hstarted. cbn [sr_failed sr_stdout sr_spawned sr_files].
  do 4 (split; [reflexivity|]).
  intros w' Hstdin Htmp Hfiles Hrunning. split.
  - destruct (start_osgrep_cwd_input parse w hookData dir Hcwd)
      as (input & Hin & Hparse & Hprop).
    assert (Hfile : session_pid_file parse tostr w' = Some pidFile).
    { unfold session_pid_file. rewrite Hstdin, Hin, Hparse, Hprop, Hsid, Htmp.
      reflexivity. }
    assert (Htext : session_pid_text parse tostr w'
                    = Some (number_to_string pid)).
    { unfold session_pid_text. rewrite Hfile. unfold readFileSync.
      rewrite Hfiles, lookup_insert_eq. reflexivity. }
    rewrite (stop_osgrep_with_text parse tostr w' _ Htext).
    rewrite parseInt10_number_to_string by lia.
    rewrite (process_kill_running w' pid Hpid Hrunning). reflexivity.
  - destruct (start_osgrep_cwd_input parse w hookData dir Hcwd)
      as (input & Hin & Hparse & Hprop).
    unfold stop_osgrep, stop_osgrep_cleanup, session_pid_file.
    rewrite Hstdin, Hin, Hparse, Hprop, Hsid, Htmp. fold pidFile.
    unfold existsSync, readFileSync, unlinkSync.
    rewrite Hfiles, lookup_insert_eq.
    rewrite parseInt10_number_to_string by lia.
    rewrite (process_kill_self_running w' pid) by (exact Hrunning || lia).
    cbn [hr_files]. apply lookup_delete_eq.
Qed.

Lemma start_stop_round_trip_witness :
  let started := start_osgrep parse_session (λ _, []) session_env
                   session_world in
  sr_stdout started = [WatchActiveResponse]
  ∧ hr_signals
      (stop_osgrep parse_session (λ _, [])
         (after_start session_world started)) = [4242%Z].
Proof.
  intros started.
  destruct (start_stop_round_trip parse_session (λ _, []) session_env
              session_world
              (VObject [(js "session_id", VString (js "s1"))])
              (js "/w") 4242)
    as (_ & Hout & _ & _ & Hstop).
  - vm_compute. reflexivity.
  - vm_compute. reflexivity.
  - reflexivity.
  - lia.
  - vm_compute. discriminate.
  - reflexivity.
  - split; [exact Hout|].
    apply (Hstop (after_start session_world started)); try reflexivity.
    eexists. split; [apply list_elem_of_here | reflexivity].
Defined.

(** X20: [start_osgrep.js] prints exactly one response in every case,
    spawns at most one process, an [osgrep watch], and changes no file
    except, at most, the pid file of the session. *)
Theorem start_osgrep_response_and_files (parse : jsstring → option JsValue)
    (tostr : JsValue → jsstring) (env : StartEnv) (w : HookWorld) :
  length (sr_stdout (start_osgrep parse tostr env w)) = 1
  ∧ (sr_spawned (start_osgrep parse tostr env w) = []
     ∨ ∃ dir pid,
         spawn env (js "osgrep watch") dir = Spawned pid
         ∧ sr_spawned (start_osgrep parse tostr env w)
           = [(js "osgrep watch", dir, pid)])
  ∧ (sr_files (start_osgrep parse tostr env w) = hw_files w
     ∨ ∃ pidFile text,
         session_pid_file parse tostr w = Some pidFile
         ∧ sr_files (start_osgrep parse tostr env w)
           = <[pidFile := RegularFile text]> (hw_files w)).
Proof.
  unfold start_osgrep.
  destruct (start_osgrep_cwd parse w) as [[hookData dir]|] eqn:Hcwd;
    [|split; [reflexivity | split; left; reflexivity]].
  destruct (start_osgrep_cwd_input parse w hookData dir Hcwd)
    as (input & Hin & Hparse & Hprop).
  destruct (spawn env (js "osgrep watch") dir) as [pid| |] eqn:Hspawn;
    try (split; [reflexivity | split; left; reflexivity]).
  - assert (Hone : ∀ l, l = [(js "osgrep watch", dir, pid)] →
              l = [] ∨ ∃ dir' pid',
                spawn env (js "osgrep watch") dir' = Spawned pid'
                ∧ l = [(js "osgrep watch", dir', pid')]).
    { intros l ->. right. exists dir, pid. split; [exact Hspawn|reflexivity]. }
    destruct (value_truthy (get_prop_opt hookData (js "session_id")))
      eqn:Hsid;
      [|split; [reflexivity | split; [apply Hone | left]; reflexivity]].
    unfold writeFileSync.
    destruct (hw_files w !! _) as [[content|]|];
      try (split; [reflexivity | split; [apply Hone | left]; reflexivity]);
      (destruct (can_write env _);
       [|split; [reflexivity | split; [apply Hone | left]; reflexivity]]);
      (split; [reflexivity|]; split; [apply Hone; reflexivity|];
       right; eexists _, _; split; [|reflexivity];
       unfold session_pid_file; rewrite Hin, Hparse, Hprop, Hsid;
       reflexivity).
  - destruct (value_truthy (get_prop_opt hookData (js "session_id")));
      (split; [reflexivity | split; left; reflexivity]).
Qed.

(** X21: [start.js] and [stop.js] agree on the directory: when [start.js]
    does not fail it has spawned one [osgrep serve], and the lock file that
    [stop.js] looks for, given the same payload, is
    [.osgrep/server.json] in the directory that server runs in. *)
Theorem start_stop_same_directory (parse : jsstring → option JsValue)
    (env : StartEnv) (w : HookWorld) :
  sr_failed (start_main parse env w) = false →
  ∃ dir pid,
    sr_spawned (start_main parse env w) = [(js "osgrep serve", dir, pid)]
    ∧ sr_stdout (start_main parse env w) = [ServeStartedResponse]
    ∧ stop_lock_path parse w
      = Some (path_join [dir; js ".osgrep"; js "server.json"]).
Proof.
  unfold start_main, stop_lock_path.
  destruct (get_prop (readPayload parse w) (js "cwd")) as [c|];
    [|discriminate].
  destruct (openSync_append env (hw_files w) log_path) as [files|];
    [|discriminate].
  destruct (if value_truthy c then c else VString (hw_cwd w));
    try discriminate.
  destruct (spawn env (js "osgrep serve") s) as [pid| |]; try discriminate.
  intros _. exists s, pid. repeat split; reflexivity.
Qed.

Lemma start_stop_same_directory_witness :
  ∃ dir pid,
    sr_spawned (start_main parse_empty_object session_env serving_world)
    = [(js "osgrep serve", dir, pid)]
    ∧ sr_stdout (start_main parse_empty_object session_env serving_world)
      = [ServeStartedResponse]
    ∧ stop_lock_path parse_empty_object serving_world
      = Some (path_join [dir; js ".osgrep"; js "server.json"]).
Proof.
  apply (start_stop_same_directory parse_empty_object session_env
           serving_world).
  vm_compute. reflexivity.
Defined.

(** ** The benchmark table *)

Section PlotFacts.

Variable Num : Type.
Variable num_add : Num → Num → Num.
Variable num_zero : Num.
Variable num_falsy : Num → bool.
Variable parseFloat : jsstring → Num.
Variable unicode_lower : jsstring → jsstring.

Lemma cumulative_fold_counts (rows : list (BenchmarkRow Num))
    (acc : CumulativeData Num) :
  let c := fold_left (cumulative_step Num num_add) rows acc in
  queryCount c = queryCount acc + length rows
  ∧ osgrepWins c
    = osgrepWins acc
      + length (List.filter (λ r, bool_decide (winner r = js "osgrep")) rows)
  ∧ baselineWins c
    = baselineWins acc
      + length (List.filter (λ r, bool_decide (winner r = js "baseline"))
                  rows)
  ∧ ties c
    = ties acc
      + length (List.filter (λ r, bool_decide (winner r = js "tie")) rows).
Proof.
  revert acc. induction rows as [|row rows IH]; intros acc.
  - cbn. repeat split; lia.
  - cbn [fold_left]. destruct (IH (cumulative_step Num num_add acc row))
      as (Hq & Ho & Hb & Ht).
    cbn zeta. rewrite Hq, Ho, Hb, Ht.
    cbn [cumulative_step queryCount osgrepWins baselineWins ties
         List.filter length].
    unfold count_if.
    repeat split;
      repeat match goal with
        | |- context [bool_decide ?P] => destruct (bool_decide P)
        end; cbn [length]; lia.
Qed.

Lemma winner_indicator (w : jsstring) :
  count_if (bool_decide (w = js "osgrep"))
  + count_if (bool_decide (w = js "baseline"))
  + count_if (bool_decide (w = js "tie"))
  = count_if (known_winner w).
Proof.
  unfold known_winner.
  destruct (decide (w = js "osgrep")) as [->|Ho]; [reflexivity|].
  rewrite (bool_decide_eq_false_2 _ Ho).
  destruct (decide (w = js "baseline")) as [->|Hb]; [reflexivity|].
  rewrite (bool_decide_eq_false_2 _ Hb).
  destruct (bool_decide (w = js "tie")); reflexivity.
Qed.

Lemma winner_counts_le (rows : list (BenchmarkRow Num)) :
  length (List.filter (λ r, bool_decide (winner r = js "osgrep")) rows)
  + length (List.filter (λ r, bool_decide (winner r = js "baseline")) rows)
  + length (List.filter (λ r, bool_decide (winner r = js "tie")) rows)
  = length (List.filter (λ r, known_winner (winner r)) rows).
Proof.
  induction rows as [|row rows IH]; [reflexivity|].
  cbn [List.filter]. pose proof (winner_indicator (winner row)) as Hrow.
  revert Hrow. unfold count_if.
  destruct (known_winner (winner row));
    repeat match goal with
      | |- context [bool_decide ?P] => destruct (bool_decide P)
      end; cbn [length]; lia.
Qed.

Lemma filter_length_all {A : Type} (f : A → bool) (l : list A) :
  length (List.filter f l) ≤ length l
  ∧ (length (List.filter f l) = length l ↔ Forall (λ x, f x = true) l).
Proof.
  induction l as [|x l [IHle IHiff]]; cbn [List.filter length].
  - split; [lia|]. split; [constructor | reflexivity].
  - destruct (f x) eqn:Hx; cbn [length].
    + split; [lia|]. split.
      * intros Heq. constructor; [exact Hx | apply IHiff; lia].
      * intros Hall. apply Forall_cons in Hall as [_ Hall].
        apply IHiff in Hall. lia.
    + split; [lia|]. split; [lia|].
      intros Hall. apply Forall_cons in Hall as [Hx' _]. congruence.
Qed.

(** X22: [calculateCumulative] counts every row as a query, and counts a
    win or a tie only for a winner spelled osgrep, baseline or tie: the
    three counts add up to at most the number of queries, and to exactly
    that number when every row has one of these winners. *)
Theorem calculateCumulative_counts (rows : list (BenchmarkRow Num)) :
  let c := calculateCumulative Num num_add num_zero rows in
  queryCount c = length rows
  ∧ osgrepWins c + baselineWins c + ties c ≤ queryCount c
  ∧ (osgrepWins c + baselineWins c + ties c = queryCount c
     ↔ Forall (λ r, known_winner (winner r) = true) rows).
Proof.
  unfold calculateCumulative.
  destruct (cumulative_fold_counts rows (cumulative_zero Num num_zero))
    as (Hq & Ho & Hb & Ht).
  cbn zeta in *. rewrite Hq, Ho, Hb, Ht.
  cbn [cumulative_zero queryCount osgrepWins baselineWins ties].
  rewrite !Nat.add_0_l.
  pose proof (winner_counts_le rows) as Hsum.
  destruct (filter_length_all (λ r : BenchmarkRow Num,
                                 known_winner (winner r)) rows)
    as [Hle Hiff].
  split; [reflexivity|]. split; [lia|].
  rewrite <- Hiff. lia.
Qed.

(** X23: the counts of two tables put together are the sums of their
    counts. *)
Theorem calculateCumulative_app (rows1 rows2 : list (BenchmarkRow Num)) :
  let c := calculateCumulative Num num_add num_zero (rows1 ++ rows2) in
  let c1 := calculateCumulative Num num_add num_zero rows1 in
  let c2 := calculateCumulative Num num_add num_zero rows2 in
  queryCount c = queryCount c1 + queryCount c2
  ∧ osgrepWins c = osgrepWins c1 + osgrepWins c2
  ∧ baselineWins c = baselineWins c1 + baselineWins c2
  ∧ ties c = ties c1 + ties c2.
Proof.
  unfold calculateCumulative.
  destruct (cumulative_fold_counts (rows1 ++ rows2)
              (cumulative_zero Num num_zero)) as (Hq & Ho & Hb & Ht).
  destruct (cumulative_fold_counts rows1 (cumulative_zero Num num_zero))
    as (Hq1 & Ho1 & Hb1 & Ht1).
  destruct (cumulative_fold_counts rows2 (cumulative_zero Num num_zero))
    as (Hq2 & Ho2 & Hb2 & Ht2).
  cbn zeta in *.
  rewrite Hq, Ho, Hb, Ht, Hq1, Ho1, Hb1, Ht1, Hq2, Ho2, Hb2, Ht2.
  rewrite !List.filter_app, !length_app.
  cbn [cumulative_zero queryCount osgrepWins baselineWins ties].
  repeat split; lia.
Qed.

Lemma forallb_drop_while (P f : N → bool) (s : jsstring) :
  forallb P s = true → forallb P (drop_while f s) = true.
Proof.
  induction s as [|c s IH]; cbn; [reflexivity|].
  intros Hall. destruct (f c); [|exact Hall].
  apply andb_true_iff in Hall as [_ Hs]. apply IH, Hs.
Qed.

Lemma forallb_trim (P : N → bool) (s : jsstring) :
  forallb P s = true → forallb P (trim s) = true.
Proof.
  intros Hall. unfold trim. rewrite forallb_rev.
  apply forallb_drop_while. rewrite forallb_rev.
  apply forallb_drop_while, Hall.
Qed.

Lemma row_of_line_spec (line : jsstring) :
  length (row_of_line Num num_zero num_falsy parseFloat unicode_lower line)
  ≤ 1
  ∧ Forall (λ r, winner r ≠ []
                 ∧ forallb (λ c, negb (is_comma c)) (row_query r) = true)
      (row_of_line Num num_zero num_falsy parseFloat unicode_lower line).
Proof.
  unfold row_of_line. destruct (negb (truthy (trim line)));
    [split; [cbn; lia | constructor]|].
  destruct (length _ <? 6); [split; [cbn; lia | constructor]|].
  split; [cbn; lia|]. constructor; [|constructor].
  cbn [winner row_query]. split.
  - destruct (truthy (toLowerCase unicode_lower _)) eqn:Hlow.
    + intros Heq. rewrite Heq in Hlow. discriminate.
    + discriminate.
  - destruct (List.map trim (split_on is_comma (trim line)) !! 0)
      as [cell|] eqn:Hcell; [|reflexivity].
    cbn [default]. apply list_elem_of_lookup_2, list_elem_of_In in Hcell.
    apply in_map_iff in Hcell as (part & <- & Hpart).
    apply forallb_trim.
    pose proof (split_on_parts (λ _, true) is_comma (trim line)) as Hparts.
    rewrite List.Forall_forall in Hparts. apply Hparts; [|exact Hpart].
    apply forallb_forall. reflexivity.
Qed.

Lemma flat_map_length_le {A B : Type} (f : A → list B) (l : list A) :
  (∀ x, length (f x) ≤ 1) → length (List.flat_map f l) ≤ length l.
Proof.
  intros Hf. induction l as [|x l IH]; cbn [List.flat_map length]; [lia|].
  rewrite length_app. specialize (Hf x). lia.
Qed.

Lemma split_join_cells (cells : list jsstring) :
  cells ≠ [] →
  Forall (λ cell, forallb (λ c, negb (is_comma c)) cell = true) cells →
  split_on is_comma (join_cells cells) = cells.
Proof.
  induction cells as [|cell rest IH]; [congruence|]. intros _ Hall.
  apply Forall_cons in Hall as [Hcell Hrest].
  destruct rest as [|next rest].
  - apply split_on_plain, Hcell.
  - change (join_cells (cell :: next :: rest))
      with (cell ++ 44%N :: join_cells (next :: rest)).
    rewrite split_on_app_sep by reflexivity.
    rewrite (split_on_plain _ cell Hcell), IH by (congruence || exact Hrest).
    reflexivity.
Qed.

Lemma join_cells_truthy (cell next : jsstring) (rest : list jsstring) :
  truthy (join_cells (cell :: next :: rest)) = true.
Proof.
  apply truthy_ne. change (join_cells (cell :: next :: rest))
    with (cell ++ 44%N :: join_cells (next :: rest)).
  destruct cell; discriminate.
Qed.

(** X24: [parseCSV] reads the trimmed content line by line: it makes no
    row of the first line, whatever that line holds, and makes the rows of
    the other lines in order, at most one row each, so fewer rows than
    lines.  Every row has a winner that is not empty and a query without
    comma; a line of six or more cells whose sixth cell is empty or white
    space gives a row whose winner is [tie]. *)
Theorem parseCSV_rows (content : jsstring) :
  let row_of := row_of_line Num num_zero num_falsy parseFloat
                  unicode_lower in
  let rows := parseCSV Num num_zero num_falsy parseFloat unicode_lower
                content in
  length rows < length (split_on is_newline (trim content))
  ∧ Forall (λ r, winner r ≠ []
                 ∧ forallb (λ c, negb (is_comma c)) (row_query r) = true)
      rows
  ∧ (forallb (λ c, negb (is_newline c)) (trim content) = true → rows = [])
  ∧ (∀ header rest,
       forallb (λ c, negb (is_newline c)) header = true →
       trim content = header ++ 10%N :: rest →
       rows = List.flat_map row_of (split_on is_newline rest))
  ∧ (∀ q a b c d w rest,
       let line := join_cells (q :: a :: b :: c :: d :: w :: rest) in
       Forall (λ cell, forallb (λ c, negb (is_comma c)) cell = true)
         (q :: a :: b :: c :: d :: w :: rest) →
       trim line = line →
       trim w = [] →
       ∃ row, row_of line = [row]
              ∧ winner row = js "tie" ∧ row_query row = trim q).
Proof.
  intros row_of rows. subst rows row_of. unfold parseCSV.
  split; [|split; [|split; [|split]]].
  - pose proof (split_on_not_nil is_newline (trim content)) as Hne.
    destruct (split_on is_newline (trim content)) as [|header lines];
      [congruence|].
    change (drop 1 (header :: lines)) with lines. cbn [length].
    pose proof (flat_map_length_le
                  (row_of_line Num num_zero num_falsy parseFloat
                     unicode_lower) lines
                  (λ l, proj1 (row_of_line_spec l))). lia.
  - apply List.Forall_flat_map, List.Forall_forall. intros line _.
    apply row_of_line_spec.
  - intros Hone. rewrite (split_on_plain _ _ Hone). reflexivity.
  - intros header rest Hheader ->.
    rewrite split_on_app_sep by reflexivity.
    rewrite (split_on_plain _ header Hheader). reflexivity.
  - intros q a b c d w rest. cbv zeta. intros Hcells Htrim Hw.
    unfold row_of_line. rewrite Htrim.
    rewrite join_cells_truthy. cbn [negb].
    rewrite split_join_cells by (congruence || exact Hcells).
    cbn [List.map length Nat.ltb Nat.leb lookup list_lookup default].
    rewrite Hw. eexists. split; [reflexivity|].
    split; reflexivity.
Qed.

End PlotFacts.

(** A table of one line after the header, with an empty winner cell. *)
Lemma parseCSV_rows_witness :
  List.map winner
    (parseCSV nat 0 (λ n, n =? 0) (λ _, 0) (λ s, s)
       (js "query,bt,bc,ot,oc,winner" ++ 10%N :: js "q1,1,2,3,4,"))
  = [js "tie"].
Proof.
  destruct (parseCSV_rows nat 0 (λ n, n =? 0) (λ _, 0) (λ s, s)
              (js "query,bt,bc,ot,oc,winner" ++ 10%N :: js "q1,1,2,3,4,"))
    as (_ & _ & _ & Hrest & Htie).
  rewrite (Hrest (js "query,bt,bc,ot,oc,winner") (js "q1,1,2,3,4,"))
    by (vm_compute; reflexivity).
  destruct (Htie (js "q1") (js "1") (js "2") (js "3") (js "4") [] [])
    as (row & Hrow & Hwinner & _).
  - repeat constructor.
  - vm_compute. reflexivity.
  - reflexivity.
  - change (split_on is_newline (js "q1,1,2,3,4,"))
      with [join_cells [js "q1"; js "1"; js "2"; js "3"; js "4"; []]].
    cbn [List.flat_map]. rewrite Hrow. cbn [app List.map].
    rewrite Hwinner. reflexivity.
Defined.

(** ** The agent benchmark *)

(** Settles the comparisons of tool names that are written out. *)
Ltac decide_names :=
  repeat first
    [ rewrite bool_decide_eq_true_2 by reflexivity
    | rewrite bool_decide_eq_false_2 by discriminate ].

Section RunTestFacts.

Variable Usage : Type.

Lemma run_block_counts (useOsgrep : bool) (st : RunState Usage)
    (block : ContentBlock) :
  let names := match block with ToolUse n => [n] | OtherBlock => [] end in
  let st' := run_block Usage useOsgrep st block in
  toolCalls st' = toolCalls st + length names
  ∧ filesRead st' = filesRead st + count_tool (js "Read") names
  ∧ bashCalls st' = bashCalls st + count_tool (js "Bash") names
  ∧ grepCalls st' = grepCalls st + count_tool (js "Grep") names
  ∧ finalResult st' = finalResult st
  ∧ resultText st' = resultText st.
Proof.
  destruct block as [name|]; cbn zeta;
    [|cbn; repeat split; try reflexivity; lia].
  unfold run_block, count_tool. cbn [List.filter].
  destruct (decide (name = js "Read")) as [->|Hread].
  { decide_names. cbn [toolCalls filesRead bashCalls grepCalls finalResult
                       resultText length].
    repeat split; try reflexivity; lia. }
  rewrite (bool_decide_eq_false_2 _ Hread).
  destruct (decide (name = js "Bash")) as [->|Hbash].
  { decide_names. cbn [toolCalls filesRead bashCalls grepCalls finalResult
                       resultText length].
    repeat split; try reflexivity; lia. }
  rewrite (bool_decide_eq_false_2 _ Hbash).
  destruct (bool_decide (name = js "Grep"));
    cbn [toolCalls filesRead bashCalls grepCalls finalResult resultText
         length];
    repeat split; try reflexivity; lia.
Qed.

Lemma count_tool_app (tool : jsstring) (a b : list jsstring) :
  count_tool tool (a ++ b) = count_tool tool a + count_tool tool b.
Proof. unfold count_tool. rewrite List.filter_app, length_app. reflexivity. Qed.

Lemma run_blocks_counts (useOsgrep : bool) (content : list ContentBlock)
    (st : RunState Usage) :
  let names :=
    List.flat_map
      (λ b, match b with ToolUse n => [n] | OtherBlock => [] end) content in
  let st' := fold_left (run_block Usage useOsgrep) content st in
  toolCalls st' = toolCalls st + length names
  ∧ filesRead st' = filesRead st + count_tool (js "Read") names
  ∧ bashCalls st' = bashCalls st + count_tool (js "Bash") names
  ∧ grepCalls st' = grepCalls st + count_tool (js "Grep") names
  ∧ finalResult st' = finalResult st
  ∧ resultText st' = resultText st.
Proof.
  revert st. induction content as [|block content IH]; intros st.
  - cbn. repeat split; try reflexivity; lia.
  - cbn [fold_left List.flat_map].
    destruct (IH (run_block Usage useOsgrep st block))
      as (Ht & Hr & Hb & Hg & Hf & Hx).
    destruct (run_block_counts useOsgrep st block)
      as (Ht' & Hr' & Hb' & Hg' & Hf' & Hx').
    cbn zeta in *. rewrite Ht, Hr, Hb, Hg, Hf, Hx, Ht', Hr', Hb', Hg'.
    rewrite length_app, !count_tool_app. repeat split; try lia; assumption.
Qed.

Lemma run_messages_counts (useOsgrep : bool)
    (messages : list (SDKMessage Usage)) (st : RunState Usage) :
  let names := tool_names Usage messages in
  let st' := fold_left (run_message Usage useOsgrep) messages st in
  toolCalls st' = toolCalls st + length names
  ∧ filesRead st' = filesRead st + count_tool (js "Read") names
  ∧ bashCalls st' = bashCalls st + count_tool (js "Bash") names
  ∧ grepCalls st' = grepCalls st + count_tool (js "Grep") names
  ∧ (finalResult st' = None
     ↔ finalResult st = None
       ∧ existsb (is_result_message Usage) messages = false).
Proof.
  revert st. induction messages as [|msg messages IH]; intros st.
  - cbn. split; [|split; [|split; [|split]]]; try lia. tauto.
  - cbn [fold_left]. unfold tool_names. cbn [List.flat_map existsb].
    fold (tool_names Usage messages).
    destruct (IH (run_message Usage useOsgrep st msg))
      as (Ht & Hr & Hb & Hg & Hf).
    cbn zeta in *. rewrite Ht, Hr, Hb, Hg, Hf.
    rewrite length_app, !count_tool_app.
    destruct msg as [[content|]|success result usage|];
      cbn [run_message is_result_message orb].
    + destruct (run_blocks_counts useOsgrep content st)
        as (Ht' & Hr' & Hb' & Hg' & Hf' & _).
      cbn zeta in *. rewrite Ht', Hr', Hb', Hg', Hf'.
      split; [|split; [|split; [|split]]]; try lia. tauto.
    + split; [|split; [|split; [|split]]]; try (cbn; lia). tauto.
    + split; [|split; [|split; [|split]]]; try (cbn; lia).
      cbn [finalResult]. split; intros [? ?]; discriminate.
    + split; [|split; [|split; [|split]]]; try (cbn; lia). tauto.
Qed.

Lemma count_tools_le (names : list jsstring) :
  count_tool (js "Read") names + count_tool (js "Grep") names
  + count_tool (js "Bash") names ≤ length names.
Proof.
  unfold count_tool. induction names as [|n names IH]; [cbn; lia|].
  cbn [List.filter length].
  destruct (decide (n = js "Read")) as [->|Hr];
    [decide_names; cbn [length]; lia|].
  rewrite (bool_decide_eq_false_2 _ Hr).
  destruct (decide (n = js "Grep")) as [->|Hg];
    [decide_names; cbn [length]; lia|].
  rewrite (bool_decide_eq_false_2 _ Hg).
  destruct (bool_decide (n = js "Bash")); cbn [length]; lia.
Qed.

(** X25: when the agent's stream ends without throwing and holds a result
    message, [runTest] reports no error and counts every tool-use block as
    a tool call, the Read, Grep and Bash ones also under their own
    counter; so files read, grep calls and bash calls together never
    exceed the tool calls. *)
Theorem runTest_counts (useOsgrep : bool)
    (messages : list (SDKMessage Usage)) (elapsed : nat) :
  existsb (is_result_message Usage) messages = true →
  let r := (runTest Usage useOsgrep messages None elapsed).1 in
  let names := tool_names Usage messages in
  error r = None
  ∧ tool_calls r = length names
  ∧ files_read r = count_tool (js "Read") names
  ∧ grep_calls r = count_tool (js "Grep") names
  ∧ bash_calls r = count_tool (js "Bash") names
  ∧ files_read r + grep_calls r + bash_calls r ≤ tool_calls r.
Proof.
  intros Hresult. unfold runTest. cbn [fst].
  destruct (run_messages_counts useOsgrep messages (run_start Usage))
    as (Ht & Hr & Hb & Hg & Hf).
  cbn zeta in *.
  destruct (finalResult (fold_left _ messages (run_start Usage)))
    as [usage|] eqn:Hfinal.
  - cbn [error tool_calls files_read grep_calls bash_calls].
    rewrite Ht, Hr, Hb, Hg. cbn [run_start toolCalls filesRead grepCalls
                                  bashCalls].
    pose proof (count_tools_le (tool_names Usage messages)).
    repeat split; lia.
  - exfalso. destruct Hf as [Hf _]. destruct (Hf eq_refl) as [_ Hnone].
    congruence.
Qed.

(** X26: when the stream throws, or ends without a result message,
    [runTest] reports an error and all its counters are 0, however many
    tools the agent had called by then; the time is still reported. *)
Theorem runTest_failure (useOsgrep : bool)
    (messages : list (SDKMessage Usage)) (thrown : option jsstring)
    (elapsed : nat) :
  thrown ≠ None ∨ existsb (is_result_message Usage) messages = false →
  let r := (runTest Usage useOsgrep messages thrown elapsed).1 in
  error r ≠ None
  ∧ tool_calls r = 0 ∧ files_read r = 0 ∧ grep_calls r = 0
  ∧ bash_calls r = 0 ∧ result_text r = [] ∧ usage_figures r = None
  ∧ duration_ms r = elapsed.
Proof.
  intros Hfail. unfold runTest. cbn [fst].
  destruct thrown as [message|].
  { cbn. repeat split; try reflexivity. discriminate. }
  destruct Hfail as [Hfail|Hnone]; [congruence|].
  destruct (run_messages_counts useOsgrep messages (run_start Usage))
    as (_ & _ & _ & _ & Hf).
  cbn zeta in Hf. destruct Hf as [_ Hf].
  rewrite (Hf (conj eq_refl Hnone)).
  cbn. repeat split; try reflexivity. discriminate.
Qed.

End RunTestFacts.

Lemma runTest_counts_witness :
  let r := (runTest nat false sample_messages None 1200).1 in
  tool_calls r = 4 ∧ files_read r = 2 ∧ grep_calls r = 1
  ∧ bash_calls r = 0.
Proof.
  intros r.
  destruct (runTest_counts nat false sample_messages 1200)
    as (_ & Ht & Hr & Hg & Hb & _).
  - reflexivity.
  - fold r in Ht, Hr, Hg, Hb. rewrite Ht, Hr, Hg, Hb.
    vm_compute. repeat split; reflexivity.
Defined.

Lemma runTest_failure_witness :
  let r := (runTest nat false (removelast sample_messages) None 1200).1 in
  tool_calls r = 0 ∧ error r = Some (js "No result message received").
Proof.
  intros r.
  destruct (runTest_failure nat false (removelast sample_messages) None
              1200) as (_ & Ht & _).
  - right. reflexivity.
  - fold r in Ht. split; [exact Ht | vm_compute; reflexivity].
Defined.

(** ** Saving benchmark results *)

Section SaveFacts.

Variable JSON_parse : jsstring → option JsValue.
Variable JSON_stringify : JsValue → jsstring.
Variable env : StartEnv.

Lemma saveResults_array (timestamp : jsstring)
    (files : gmap jsstring FsNode) (comparison : BenchmarkComparison)
    (filepath : jsstring) (items : list JsValue) :
  existing_results JSON_parse files filepath = VArray items →
  files !! filepath ≠ Some Directory →
  can_write env filepath = true →
  saveResults JSON_parse JSON_stringify env timestamp files comparison
    filepath
  = Some (<[filepath :=
              RegularFile
                (JSON_stringify
                   (VArray (items
                              ++ [resultWithTimestamp timestamp
                                    comparison])))]> files).
Proof.
  intros Hexisting Hnodir Hwrite. unfold saveResults, writeFileSync.
  rewrite Hexisting, Hwrite.
  destruct (files !! filepath) as [[content|]|]; try reflexivity.
  congruence.
Qed.

(** X27: results accumulate over runs: when the output file can be
    written and what is written reads back as it was, a series of runs
    that starts from a file holding an array (or from no file, or from one
    that does not parse) leaves a file that holds the earlier results
    followed by one result per run, in the order of the runs, and changes
    no other file. *)
Theorem save_all_accumulates (filepath : jsstring)
    (runs : list (jsstring * BenchmarkComparison))
    (files : gmap jsstring FsNode) (items : list JsValue) :
  existing_results JSON_parse files filepath = VArray items →
  files !! filepath ≠ Some Directory →
  can_write env filepath = true →
  (∀ k, 0 < k ≤ length runs →
     JSON_parse
       (JSON_stringify
          (VArray (items
                     ++ List.map (λ run, resultWithTimestamp run.1 run.2)
                          (take k runs))))
     = Some (VArray (items
                       ++ List.map (λ run, resultWithTimestamp run.1 run.2)
                            (take k runs)))) →
  ∃ files',
    save_all JSON_parse JSON_stringify env filepath files runs = Some files'
    ∧ existing_results JSON_parse files' filepath
      = VArray (items
                  ++ List.map (λ run, resultWithTimestamp run.1 run.2) runs)
    ∧ ∀ p, p ≠ filepath → files' !! p = files !! p.
Proof.
  revert files items.
  induction runs as [|[timestamp comparison] runs IH];
    intros files items Hexisting Hnodir Hwrite Hround.
  - exists files. cbn. rewrite app_nil_r. repeat split; assumption.
  - unfold save_all. cbn [fold_left fst snd].
    rewrite (saveResults_array timestamp files comparison filepath items
               Hexisting Hnodir Hwrite).
    set (entry := resultWithTimestamp timestamp comparison).
    set (files1 := <[filepath := _]> files).
    destruct (IH files1 (items ++ [entry])) as (files' & Hsave & Hres & Hother).
    + unfold existing_results, readFileSync. subst files1.
      rewrite lookup_insert_eq.
      apply (f_equal (λ o, match o with Some v => v | None => VArray [] end)
               (Hround 1 ltac:(cbn [length]; lia))).
    + subst files1. rewrite lookup_insert_eq. discriminate.
    + exact Hwrite.
    + intros k Hk. rewrite <- !app_assoc.
      apply (Hround (S k)). cbn [length]. lia.
    + exists files'. split; [exact Hsave|]. split.
      * rewrite Hres, <- app_assoc. reflexivity.
      * intros p Hp. rewrite (Hother p Hp). subst files1.
        apply lookup_insert_ne. congruence.
Qed.

(** X28: the edges of [saveResults]: an output file that is missing or
    does not parse is written anew with the new result alone, what it held
    being lost; an output file that holds JSON other than an array makes
    the save fail, and then nothing is written. *)
Theorem saveResults_edges (timestamp : jsstring)
    (files : gmap jsstring FsNode) (comparison : BenchmarkComparison)
    (filepath : jsstring) :
  (readFileSync files filepath = None
   ∨ (∃ text, readFileSync files filepath = Some text
              ∧ JSON_parse text = None) →
   saveResults JSON_parse JSON_stringify env timestamp files comparison
     filepath
   = writeFileSync env files filepath
       (JSON_stringify (VArray [resultWithTimestamp timestamp comparison])))
  ∧ (∀ text parsed,
       readFileSync files filepath = Some text →
       JSON_parse text = Some parsed →
       (∀ items, parsed ≠ VArray items) →
       saveResults JSON_parse JSON_stringify env timestamp files comparison
         filepath = None).
Proof.
  split.
  - intros Hfresh. unfold saveResults, existing_results.
    destruct Hfresh as [-> | (text & -> & ->)]; reflexivity.
  - intros text parsed Hread Hparse Hnot.
    unfold saveResults, existing_results. rewrite Hread, Hparse.
    destruct parsed; try reflexivity. exfalso. exact (Hnot items eq_refl).
Qed.

End SaveFacts.

Lemma save_all_accumulates_witness :
  ∃ files',
    save_all sample_parse sample_stringify writable_env (js "/r.json") ∅
      sample_runs = Some files'
    ∧ existing_results sample_parse files' (js "/r.json")
      = VArray
          (List.map (λ run, resultWithTimestamp run.1 run.2) sample_runs).
Proof.
  destruct (save_all_accumulates sample_parse sample_stringify writable_env
              (js "/r.json") sample_runs ∅ [])
    as (files' & Hsave & Hres & _).
  - reflexivity.
  - rewrite lookup_empty. discriminate.
  - reflexivity.
  - intros k Hk. cbn [length sample_runs] in Hk.
    assert (k = 1 ∨ k = 2) as [-> | ->] by lia; vm_compute; reflexivity.
  - exists files'. split; [exact Hsave | exact Hres].
Defined.

Lemma saveResults_edges_witness :
  saveResults sample_parse sample_stringify writable_env
    (js "2025-01-01T00:00:00.000Z")
    {[ js "/r.json" := RegularFile (js "garbled") ]}
    (sample_comparison (js "q1")) (js "/r.json")
  = Some {[ js "/r.json" := RegularFile (js "one") ]}.
Proof.
  destruct (saveResults_edges sample_parse sample_stringify writable_env
              (js "2025-01-01T00:00:00.000Z")
              {[ js "/r.json" := RegularFile (js "garbled") ]}
              (sample_comparison (js "q1")) (js "/r.json")) as [Hfresh _].
  rewrite Hfresh.
  - vm_compute. reflexivity.
  - right. exists (js "garbled"). split; vm_compute; reflexivity.
Defined.
